(** * Chat2API CLI and API-key mapping middleware: a shallow embedding

    The development follows the two source files of the repository:
    [chat.py] (credential store [Config], the streaming reader inside
    [send_message], the chat turn of [main], [switch_endpoint]) and
    [middleware/apikey_mapper.py] ([APIKeyMapperMiddleware]).

    Python values that come out of [json.load] / [json.loads] are kept as
    a [json] tree; a Python [dict] is an association list in insertion
    order (Python dicts iterate in insertion order, and the code relies on
    "first value in iteration"); exceptions are explicit results.  Token
    values are strings, the shape [tokens.json] has when the CLI writes
    it; API-key entries and configuration values are arbitrary decoded
    values.  Text is kept as the bytes of its UTF-8 encoding.  The
    network, the decoder the reader calls and what the console makes of
    text that comes from outside the program are parameters of the
    client's functions. *)

From Stdlib Require Import String Ascii List ZArith Bool Lia.
Import ListNotations.
Local Open Scope string_scope.
Local Open Scope list_scope.

(** ** Python values *)

(** Values produced by the JSON decoder.  An integer literal is a [JNum];
    a real literal is kept only up to its truth value ([JFloat true] for a
    non-zero float), the single observation the client code makes of a
    float. *)
#[warnings="-register-all"]
Inductive json : Type :=
| JNull
| JBool (b : bool)
| JNum (z : Z)
| JFloat (nonzero : bool)
| JStr (s : string)
| JArr (items : list json)
| JObj (fields : list (string * json)).

(** The exceptions the two source files can meet.  [RecursionError] and
    [ValueError] are the two errors of [json.loads] that are not a
    [json.JSONDecodeError]; [MarkupError] is rich's, raised by
    [console.print] on markup with a closing tag that closes nothing. *)
Inductive exn : Type :=
| TypeError
| KeyError
| IndexError
| AttributeError
| OSError
| JSONDecodeError
| RecursionError
| ValueError
| MarkupError
| ConnectError
| TimeoutError
| TransportError.

Inductive result (A : Type) : Type :=
| Ok (a : A)
| Raise (e : exn).
Arguments Ok {A} a.
Arguments Raise {A} e.

Definition rbind {A B} (r : result A) (k : A -> result B) : result B :=
  match r with
  | Ok a => k a
  | Raise e => Raise e
  end.

Declare Scope py_scope.
Delimit Scope py_scope with py.
Notation "'try!' x <- r ; k" := (rbind r (fun x => k))
  (at level 10, x name, r at level 100, k at level 200) : py_scope.
Local Open Scope py_scope.

Module Py.

(** *** dict: insertion-ordered association list *)

Definition dict (V : Type) : Type := list (string * V).

Fixpoint dict_get {V} (k : string) (d : dict V) : option V :=
  match d with
  | [] => None
  | (k', v) :: rest => if String.eqb k k' then Some v else dict_get k rest
  end.

(** [k in d] *)
Definition dict_mem {V} (k : string) (d : dict V) : bool :=
  match dict_get k d with Some _ => true | None => false end.

(** [d[k] = v]: an existing key keeps its position, a new key goes last. *)
Fixpoint dict_set {V} (k : string) (v : V) (d : dict V) : dict V :=
  match d with
  | [] => [(k, v)]
  | (k', v') :: rest =>
      if String.eqb k k' then (k', v) :: rest else (k', v') :: dict_set k v rest
  end.

(** [del d[k]] *)
Fixpoint dict_del {V} (k : string) (d : dict V) : dict V :=
  match d with
  | [] => []
  | (k', v') :: rest =>
      if String.eqb k k' then dict_del k rest else (k', v') :: dict_del k rest
  end.

(** [list(d.values())] *)
Definition dict_values {V} (d : dict V) : list V := map snd d.

(** [d.get(k, default)] *)
Definition dict_get_default {V} (k : string) (default : V) (d : dict V) : V :=
  match dict_get k d with Some v => v | None => default end.

(** *** truth value of a Python object ([if x:] / [not x]) *)
Definition truthy (v : json) : bool :=
  match v with
  | JNull => false
  | JBool b => b
  | JNum z => negb (Z.eqb z 0)
  | JFloat nz => nz
  | JStr s => negb (String.eqb s "")
  | JArr l => match l with [] => false | _ => true end
  | JObj m => match m with [] => false | _ => true end
  end.

(** [sub in s] on two strings *)
Definition contains (sub s : string) : bool :=
  match String.index 0 sub s with Some _ => true | None => false end.

(** [s.startswith(p)] *)
Definition startswith (p s : string) : bool := String.prefix p s.

(** [s[n:]] *)
Fixpoint drop (n : nat) (s : string) : string :=
  match n, s with
  | O, _ => s
  | S n', String _ r => drop n' r
  | S _, EmptyString => EmptyString
  end.

(** [s.rstrip('/')] *)
Fixpoint rstrip_slash (s : string) : string :=
  match s with
  | EmptyString => EmptyString
  | String c r =>
      let r' := rstrip_slash r in
      if Ascii.eqb c "/"%char && String.eqb r' "" then EmptyString else String c r'
  end.

(** [bytes.lower()]: ASCII letters only *)
Definition lower_ascii (c : ascii) : ascii :=
  let n := nat_of_ascii c in
  if (65 <=? n)%nat && (n <=? 90)%nat then ascii_of_nat (n + 32) else c.

Fixpoint lower (s : string) : string :=
  match s with
  | EmptyString => EmptyString
  | String c r => String (lower_ascii c) (lower r)
  end.

(** Structural equality of decoded values; on strings it is Python's [==]. *)
Fixpoint json_eqb (a b : json) {struct a} : bool :=
  match a, b with
  | JNull, JNull => true
  | JBool x, JBool y => Bool.eqb x y
  | JNum x, JNum y => Z.eqb x y
  | JFloat x, JFloat y => Bool.eqb x y
  | JStr x, JStr y => String.eqb x y
  | JArr x, JArr y =>
      (fix go (l1 l2 : list json) : bool :=
         match l1, l2 with
         | [], [] => true
         | u :: l1', v :: l2' => json_eqb u v && go l1' l2'
         | _, _ => false
         end) x y
  | JObj x, JObj y =>
      (fix go (l1 l2 : list (string * json)) : bool :=
         match l1, l2 with
         | [], [] => true
         | (k1, u) :: l1', (k2, v) :: l2' => String.eqb k1 k2 && json_eqb u v && go l1' l2'
         | _, _ => false
         end) x y
  | _, _ => false
  end.

(** [len(v)] *)
Definition len (v : json) : result nat :=
  match v with
  | JStr s => Ok (String.length s)
  | JArr l => Ok (List.length l)
  | JObj m => Ok (List.length m)
  | _ => Raise TypeError
  end.

(** [v[k]] with a string subscript *)
Definition getitem (v : json) (k : string) : result json :=
  match v with
  | JObj m => match dict_get k m with Some x => Ok x | None => Raise KeyError end
  | _ => Raise TypeError
  end.

(** [v[0]].  On a [str] Python yields its first character; the model
    keeps the first byte. *)
Definition getitem0 (v : json) : result json :=
  match v with
  | JArr (x :: _) => Ok x
  | JArr [] => Raise IndexError
  | JStr (String c _) => Ok (JStr (String c EmptyString))
  | JStr EmptyString => Raise IndexError
  | JObj _ => Raise KeyError
  | _ => Raise TypeError
  end.

(** [v.get(k, default)]: only a dict has [get]. *)
Definition get_method (v : json) (k : string) (default : json) : result json :=
  match v with
  | JObj m => Ok (dict_get_default k default m)
  | _ => Raise AttributeError
  end.

(** ["k" in v] for a string literal [k] *)
Definition str_in (k : string) (v : json) : result bool :=
  match v with
  | JObj m => Ok (dict_mem k m)
  | JArr l => Ok (existsb (json_eqb (JStr k)) l)
  | JStr s => Ok (contains k s)
  | _ => Raise TypeError
  end.

(** [v in d] for a decoded value [v] and a dict [d] keyed by strings: a
    hashable value that is not a string is never a member, and a list or
    a dict is unhashable. *)
Definition value_in_dict {V} (v : json) (d : dict V) : result bool :=
  match v with
  | JStr s => Ok (dict_mem s d)
  | JArr _ | JObj _ => Raise TypeError
  | _ => Ok false
  end.

(** [v in s] for a decoded value [v] and a string [s]: the left operand
    of [in] on a [str] must be a [str]. *)
Definition in_str (v : json) (s : string) : result bool :=
  match v with
  | JStr t => Ok (contains t s)
  | _ => Raise TypeError
  end.

(** [len(s)] of a [str] held as UTF-8: the bytes that start a code point. *)
Fixpoint code_points (s : string) : nat :=
  match s with
  | EmptyString => 0
  | String c r =>
      let n := nat_of_ascii c in
      if (128 <=? n)%nat && (n <? 192)%nat then code_points r else S (code_points r)
  end.

(** [bytes.decode("latin-1")]: each byte is the code point of its value.
    Text is kept as UTF-8 in this development, so a byte above 127 becomes
    the two bytes of its code point; ASCII is left as it is. *)
Fixpoint latin1_decode (s : string) : string :=
  match s with
  | EmptyString => EmptyString
  | String c r =>
      let n := nat_of_ascii c in
      if (n <? 128)%nat then String c (latin1_decode r)
      else String (ascii_of_nat (192 + n / 64))
                  (String (ascii_of_nat (128 + n mod 64)) (latin1_decode r))
  end.

End Py.
Import Py.

(** ** json.loads

    The decoder of Python's standard library, as the reader of
    [send_message] calls it on a line's payload.  [Ok v] is the decoded
    value and [Raise JSONDecodeError] the error of a text that is not
    JSON.  Two errors of the decoder are not a [JSONDecodeError]: it
    raises [RecursionError] when it meets an array or an object nested
    deeper than the interpreter allows, and [ValueError] when it converts
    an integer literal with more digits than the interpreter accepts; both
    are raised where the scan meets them, so a text can fail in either way
    before its first syntax error.  Text is a sequence of bytes (UTF-8); a
    [\uXXXX] escape is written back as UTF-8. *)

Module JsonDecoder.

Definition dquote : ascii := ascii_of_nat 34.
Definition backslash : ascii := ascii_of_nat 92.

Definition is_ws (c : ascii) : bool :=
  let n := nat_of_ascii c in
  (n =? 32)%nat || (n =? 9)%nat || (n =? 10)%nat || (n =? 13)%nat.

Fixpoint skip_ws (s : string) : string :=
  match s with
  | String c r => if is_ws c then skip_ws r else s
  | EmptyString => s
  end.

Definition digit_val (c : ascii) : option Z :=
  let n := nat_of_ascii c in
  if (48 <=? n)%nat && (n <=? 57)%nat then Some (Z.of_nat (n - 48)) else None.

Definition hex_val (c : ascii) : option Z :=
  let n := nat_of_ascii c in
  if (48 <=? n)%nat && (n <=? 57)%nat then Some (Z.of_nat (n - 48))
  else if (97 <=? n)%nat && (n <=? 102)%nat then Some (Z.of_nat (n - 87))
  else if (65 <=? n)%nat && (n <=? 70)%nat then Some (Z.of_nat (n - 55))
  else None.

Definition hex4 (a b c d : ascii) : option Z :=
  match hex_val a, hex_val b, hex_val c, hex_val d with
  | Some x, Some y, Some z, Some t => Some (((x * 16 + y) * 16 + z) * 16 + t)%Z
  | _, _, _, _ => None
  end.

(** *** String literals *)

(** A scanned piece of a string literal: a byte of the text, or the
    16-bit unit of a [\uXXXX] escape. *)
Inductive piece : Type :=
| Byte (c : ascii)
| Unit16 (u : Z).

Definition simple_escape (e : ascii) : option ascii :=
  let n := nat_of_ascii e in
  if (n =? 34)%nat then Some dquote
  else if (n =? 92)%nat then Some backslash
  else if (n =? 47)%nat then Some "/"%char
  else if (n =? 98)%nat then Some (ascii_of_nat 8)
  else if (n =? 102)%nat then Some (ascii_of_nat 12)
  else if (n =? 110)%nat then Some (ascii_of_nat 10)
  else if (n =? 114)%nat then Some (ascii_of_nat 13)
  else if (n =? 116)%nat then Some (ascii_of_nat 9)
  else None.

Definition cons_piece (p : piece) (r : option (list piece * string))
  : option (list piece * string) :=
  match r with
  | Some (ps, rest) => Some (p :: ps, rest)
  | None => None
  end.

(** The text after an opening quote, up to the closing one (strict mode:
    a control character inside a string is an error). *)
Fixpoint scan_string (s : string) : option (list piece * string) :=
  match s with
  | EmptyString => None
  | String c r =>
      if Ascii.eqb c dquote then Some ([], r)
      else if Ascii.eqb c backslash then
        match r with
        | EmptyString => None
        | String e r1 =>
            match simple_escape e with
            | Some b => cons_piece (Byte b) (scan_string r1)
            | None =>
                if Ascii.eqb e "u"%char then
                  match r1 with
                  | String h1 (String h2 (String h3 (String h4 r2))) =>
                      match hex4 h1 h2 h3 h4 with
                      | Some u => cons_piece (Unit16 u) (scan_string r2)
                      | None => None
                      end
                  | _ => None
                  end
                else None
            end
        end
      else if (nat_of_ascii c <? 32)%nat then None
      else cons_piece (Byte c) (scan_string r)
  end.

Definition byte_of (z : Z) : ascii := ascii_of_nat (Z.to_nat z).

(** UTF-8 of a code point *)
Definition utf8 (cp : Z) : string :=
  if (cp <? 128)%Z then String (byte_of cp) EmptyString
  else if (cp <? 2048)%Z then
    String (byte_of (192 + cp / 64)) (String (byte_of (128 + cp mod 64)) EmptyString)
  else if (cp <? 65536)%Z then
    String (byte_of (224 + cp / 4096))
      (String (byte_of (128 + (cp / 64) mod 64))
         (String (byte_of (128 + cp mod 64)) EmptyString))
  else
    String (byte_of (240 + cp / 262144))
      (String (byte_of (128 + (cp / 4096) mod 64))
         (String (byte_of (128 + (cp / 64) mod 64))
            (String (byte_of (128 + cp mod 64)) EmptyString))).

Definition is_high (u : Z) : bool := (55296 <=? u)%Z && (u <=? 56319)%Z.
Definition is_low (u : Z) : bool := (56320 <=? u)%Z && (u <=? 57343)%Z.

(** The text of a scanned literal; a high surrogate escape directly
    followed by a low surrogate escape is one code point. *)
Fixpoint assemble (ps : list piece) : string :=
  match ps with
  | [] => EmptyString
  | Byte c :: r => String c (assemble r)
  | Unit16 hi :: r =>
      match r with
      | Unit16 lo :: r' =>
          if is_high hi && is_low lo
          then (utf8 (65536 + (hi - 55296) * 1024 + (lo - 56320)) ++ assemble r')%string
          else (utf8 hi ++ assemble r)%string
      | _ => (utf8 hi ++ assemble r)%string
      end
  end.

Definition parse_string (s : string) : option (string * string) :=
  match scan_string s with
  | Some (ps, rest) => Some (assemble ps, rest)
  | None => None
  end.

(** *** Numbers *)

Fixpoint take_digits (s : string) : list Z * string :=
  match s with
  | String c r =>
      match digit_val c with
      | Some d => let (ds, rest) := take_digits r in (d :: ds, rest)
      | None => ([], s)
      end
  | EmptyString => ([], s)
  end.

Definition digits_value (ds : list Z) : Z :=
  fold_left (fun acc d => (acc * 10 + d)%Z) ds 0%Z.

(** The integer part: [0] or a non-zero digit followed by digits. *)
Definition int_part (s : string) : option (list Z * string) :=
  match s with
  | String c r =>
      match digit_val c with
      | Some 0%Z => Some ([0%Z], r)
      | Some d => let (ds, rest) := take_digits r in Some (d :: ds, rest)
      | None => None
      end
  | EmptyString => None
  end.

(** [.digits], if at least one digit follows the dot *)
Definition frac_part (s : string) : option (list Z * string) :=
  match s with
  | String c r =>
      if Ascii.eqb c "."%char then
        match take_digits r with
        | ([], _) => None
        | (ds, rest) => Some (ds, rest)
        end
      else None
  | EmptyString => None
  end.

(** [e], an optional sign and at least one digit: the exponent *)
Definition exp_part (s : string) : option (Z * string) :=
  match s with
  | String c r =>
      if Ascii.eqb c "e"%char || Ascii.eqb c "E"%char then
        let '(neg, r1) :=
          match r with
          | String sg r' =>
              if Ascii.eqb sg "-"%char then (true, r')
              else if Ascii.eqb sg "+"%char then (false, r')
              else (false, r)
          | EmptyString => (false, r)
          end in
        match take_digits r1 with
        | ([], _) => None
        | (ds, rest) => Some (if neg then (- digits_value ds)%Z else digits_value ds, rest)
        end
      else None
  | EmptyString => None
  end.

(** Whether the double nearest to [d * 10^e] is not zero: [d] is not
    zero and the value lies above half the least subnormal, [2^-1075]. *)
Definition float_nonzero (d e : Z) : bool :=
  negb (Z.eqb d 0) &&
  ((0 <=? e)%Z || (10 ^ (- e) <? d * 2 ^ 1075)%Z).

(** A number at the head of [s].  An integer literal of more than
    [max_digits] digits is refused by the conversion to [int]. *)
Definition parse_number (max_digits : nat) (s : string) : result (json * string) :=
  let '(neg, s1) :=
    match s with
    | String c r => if Ascii.eqb c "-"%char then (true, r) else (false, s)
    | EmptyString => (false, s)
    end in
  match int_part s1 with
  | None => Raise JSONDecodeError
  | Some (ids, s2) =>
      let '(fds, s3) :=
        match frac_part s2 with
        | Some (fds, s3) => (Some fds, s3)
        | None => (None, s2)
        end in
      let '(ex, s4) :=
        match exp_part s3 with
        | Some (ex, s4) => (Some ex, s4)
        | None => (None, s3)
        end in
      match fds, ex with
      | None, None =>
          if (max_digits <? List.length ids)%nat then Raise ValueError
          else Ok (JNum (if neg then (- digits_value ids)%Z else digits_value ids), s4)
      | _, _ =>
          let fd := match fds with Some l => l | None => [] end in
          let e := match ex with Some x => x | None => 0%Z end in
          Ok (JFloat (float_nonzero (digits_value (ids ++ fd))
                                    (e - Z.of_nat (List.length fd))), s4)
      end
  end.

(** *** Values *)

(** [s] without the prefix [p], when it starts with it *)
Fixpoint strip_prefix (p s : string) : option string :=
  match p, s with
  | EmptyString, _ => Some s
  | String a p', String b s' => if Ascii.eqb a b then strip_prefix p' s' else None
  | String _ _, EmptyString => None
  end.

Definition literal (s : string) : option (json * string) :=
  match strip_prefix "null" s with
  | Some r => Some (JNull, r)
  | None =>
  match strip_prefix "true" s with
  | Some r => Some (JBool true, r)
  | None =>
  match strip_prefix "false" s with
  | Some r => Some (JBool false, r)
  | None =>
  match strip_prefix "NaN" s with
  | Some r => Some (JFloat true, r)
  | None =>
  match strip_prefix "Infinity" s with
  | Some r => Some (JFloat true, r)
  | None =>
  match strip_prefix "-Infinity" s with
  | Some r => Some (JFloat true, r)
  | None => None
  end end end end end end.

Section Limits.

(** [sys.get_int_max_str_digits()] *)
Variable max_digits : nat.

(** One value at the head of [s] and the text after it.  [depth] is the
    nesting the interpreter still allows: each array and each object
    takes one level, before anything of it is read.  [fuel] bounds the
    number of nested calls of this definition; [json_loads] gives enough
    of it (lemma [json_loads_fuel]), so that its first case is not met. *)
Fixpoint parse_value (fuel : nat) (depth : nat) (s : string) {struct fuel}
  : result (json * string) :=
  match fuel with
  | O => Raise JSONDecodeError
  | S fuel' =>
      match s with
      | EmptyString => Raise JSONDecodeError
      | String c r =>
          if Ascii.eqb c dquote then
            match parse_string r with
            | Some (str, rest) => Ok (JStr str, rest)
            | None => Raise JSONDecodeError
            end
          else if Ascii.eqb c "{"%char then
            match depth with
            | O => Raise RecursionError
            | S depth' =>
                match skip_ws r with
                | String c1 r1 =>
                    if Ascii.eqb c1 "}"%char then Ok (JObj [], r1)
                    else parse_members fuel' depth' (skip_ws r) []
                | EmptyString => Raise JSONDecodeError
                end
            end
          else if Ascii.eqb c "["%char then
            match depth with
            | O => Raise RecursionError
            | S depth' =>
                match skip_ws r with
                | String c1 r1 =>
                    if Ascii.eqb c1 "]"%char then Ok (JArr [], r1)
                    else parse_elements fuel' depth' (skip_ws r) []
                | EmptyString => Raise JSONDecodeError
                end
            end
          else
            match literal s with
            | Some res => Ok res
            | None => parse_number max_digits s
            end
      end
  end

(** The elements of an array after [[] or a comma; [acc] holds the
    elements read so far, last first. *)
with parse_elements (fuel : nat) (depth : nat) (s : string) (acc : list json) {struct fuel}
  : result (json * string) :=
  match fuel with
  | O => Raise JSONDecodeError
  | S fuel' =>
      match parse_value fuel' depth s with
      | Raise e => Raise e
      | Ok (v, rest) =>
          match skip_ws rest with
          | String c r =>
              if Ascii.eqb c ","%char then parse_elements fuel' depth (skip_ws r) (v :: acc)
              else if Ascii.eqb c "]"%char then Ok (JArr (rev (v :: acc)), r)
              else Raise JSONDecodeError
          | EmptyString => Raise JSONDecodeError
          end
      end
  end

(** The members of an object after [{] or a comma: a later member with
    the key of an earlier one replaces its value. *)
with parse_members (fuel : nat) (depth : nat) (s : string) (acc : dict json) {struct fuel}
  : result (json * string) :=
  match fuel with
  | O => Raise JSONDecodeError
  | S fuel' =>
      match s with
      | String q r0 =>
          if Ascii.eqb q dquote then
            match parse_string r0 with
            | None => Raise JSONDecodeError
            | Some (key, r1) =>
                match skip_ws r1 with
                | String colon r2 =>
                    if Ascii.eqb colon ":"%char then
                      match parse_value fuel' depth (skip_ws r2) with
                      | Raise e => Raise e
                      | Ok (v, rest) =>
                          match skip_ws rest with
                          | String c r =>
                              if Ascii.eqb c ","%char
                              then parse_members fuel' depth (skip_ws r) (dict_set key v acc)
                              else if Ascii.eqb c "}"%char
                              then Ok (JObj (dict_set key v acc), r)
                              else Raise JSONDecodeError
                          | EmptyString => Raise JSONDecodeError
                          end
                      end
                    else Raise JSONDecodeError
                | EmptyString => Raise JSONDecodeError
                end
            end
          else Raise JSONDecodeError
      | EmptyString => Raise JSONDecodeError
      end
  end.

(** [json.loads(s)] in an interpreter that allows [depth] more levels of
    nesting at the call: one value, blanks around it, nothing else. *)
Definition json_loads_within (depth : nat) (s : string) : result json :=
  match parse_value (2 * String.length s + 2) depth (skip_ws s) with
  | Ok (v, rest) =>
      match skip_ws rest with
      | EmptyString => Ok v
      | String _ _ => Raise JSONDecodeError
      end
  | Raise e => Raise e
  end.

End Limits.

(** [json.loads] under the limits Python starts with, which [chat.py]
    does not change: 4300 digits, and the recursion limit of 1000.  (The
    frames in use at the call take from the second, by an amount that
    depends on the caller and on the interpreter; the statements about
    the reader hold for every decoder, and this one is what the examples
    run.) *)
Definition json_loads (s : string) : result json := json_loads_within 4300 1000 s.

(** Writing JSON text in this file: [qq] turns each apostrophe of its
    argument into a double quote. *)
Fixpoint qq (s : string) : string :=
  match s with
  | EmptyString => EmptyString
  | String c r => String (if Ascii.eqb c "'"%char then dquote else c) (qq r)
  end.

End JsonDecoder.
Import JsonDecoder.

(** ** chat.py *)

Module Cli.

(** *** The world the CLI runs in *)

(** Files under [CONFIG_DIR]. *)
Inductive file : Type :=
| CONFIG_FILE      (* config.json *)
| TOKENS_FILE      (* tokens.json *)
| APIKEYS_FILE     (* apikeys.json *)
| TOKEN_TXT.       (* DATA_DIR / "token.txt" *)

(** A URL written [f"{base}{path}"] in the source. *)
Inductive url : Type := Url (base : json) (path : string).

(** What the process does to the outside, in program order. *)
Inductive event : Type :=
| HttpGet (u : url)
| HttpPost (u : url)
| FileWrite (f : file)
| Emit (content : json).      (* console.print(content, end="") *)

(** In-memory [Config] object, the files behind it, and the trace.
    Writing one of the three JSON files replaces its content;
    [token_txt_writable] tells whether [open(token_file, 'a')] succeeds.
    What the console renders is kept as the value handed to it. *)
Record World : Type := mkWorld {
  config : dict json;
  tokens : dict string;
  apikeys : dict json;
  config_json : option (dict json);
  tokens_json : option (dict string);
  apikeys_json : option (dict json);
  token_txt : list string;
  token_txt_writable : bool;
  trace : list event
}.

Definition set_config (c : dict json) (w : World) : World :=
  mkWorld c (tokens w) (apikeys w) (config_json w) (tokens_json w) (apikeys_json w)
          (token_txt w) (token_txt_writable w) (trace w).
Definition set_tokens (t : dict string) (w : World) : World :=
  mkWorld (config w) t (apikeys w) (config_json w) (tokens_json w) (apikeys_json w)
          (token_txt w) (token_txt_writable w) (trace w).
Definition set_apikeys (a : dict json) (w : World) : World :=
  mkWorld (config w) (tokens w) a (config_json w) (tokens_json w) (apikeys_json w)
          (token_txt w) (token_txt_writable w) (trace w).
Definition set_config_json (c : option (dict json)) (w : World) : World :=
  mkWorld (config w) (tokens w) (apikeys w) c (tokens_json w) (apikeys_json w)
          (token_txt w) (token_txt_writable w) (trace w).
Definition set_tokens_json (t : option (dict string)) (w : World) : World :=
  mkWorld (config w) (tokens w) (apikeys w) (config_json w) t (apikeys_json w)
          (token_txt w) (token_txt_writable w) (trace w).
Definition set_apikeys_json (a : option (dict json)) (w : World) : World :=
  mkWorld (config w) (tokens w) (apikeys w) (config_json w) (tokens_json w) a
          (token_txt w) (token_txt_writable w) (trace w).
Definition set_token_txt (l : list string) (w : World) : World :=
  mkWorld (config w) (tokens w) (apikeys w) (config_json w) (tokens_json w) (apikeys_json w)
          l (token_txt_writable w) (trace w).
Definition log_event (e : event) (w : World) : World :=
  mkWorld (config w) (tokens w) (apikeys w) (config_json w) (tokens_json w) (apikeys_json w)
          (token_txt w) (token_txt_writable w) (trace w ++ [e]).

(** *** Commands: state passing with exceptions *)

Inductive outcome (A : Type) : Type :=
| Returns (a : A) (w : World)
| Raises (e : exn) (w : World).
Arguments Returns {A} a w.
Arguments Raises {A} e w.

Definition M (A : Type) : Type := World -> outcome A.

Definition ret {A} (a : A) : M A := fun w => Returns a w.
Definition raise {A} (e : exn) : M A := fun w => Raises e w.
Definition bind {A B} (m : M A) (k : A -> M B) : M B :=
  fun w => match m w with
           | Returns a w' => k a w'
           | Raises e w' => Raises e w'
           end.
Definition gets {A} (f : World -> A) : M A := fun w => Returns (f w) w.
Definition modify (f : World -> World) : M unit := fun w => Returns tt (f w).
Definition lift {A} (r : result A) : M A :=
  fun w => match r with Ok a => Returns a w | Raise e => Raises e w end.
(** [try: m except Exception: h] *)
Definition catch {A} (m : M A) (h : exn -> M A) : M A :=
  fun w => match m w with
           | Returns a w' => Returns a w'
           | Raises e w' => h e w'
           end.

Notation "x <- m ;; k" := (bind m (fun x => k))
  (at level 61, m at next level, right associativity).
Notation "m ;;; k" := (bind m (fun _ => k))
  (at level 61, right associativity).

(** *** Network replies *)

Inductive reply : Type :=
| ConnectionFailed                        (* requests.exceptions.ConnectionError *)
| TimedOut                                (* requests.exceptions.Timeout *)
| Failed                                  (* any other exception *)
| Response (status : Z) (text : string).

(** *** Config *)

(** [normalize_endpoint] on a string *)
Definition normalize_endpoint (endpoint : string) : string :=
  if negb (String.eqb endpoint "") then rstrip_slash endpoint else endpoint.

(** [normalize_endpoint] on a decoded value: a truthy value that is not
    a [str] has no [rstrip]. *)
Definition normalize_endpoint_value (endpoint : json) : result json :=
  if truthy endpoint then
    match endpoint with
    | JStr s => Ok (JStr (rstrip_slash s))
    | _ => Raise AttributeError
    end
  else Ok endpoint.

(** The dictionary [load_config] returns when there is no config file. *)
Definition default_config : dict json :=
  [ ("api_endpoint", JStr "http://localhost:5005");
    ("default_model", JStr "gpt-3.5-turbo");
    ("active_token", JNull) ].

(** [Config.load_config], from the file's decoded content *)
Definition load_config (file_content : option (dict json)) : result (dict json) :=
  match file_content with
  | Some config_data =>
      match dict_get "api_endpoint" config_data with
      | Some e =>
          try! e' <- normalize_endpoint_value e;
          Ok (dict_set "api_endpoint" e' config_data)
      | None => Ok config_data
      end
  | None => Ok default_config
  end.

Definition save_config : M unit :=
  modify (fun w => log_event (FileWrite CONFIG_FILE) (set_config_json (Some (config w)) w)).

Definition save_tokens : M unit :=
  modify (fun w => log_event (FileWrite TOKENS_FILE) (set_tokens_json (Some (tokens w)) w)).

Definition save_apikeys : M unit :=
  modify (fun w => log_event (FileWrite APIKEYS_FILE) (set_apikeys_json (Some (apikeys w)) w)).

(** [Config.get] *)
Definition get (key : string) (default : json) : M json :=
  gets (fun w => dict_get_default key default (config w)).

(** [Config.set] with a string value *)
Definition set (key : string) (value : string) : M unit :=
  let value :=
    if String.eqb key "api_endpoint" && negb (String.eqb value "")
    then normalize_endpoint value else value in
  modify (fun w => set_config (dict_set key (JStr value) (config w)) w) ;;;
  save_config.

(** [Config.remove_token] *)
Definition remove_token (name : string) : M bool :=
  present <- gets (fun w => dict_mem name (tokens w)) ;;
  if present then
    modify (fun w => set_tokens (dict_del name (tokens w)) w) ;;;
    save_tokens ;;;
    ret true
  else ret false.

(** [Config.use_token] *)
Definition use_token (name : string) : M bool :=
  present <- gets (fun w => dict_mem name (tokens w)) ;;
  if present then
    modify (fun w => set_config (dict_set "active_token" (JStr name) (config w)) w) ;;;
    save_config ;;;
    ret true
  else ret false.

(** [Config.get_active_token] *)
Definition get_active_token : M (option string) :=
  active <- gets (fun w => dict_get_default "active_token" JNull (config w)) ;;
  toks <- gets tokens ;;
  found <- (if truthy active then lift (value_in_dict active toks) else ret false) ;;
  if found then
    match active with
    | JStr a => ret (dict_get a toks)
    | _ => ret None
    end
  else
    match dict_values toks with
    | v :: _ => ret (Some v)
    | [] => ret None
    end.

(** [Config.remove_apikey] *)
Definition remove_apikey (name : string) : M bool :=
  present <- gets (fun w => dict_mem name (apikeys w)) ;;
  if present then
    modify (fun w => set_apikeys (dict_del name (apikeys w)) w) ;;;
    save_apikeys ;;;
    ret true
  else ret false.

Section Network.

(** The servers reached through [requests]: the reply to a GET and to
    a POST of a given URL. *)
Variable http_get : url -> reply.
Variable http_post : url -> reply.

(** [Config.sync_tokens_to_server] / [Config.sync_apikeys_to_server]:
    the two differ by the path and the payload only. *)
Definition sync_collection (path : string) : M bool :=
  endpoint <- get "api_endpoint" (JStr "http://localhost:5005") ;;
  if json_eqb endpoint (JStr "http://localhost:5005") then ret false
  else
    modify (log_event (HttpPost (Url endpoint path))) ;;;
    match http_post (Url endpoint path) with
    | Response status _ => ret (Z.eqb status 200)
    | _ => ret false
    end.

Definition sync_tokens_to_server : M bool := sync_collection "/admin/sync/tokens".
Definition sync_apikeys_to_server : M bool := sync_collection "/admin/sync/apikeys".

(** [with open(token_file, 'a') as f: f.write(f"{token}\n")] *)
Definition append_token_txt (token : string) : M unit :=
  fun w =>
    if token_txt_writable w
    then Returns tt (log_event (FileWrite TOKEN_TXT) (set_token_txt (token_txt w ++ [token]) w))
    else Raises OSError w.

(** [Config.add_token].  ([self.tokens] is a dict by its type, so the
    [isinstance] repair at the top of each method does nothing.) *)
Definition add_token (name token : string) (sync_to_server : bool) : M unit :=
  modify (fun w => set_tokens (dict_set name token (tokens w)) w) ;;;
  save_tokens ;;;
  append_token_txt token ;;;
  if sync_to_server then (_ <- sync_tokens_to_server ;; ret tt) else ret tt.

(** [Config.generate_apikey].  [random_part] is what the 48 draws of
    [secrets.choice] give and [now] is [datetime.now().isoformat()]. *)
Definition generate_apikey (random_part now : string) (name : string)
           (sync_to_server : bool) : M string :=
  let api_key := ("sk-" ++ random_part)%string in
  modify (fun w =>
    set_apikeys
      (dict_set name
         (JObj [ ("key", JStr api_key);
                 ("created", JStr now);
                 ("token_name", dict_get_default "active_token" (JStr "auto") (config w)) ])
         (apikeys w)) w) ;;;
  save_apikeys ;;;
  (if sync_to_server then (_ <- sync_apikeys_to_server ;; ret tt) else ret tt) ;;;
  ret api_key.

(** *** switch_endpoint

    The result, the requests and what is stored.  The line that names the
    candidate and the panels are what the function prints; they are not
    part of this definition. *)

(** [requests.get(url, timeout=5)] *)
Definition requests_get (u : url) : M (Z * string) :=
  modify (log_event (HttpGet u)) ;;;
  match http_get u with
  | Response status text => ret (status, text)
  | ConnectionFailed => raise ConnectError
  | TimedOut => raise TimeoutError
  | Failed => raise TransportError
  end.

Definition switch_endpoint (new_endpoint : string) : M bool :=
  if negb (startswith "http://" new_endpoint || startswith "https://" new_endpoint)
  then ret false
  else
    catch
      (response <- requests_get (Url (JStr new_endpoint) "/health") ;;
       if Z.eqb (fst response) 200 then
         set "api_endpoint" new_endpoint ;;;
         ret true
       else if Z.eqb (fst response) 403 then
         switched <-
           catch
             (fallback_response <- requests_get (Url (JStr new_endpoint) "/v1/models") ;;
              if Z.eqb (fst fallback_response) 403 && contains "RBAC" (snd fallback_response)
              then set "api_endpoint" new_endpoint ;;; ret true
              else ret false)
             (fun _ => ret false) ;;
         if switched then ret true else ret false
       else ret false)
      (fun _ => ret false).

(** *** The console *)

(** What is handed to [console.print] together with text the program did
    not write itself: the server's, the user's, or the message of an
    exception.  Everything else the program prints is its own markup. *)
Inductive printed : Type :=
| Increment (content : string)              (* console.print(content, end="") *)
| Answer (content : json)                   (* the line of a complete answer, with {content} *)
| ServerError (status : Z) (text : string)  (* the panel of a status other than 200, with text[:200] *)
| CannotConnect (endpoint : json)           (* the panel of httpx.ConnectError, with {endpoint} *)
| Unexpected (e : exn)                      (* the panel of another exception, with {str(e)} of the one at hand *)
| Verifying (model : string)                (* Verifying model '{current_model}' *)
| ModelChanged (model : string) (verified : bool)   (* the panel after the verification *)
| ReplaceToken (name : string)              (* Token '{name}' already exists. Replace it? *)
| TokenAdded (name token : string)          (* the panel with {name} and the token preview *)
| NowUsing (name : string).                 (* Now using token '{name}' *)

(** The console: whether rich renders the markup it is handed.  When it
    does not, [console.print] raises [MarkupError] and shows nothing. *)
Variable renders : printed -> bool.

Definition console_print (p : printed) : M unit :=
  fun w => if renders p then Returns tt w else Raises MarkupError w.

(** *** send_message *)

Record chat_message : Type := mkMessage { role : string; content : json }.

(** The body and headers of a chat-completion request. *)
Record chat_request : Type := mkRequest {
  req_endpoint : json;
  req_auth : string;
  req_model : json;
  req_messages : list chat_message;
  req_stream : bool
}.

(** What [client.stream(...)] gives: the status and the lines
    [aiter_lines] yields; [cut] tells that the transport fails after
    the last of them instead of ending the stream.  For a status other
    than 200 the lines are the text of the body, which the code reads
    whole and decodes; [cut] then stands for a body that cannot be read
    or decoded. *)
Inductive stream_reply : Type :=
| StreamConnectError
| StreamFailed
| StreamResponse (status : Z) (lines : list string) (cut : bool).

Variable chat_post : chat_request -> reply.
Variable chat_stream : chat_request -> stream_reply.

(** The JSON decoder the reader calls ([json.loads]). *)
Variable loads : string -> result json.

Definition extract_actual_model (response_model requested_model : json) : json :=
  if negb (truthy response_model) then requested_model
  else if json_eqb response_model requested_model then response_model
  else response_model.

Record reader_state : Type := mkReader {
  full_response : string;
  actual_model : json
}.

(** How the body of the [async for] leaves a line. *)
Inductive control : Type :=
| Next (st : reader_state)
| Stop.

(** The part of the loop body under [try:] after the payload is decoded. *)
Definition process_json (model : json) (json_chunk : json) (st : reader_state)
  : M reader_state :=
  has_choices <- lift (str_in "choices" json_chunk) ;;
  nonempty <-
    (if has_choices : bool then
       choices <- lift (getitem json_chunk "choices") ;;
       n <- lift (len choices) ;;
       ret (0 <? n)%nat
     else ret false) ;;
  if nonempty : bool then
    has_model <- lift (str_in "model" json_chunk) ;;
    actual <-
      (if has_model : bool then
         response_model <- lift (getitem json_chunk "model") ;;
         ret (extract_actual_model response_model model)
       else ret (actual_model st)) ;;
    choices <- lift (getitem json_chunk "choices") ;;
    first <- lift (getitem0 choices) ;;
    delta <- lift (get_method first "delta" (JObj [])) ;;
    content <- lift (get_method delta "content" (JStr "")) ;;
    if truthy content then
      match content with
      | JStr text =>
          console_print (Increment text) ;;;
          modify (log_event (Emit content)) ;;;
          ret (mkReader (full_response st ++ text)%string actual)
      | _ =>
          (* an object is shown as it is, without markup; [+=] then fails *)
          modify (log_event (Emit content)) ;;;
          raise TypeError
      end
    else ret (mkReader (full_response st) actual)
  else ret st.

(** [try: m except json.JSONDecodeError: h] *)
Definition except_decode_error {A} (m : M A) (h : M A) : M A :=
  fun w => match m w with
           | Raises JSONDecodeError w' => h w'
           | other => other
           end.

(** The body of [async for chunk in response.aiter_lines()] *)
Definition process_chunk (model : json) (chunk : string) (st : reader_state)
  : M control :=
  if startswith "data: " chunk then
    let chunk_data := drop 6 chunk in
    if String.eqb chunk_data "[DONE]" then ret Stop
    else
      except_decode_error
        (json_chunk <- lift (loads chunk_data) ;;
         st' <- process_json model json_chunk st ;;
         ret (Next st'))
        (ret (Next st))
  else ret (Next st).

Fixpoint read_lines (model : json) (lines : list string) (cut : bool)
         (st : reader_state) : M reader_state :=
  match lines with
  | [] => if cut then raise TransportError else ret st
  | chunk :: rest =>
      c <- process_chunk model chunk st ;;
      match c with
      | Next st' => read_lines model rest cut st'
      | Stop => ret st
      end
  end.

(** [result["choices"][0]["message"]["content"]] *)
Definition first_message_content (body : json) : result json :=
  try! choices <- getitem body "choices";
  try! first <- getitem0 choices;
  try! msg <- getitem first "message";
  getitem msg "content".

Definition newline : string := String (ascii_of_nat 10) EmptyString.

(** [send_message].  An exception raised inside one of the two handlers
    leaves the function. *)
Definition send_message (message : string) (model : json)
           (conversation_history : list chat_message) (stream : bool)
  : M (option json * json) :=
  endpoint <- get "api_endpoint" (JStr "http://localhost:5005") ;;
  auth <- get_active_token ;;
  match auth with
  | None => ret (None, model)
  | Some auth =>
      if String.eqb auth "" then ret (None, model)
      else
        let data := mkRequest endpoint auth model conversation_history stream in
        catch
          (modify (log_event (HttpPost (Url endpoint "/v1/chat/completions"))) ;;;
           if stream then
             match chat_stream data with
             | StreamConnectError => raise ConnectError
             | StreamFailed => raise TransportError
             | StreamResponse status lines cut =>
                 if negb (Z.eqb status 200) then
                   (if cut then raise TransportError else ret tt) ;;;
                   console_print (ServerError status (String.concat newline lines)) ;;;
                   ret (None, model)
                 else
                   st <- read_lines model lines cut (mkReader "" model) ;;
                   ret (Some (JStr (full_response st)), actual_model st)
             end
           else
             match chat_post data with
             | ConnectionFailed => raise ConnectError
             | TimedOut => raise TimeoutError
             | Failed => raise TransportError
             | Response status text =>
                 if negb (Z.eqb status 200) then
                   console_print (ServerError status text) ;;;
                   ret (None, model)
                 else
                   body <- lift (loads text) ;;
                   content <- lift (first_message_content body) ;;
                   response_model <- lift (get_method body "model" (JStr "")) ;;
                   console_print (Answer content) ;;;
                   ret (Some content, extract_actual_model response_model model)
             end)
          (fun e =>
             match e with
             | ConnectError =>
                 console_print (CannotConnect endpoint) ;;;
                 ret (None, model)
             | _ =>
                 console_print (Unexpected e) ;;;
                 ret (None, model)
             end)
  end.

(** *** The chat turn of main *)

Record Session : Type := mkSession {
  current_model : json;
  current_stream : bool;
  conversation_history : list chat_message
}.

(** The end of the loop body of [main], reached by an input that is
    not a command: the user entry is appended, the message is sent,
    and a truthy response is appended.  An exception leaving
    [send_message] is caught by the loop's [except Exception]; the
    list already holds the user entry then.  (The line that announces a
    changed model is printed after the two assignments, so what the
    console makes of it does not change the session.) *)
Definition chat_turn (user_input : string) (s : Session) : M Session :=
  let history := conversation_history s ++ [mkMessage "user" (JStr user_input)] in
  catch
    (sent <- send_message user_input (current_model s) history (current_stream s) ;;
     let '(response, actual_model) := sent in
     match response with
     | Some text =>
         if truthy text then
           let history := history ++ [mkMessage "assistant" text] in
           if negb (json_eqb actual_model (current_model s))
           then ret (mkSession actual_model (current_stream s) history)
           else ret (mkSession (current_model s) (current_stream s) history)
         else ret (mkSession (current_model s) (current_stream s) history)
     | None => ret (mkSession (current_model s) (current_stream s) history)
     end)
    (fun _ => ret (mkSession (current_model s) (current_stream s) history)).

(** *** verify_model *)

(** The requested models [verify_model] has a mapping for, and the names
    it accepts in the response to any of them. *)
Definition mapped_requests : list string :=
  ["gpt-4"; "gpt-4o"; "gpt-4-turbo"; "gpt-5"; "gpt-3.5-turbo"; "o1-preview"; "o1-mini";
   "claude-3-opus"; "claude-3-sonnet"; "claude-3-haiku"].

Definition mapped_names : list string :=
  ["gpt-4-0613"; "gpt-4-0125"; "gpt-4-turbo"; "gpt-4o"; "gpt-5";
   "gpt-3.5-turbo-0125"; "gpt-3.5-turbo-1106"; "o1-preview"; "o1-mini"; "claude-3"].

(** [any(mapped in response_model for mapped in names if model in requests)] *)
Fixpoint any_mapped (model : string) (response_model : json) (names : list string)
  : result bool :=
  match names with
  | [] => Ok false
  | mapped :: rest =>
      if existsb (String.eqb model) mapped_requests then
        try! hit <- str_in mapped response_model;
        if hit : bool then Ok true else any_mapped model response_model rest
      else any_mapped model response_model rest
  end.

(** The condition under [if response_model:] *)
Definition model_matches (model : string) (response_model : json) : result bool :=
  try! inside <- str_in model response_model;
  if inside : bool then Ok true
  else
    try! around <- in_str response_model model;
    if around : bool then Ok true
    else any_mapped model response_model mapped_names.

(** [verify_model]: it prints nothing. *)
Definition verify_model (model : string) : M bool :=
  endpoint <- get "api_endpoint" (JStr "http://localhost:5005") ;;
  auth <- get_active_token ;;
  match auth with
  | None => ret false
  | Some auth =>
      if String.eqb auth "" then ret false
      else
        let data := mkRequest endpoint auth (JStr model)
                              [mkMessage "user" (JStr "Hi")] false in
        catch
          (modify (log_event (HttpPost (Url endpoint "/v1/chat/completions"))) ;;;
           match chat_post data with
           | ConnectionFailed => raise ConnectError
           | TimedOut => raise TimeoutError
           | Failed => raise TransportError
           | Response status text =>
               if Z.eqb status 200 then
                 body <- lift (loads text) ;;
                 response_model <- lift (get_method body "model" (JStr "")) ;;
                 if truthy response_model then
                   matches <- lift (model_matches model response_model) ;;
                   if matches : bool then ret true else ret false
                 else ret false
               else ret false
           end)
          (fun _ => ret false)
  end.

(** *** Commands of main *)

(** The [/use] branch: the model is assigned before anything is printed
    or verified, and an exception that leaves the branch is caught by the
    loop. *)
Definition use_command (arg : option string) (s : Session) : M Session :=
  match arg with
  | Some a =>
      if negb (String.eqb a "") then
        let s' := mkSession (JStr a) (current_stream s) (conversation_history s) in
        catch
          (console_print (Verifying a) ;;;
           is_verified <- verify_model a ;;
           console_print (ModelChanged a is_verified) ;;;
           ret s')
          (fun _ => ret s')
      else ret s
  | None => ret s
  end.

(** [with open(token_file, 'w') as f: pass] under [try ... except: pass] *)
Definition truncate_token_txt : M unit :=
  fun w =>
    if token_txt_writable w
    then Returns tt (log_event (FileWrite TOKEN_TXT) (set_token_txt [] w))
    else Returns tt w.

(** The [/reset] branch; [confirmed] is the answer to [Confirm.ask]. *)
Definition reset_command (confirmed : bool) (s : Session) : M Session :=
  if confirmed then
    modify (fun w => set_tokens [] w) ;;;
    modify (fun w => set_apikeys [] w) ;;;
    modify (fun w => set_config (dict_set "active_token" JNull (config w)) w) ;;;
    save_tokens ;;;
    save_apikeys ;;;
    save_config ;;;
    truncate_token_txt ;;;
    ret (mkSession (JStr "gpt-3.5-turbo") true [])
  else ret s.

(** *** Interactive helpers *)

(** The answers given to the prompts of [add_token_interactive], in the
    order they are asked; an answer whose prompt is not reached is not
    looked at. *)
Record token_answers : Type := mkTokenAnswers {
  answer_name : string;
  answer_replace : bool;
  answer_token : string;
  answer_use : bool
}.

(** [add_token_interactive].  The question about an existing name, the
    panel of a stored token and the line of a selected one hold the name
    or the token in markup. *)
Definition add_token_interactive (a : token_answers) : M unit :=
  let name := answer_name a in
  if String.eqb name "" then ret tt
  else
    present <- gets (fun w => dict_mem name (tokens w)) ;;
    replace <-
      (if present : bool then
         console_print (ReplaceToken name) ;;;
         ret (answer_replace a)
       else ret true) ;;
    if negb replace then ret tt
    else
      let token := answer_token a in
      if String.eqb token "" || (code_points token <? 20)%nat then ret tt
      else
        add_token name token true ;;;
        console_print (TokenAdded name token) ;;;
        if answer_use a then
          _ <- use_token name ;;
          console_print (NowUsing name)
        else ret tt.

End Network.

End Cli.

(** ** middleware/apikey_mapper.py *)

Module Middleware.

(** The two files the middleware reads. *)
Inductive path : Type :=
| apikeys_path      (* auth/apikeys.json *)
| tokens_path.      (* auth/tokens.json *)

(** A file is missing, or there but failing to open or to decode, or it
    holds a decoded value. *)
Inductive file_state (A : Type) : Type :=
| Absent
| Unreadable
| Holds (content : A).
Arguments Absent {A}.
Arguments Unreadable {A}.
Arguments Holds {A} content.

(** [auth/apikeys.json] holds any JSON value; [auth/tokens.json] is taken
    at the shape the CLI writes, names to token strings. *)
Record Files : Type := mkFiles {
  apikeys_file : file_state json;
  tokens_file : file_state (dict string)
}.

(** What the middleware does to the file system. *)
Inductive access : Type :=
| Probe (p : path)
| Open (p : path).

(** [if file.exists(): with open(file) as f: value = json.load(f)] *)
Definition load_file {A} (p : path) (f : file_state A) (default : A)
  : result A * list access :=
  match f with
  | Absent => (Ok default, [Probe p])
  | Unreadable => (Raise OSError, [Probe p; Open p])
  | Holds c => (Ok c, [Probe p; Open p])
  end.

(** The body of the [try] of [load_mappings] *)
Definition load_mappings_try (fs : Files) : result (json * dict string) * list access :=
  let '(r1, t1) := load_file apikeys_path (apikeys_file fs) (JObj []) in
  match r1 with
  | Raise e => (Raise e, t1)
  | Ok apikeys =>
      let '(r2, t2) := load_file tokens_path (tokens_file fs) [] in
      match r2 with
      | Raise e => (Raise e, t1 ++ t2)
      | Ok tokens => (Ok (apikeys, tokens), t1 ++ t2)
      end
  end.

(** [APIKeyMapperMiddleware.load_mappings] *)
Definition load_mappings (fs : Files) : (json * dict string) * list access :=
  match load_mappings_try fs with
  | (Ok r, t) => (r, t)
  | (Raise _, t) => ((JObj [], []), t)
  end.

(** [apikeys.items()] *)
Definition items (v : json) : result (dict json) :=
  match v with
  | JObj m => Ok m
  | _ => Raise AttributeError
  end.

(** The [for name, data in apikeys.items()] loop and the [return] after it *)
Fixpoint search (api_key : string) (tokens : dict string) (entries : dict json)
  : result string :=
  match entries with
  | [] => Ok api_key
  | (name, data) :: rest =>
      match data with
      | JObj fields =>
          if json_eqb (dict_get_default "key" JNull fields) (JStr api_key) then
            let token_name := dict_get_default "token_name" (JStr "auto") fields in
            try! known <- value_in_dict token_name tokens;
            if known : bool then
              match token_name with
              | JStr t =>
                  match dict_get t tokens with
                  | Some v => Ok v
                  | None => Raise KeyError
                  end
              | _ => Raise KeyError
              end
            else if json_eqb token_name (JStr "auto")
                    && match tokens with [] => false | _ => true end then
              match dict_values tokens with
              | v :: _ => Ok v
              | [] => Raise IndexError
              end
            else search api_key tokens rest
          else search api_key tokens rest
      | _ => search api_key tokens rest
      end
  end.

(** The body of the [try] of [map_apikey_to_token], after the files are
    loaded: the two [len] of the log line, then the loop. *)
Definition map_try (api_key : string) (apikeys : json) (tokens : dict string)
  : result string :=
  try! _ <- len apikeys;
  try! entries <- items apikeys;
  search api_key tokens entries.

(** [APIKeyMapperMiddleware.map_apikey_to_token] *)
Definition map_apikey_to_token (fs : Files) (api_key : string) : string * list access :=
  if String.eqb api_key "" || negb (startswith "sk-" api_key) then (api_key, [])
  else
    let '((apikeys, tokens), t) := load_mappings fs in
    match map_try api_key apikeys tokens with
    | Ok token => (token, t)
    | Raise _ => (api_key, t)
    end.

(** [request.scope["headers"]]: raw names and values, as bytes. *)
Definition headers : Type := list (string * string).

(** The raw value of a header: the framework compares the raw names
    (lower case under ASGI) with the lower-cased [name] and gives the
    first match. *)
Fixpoint headers_get (name : string) (default : string) (hs : headers) : string :=
  match hs with
  | [] => default
  | (k, v) :: rest => if String.eqb k (lower name) then v else headers_get name default rest
  end.

(** [request.headers.get(name, default)]: the raw value decoded as
    latin-1.  The keys and tokens of the two files are text read as
    UTF-8, so a header with a byte above 127 is compared as the text
    latin-1 makes of it. *)
Definition request_header (name : string) (default : string) (hs : headers) : string :=
  latin1_decode (headers_get name default hs).

(** The [new_headers] loop; [f"Bearer {mapped_token}".encode()] is the
    UTF-8 of the text, which is how text is kept here. *)
Definition replace_authorization (mapped_token : string) (hs : headers) : headers :=
  map (fun h : string * string =>
         let (name, value) := h in
         if String.eqb (lower name) "authorization"
         then (name, ("Bearer " ++ mapped_token)%string)
         else (name, value)) hs.

Section Dispatch.

(** The rest of the application, [call_next]. *)
Variable Reply : Type.
Variable call_next : headers -> Reply.

Record dispatched : Type := mkDispatched {
  forwarded : headers;          (* the headers of the scope handed on *)
  response : Reply;
  accesses : list access
}.

(** [APIKeyMapperMiddleware.dispatch] *)
Definition dispatch (fs : Files) (hs : headers) : dispatched :=
  let auth_header := request_header "authorization" "" hs in
  let '(hs', t) :=
    if startswith "Bearer " auth_header then
      let original_token := drop 7 auth_header in
      if startswith "sk-" original_token then
        let '(mapped_token, t) := map_apikey_to_token fs original_token in
        if negb (String.eqb mapped_token original_token)
        then (replace_authorization mapped_token hs, t)
        else (hs, t)
      else (hs, [])
    else (hs, []) in
  mkDispatched hs' (call_next hs') t.

End Dispatch.

End Middleware.

(** * Vocabulary of the properties

    The predicates the statements below are written with, and the sample
    stores, files, requests and streams the closed lemmas run on. *)

Import Cli.
Import Middleware.

(** ** Credential store and endpoint *)

(** The candidate carries one of the two accepted schemes. *)
Definition scheme_ok (new_endpoint : string) : bool :=
  startswith "http://" new_endpoint || startswith "https://" new_endpoint.

(** The probe outcome that confirms a gateway: the health path answers
    200, or it answers 403 and the model-listing path answers 403 with
    [RBAC] in its text. *)
Definition confirmed_reachable (http_get : url -> reply) (new_endpoint : string) : bool :=
  match http_get (Url (JStr new_endpoint) "/health") with
  | Response status _ =>
      if Z.eqb status 200 then true
      else if Z.eqb status 403 then
        match http_get (Url (JStr new_endpoint) "/v1/models") with
        | Response status' text' => Z.eqb status' 403 && contains "RBAC" text'
        | _ => false
        end
      else false
  | _ => false
  end.

Definition is_write (e : event) : bool :=
  match e with FileWrite _ => true | _ => false end.


Definition two_tokens : World :=
  mkWorld [("api_endpoint", JStr "http://localhost:5005"); ("active_token", JStr "work")]
          [("work", "eyJ-work-token"); ("home", "eyJ-home-token")] []
          None None None [] true [].

(** A store with one token, selected. *)
Definition one_token : World :=
  mkWorld [("api_endpoint", JStr "https://gateway.example"); ("active_token", JStr "work")]
          [("work", "eyJ-work-token")] [] None None None [] true [].

(** The configuration of a first run: no config file, one token added and
    not selected, so [active_token] is present and holds [None]. *)
Definition first_run : World :=
  mkWorld default_config [("work", "eyJ-work-token")] []
          None (Some [("work", "eyJ-work-token")]) None ["eyJ-work-token"] true [].

(** A store whose token log cannot be opened for appending. *)
Definition log_unwritable : World :=
  mkWorld default_config [] [] None None None [] false [].

(** ** Middleware *)

(** An entry carries the API key [k]. *)
Definition carries (k : string) (fields : dict json) : Prop :=
  dict_get "key" fields = Some (JStr k).

(** The entries of the API-key file, when it holds a JSON object. *)
Definition file_entries (fs : Files) : dict json :=
  match apikeys_file fs with
  | Holds (JObj entries) => entries
  | _ => []
  end.

(** The API-key file cannot be read; and it holds a list, which has no
    [items]. *)
Definition unreadable_files : Files := mkFiles Unreadable (Holds [("work", "eyJ-work-token")]).

Definition list_files : Files :=
  mkFiles (Holds (JArr [JStr "sk-q7Rk"])) (Holds [("work", "eyJ-work-token")]).

(** Two API keys named [laptop] and [phone] that carry the same secret and
    point at different tokens. *)
Definition shared_secret : Files :=
  mkFiles
    (Holds (JObj [("laptop", JObj [("key", JStr "sk-q7Rk"); ("token_name", JStr "work")]);
                  ("phone", JObj [("key", JStr "sk-q7Rk"); ("token_name", JStr "home")])]))
    (Holds [("work", "eyJ-work-token"); ("home", "eyJ-home-token")]).




(** ** Reader and chat turn *)

(** The model member a decoded payload declares: the payload is an
    object with a non-empty [choices] and a [model] member. *)
Definition declaration (j : json) : option json :=
  match j with
  | JObj f =>
      match dict_get "choices" f with
      | Some c =>
          match len c with
          | Ok n => if (0 <? n)%nat then dict_get "model" f else None
          | Raise _ => None
          end
      | None => None
      end
  | _ => None
  end.

(** The model a decoded payload makes the reader adopt. *)
Definition declared (model : json) (j : json) : option json :=
  match declaration j with
  | Some m => Some (extract_actual_model m model)
  | None => None
  end.

(** The line declares a model: it is a [data:] line other than the
    sentinel and its payload decodes to a value that declares one.  A
    line with a [model] member and no [choices], or an empty one, does
    not. *)
Definition declares (loads : string -> result json) (chunk : string) : bool :=
  if startswith "data: " chunk then
    if String.eqb (drop 6 chunk) "[DONE]" then false
    else
      match loads (drop 6 chunk) with
      | Ok j => match declaration j with Some _ => true | None => false end
      | Raise _ => false
      end
  else false.

(** A text without [[]: rich takes it as it stands. *)
Definition plain (s : string) : bool := negb (contains "[" s).

(** The console the examples run on.  It renders what it is handed when
    the text from outside is plain, as rich does, and for the sake of a
    definite answer refuses every other text; the messages of Python's
    own exceptions are plain, and the message of a [MarkupError] holds
    the tag that was refused. *)
Definition strict_console (p : printed) : bool :=
  match p with
  | Increment text => plain text
  | Answer (JStr text) => plain text
  | Answer (JArr _) | Answer (JObj _) => false
  | Answer _ => true
  | ServerError _ text => plain text
  | CannotConnect (JStr endpoint) => plain endpoint
  | CannotConnect _ => false
  | Unexpected MarkupError => false
  | Unexpected _ => true
  | Verifying model => plain model
  | ModelChanged model _ => plain model
  | ReplaceToken name => plain name
  | TokenAdded name token => plain name && plain token
  | NowUsing name => plain name
  end.

(** The streaming request fails: no connection, another client error, or
    a status other than 200. *)
Definition stream_fails (r : stream_reply) : bool :=
  match r with
  | StreamResponse status _ _ => negb (Z.eqb status 200)
  | _ => true
  end.

(** The plain request fails in the same way. *)
Definition post_fails (r : reply) : bool :=
  match r with
  | Response status _ => negb (Z.eqb status 200)
  | _ => true
  end.

(** The request fails at the servers [chat_post] and [chat_stream]. *)
Definition request_fails (chat_post : chat_request -> reply)
           (chat_stream : chat_request -> stream_reply) (req : chat_request) : bool :=
  if req_stream req then stream_fails (chat_stream req) else post_fails (chat_post req).

(** The three lines of the example. *)
Definition hi_line : string := qq "data: {'choices':[{'delta':{'content':'Hi'}}]}".

Definition there_line : string := qq "data: {'choices':[{'delta':{'content':' there'}}]}".

Definition done_line : string := "data: [DONE]".



(** Lines that name a model: two with a delta, one without [choices], and
    one whose model is the empty string. *)
Definition mini_line : string :=
  qq "data: {'model':'gpt-4o-mini','choices':[{'delta':{'content':'Hi'}}]}".

Definition full_line : string :=
  qq "data: {'model':'gpt-4o','choices':[{'delta':{'content':' there'}}]}".

Definition bare_model_line : string := qq "data: {'model':'gpt-4o'}".

Definition bare_turbo_line : string := qq "data: {'model':'gpt-4-turbo'}".

Definition no_choice_line : string := qq "data: {'model':'gpt-4-turbo','choices':[]}".

Definition empty_model_line : string :=
  qq "data: {'model':'','choices':[{'delta':{'content':'Hi'}}]}".

(** A session with one completed exchange. *)
Definition greeted : Session :=
  mkSession (JStr "gpt-4") true
            [mkMessage "user" (JStr "hello"); mkMessage "assistant" (JStr "Hi there")].

(** ** Vocabulary of the further properties *)

(** A run of [k] slashes. *)
Fixpoint slashes (k : nat) : string :=
  match k with
  | O => EmptyString
  | S k' => String "/"%char (slashes k')
  end.

Fixpoint ends_with_slash (s : string) : bool :=
  match s with
  | EmptyString => false
  | String c r =>
      match r with
      | EmptyString => Ascii.eqb c "/"%char
      | String _ _ => ends_with_slash r
      end
  end.

(** The world [w] with the events [ev] added to its trace and nothing
    else changed. *)
Definition log_events (ev : list event) (w : World) : World :=
  mkWorld (config w) (tokens w) (apikeys w) (config_json w) (tokens_json w) (apikeys_json w)
          (token_txt w) (token_txt_writable w) (trace w ++ ev).

(** The value of the active token reference, [config.get('active_token')]. *)
Definition active_value (w : World) : json :=
  dict_get_default "active_token" JNull (config w).

(** Python can hash the value: it is not a list or a dict. *)
Definition hashable (v : json) : bool :=
  match v with
  | JArr _ | JObj _ => false
  | _ => true
  end.

(** The endpoint the store is configured with,
    [config.get("api_endpoint", "http://localhost:5005")]. *)
Definition endpoint_of (w : World) : json :=
  dict_get_default "api_endpoint" (JStr "http://localhost:5005") (config w).

(** The request a sync to [path] issues: none on the default endpoint. *)
Definition sync_request (path : string) (w : World) : list event :=
  if json_eqb (endpoint_of w) (JStr "http://localhost:5005") then []
  else [HttpPost (Url (endpoint_of w) path)].

(** The test [verify_model] applies to a response model that is a
    string: the requested model occurs in it, or it occurs in the
    requested model, or the requested model is one of the mapped requests
    and one of the mapped names occurs in it. *)
Definition accepts (model response_model : string) : bool :=
  contains model response_model
  || contains response_model model
  || (existsb (String.eqb model) mapped_requests
      && existsb (fun mapped => contains mapped response_model) mapped_names).

(** The request [verify_model] sends for [model] with the token [auth]. *)
Definition probe_request (w : World) (auth model : string) : chat_request :=
  mkRequest (endpoint_of w) auth (JStr model) [mkMessage "user" (JStr "Hi")] false.

(** The event of a chat-completion request. *)
Definition completion_post (w : World) : event :=
  HttpPost (Url (endpoint_of w) "/v1/chat/completions").

(** A store whose active token reference holds a list. *)
Definition list_reference : World :=
  mkWorld [("active_token", JArr [JStr "work"])] [("work", "eyJ-work-token")] []
          None None None [] true [].

Definition is_emit (e : event) : bool :=
  match e with Emit _ => true | _ => false end.

(** The text the console was handed, in order. *)
Fixpoint emitted_text (ev : list event) : string :=
  match ev with
  | [] => EmptyString
  | Emit (JStr text) :: rest => (text ++ emitted_text rest)%string
  | _ :: rest => emitted_text rest
  end.

(** A line the reader has nothing to do with: it does not start with
    [data: ], or its payload decodes to an object that has no [choices]
    member or an empty one. *)
Definition inert (loads : string -> result json) (chunk : string) : bool :=
  if startswith "data: " chunk then
    if String.eqb (drop 6 chunk) "[DONE]" then false
    else
      match loads (drop 6 chunk) with
      | Ok (JObj f) =>
          match dict_get "choices" f with
          | None => true
          | Some c => match len c with Ok O => true | _ => false end
          end
      | _ => false
      end
  else true.

(** The world a call leaves, whether it returns or raises. *)
Definition world_after {A : Type} (o : outcome A) : World :=
  match o with
  | Returns _ w => w
  | Raises _ w => w
  end.

(** The files and collections of the store, the trace left aside. *)
Definition same_store (w w' : World) : Prop :=
  config w' = config w /\ tokens w' = tokens w /\ apikeys w' = apikeys w /\
  config_json w' = config_json w /\ tokens_json w' = tokens_json w /\
  apikeys_json w' = apikeys_json w /\ token_txt w' = token_txt w /\
  token_txt_writable w' = token_txt_writable w.


(** A keep-alive comment line, and a payload without [choices]. *)
Definition ping_line : string := ": ping".

Definition usage_line : string := qq "data: {'usage':{'total_tokens':7}}".

(** The answers are turned down by [add_token_interactive]: no name, an
    existing name that is not to be replaced, or a token that is empty or
    shorter than 20 characters. *)
Definition turned_down (a : token_answers) (w : World) : bool :=
  String.eqb (answer_name a) ""
  || (dict_mem (answer_name a) (tokens w) && negb (answer_replace a))
  || String.eqb (answer_token a) ""
  || (code_points (answer_token a) <? 20)%nat.

(** Answers with a token of 24 characters, and with one of 19. *)
Definition long_answers : token_answers :=
  mkTokenAnswers "home" true "eyJ-home-token-0123456789" true.

Definition short_answers : token_answers :=
  mkTokenAnswers "home" true "eyJ-short-token-012" true.

(** Answers with a new name that holds a tag. *)
Definition tagged_answers : token_answers :=
  mkTokenAnswers "[home]" true "eyJ-home-token-0123456789" false.

(** ** Proof steps *)

(** The start of [send_message] for a store whose active token resolves
    to a non-empty value: [Hauth] is the resolution and [Hne] tells that
    the value is not empty. *)
Ltac send_message_start Hauth Hne :=
  unfold send_message;
  cbv beta iota delta [bind get gets]; rewrite Hauth, Hne;
  cbv beta iota zeta delta [catch bind modify ret raise lift console_print].

(** Once the console has answered, the exchange has returned no text or
    an exception has left it. *)
Ltac settle renders :=
  repeat match goal with |- context [renders ?p] => destruct (renders p) end;
  first [left; eexists; reflexivity | right; eexists; eexists; reflexivity].


(** * Properties *)

(** ** The decoder's fuel

    [parse_value] and its two loops recurse on a fuel; every nested call
    follows text that was consumed, so above twice the length of the text
    the fuel has no influence on the result. *)

Lemma skip_ws_le (s : string) : String.length (skip_ws s) <= String.length s.
Proof.
  induction s as [|c s IH]; simpl; [lia|].
  destruct (is_ws c); simpl; lia.
Qed.

Lemma cons_piece_some (p : piece) (r : option (list piece * string)) ps rest :
  cons_piece p r = Some (ps, rest) -> exists ps', r = Some (ps', rest).
Proof.
  destruct r as [[ps' rest']|]; simpl; intros H; inversion H; subst; eauto.
Qed.

Lemma scan_string_lt (s : string) :
  forall ps r, scan_string s = Some (ps, r) -> String.length r < String.length s.
Proof.
  induction s as [s IH] using (well_founded_induction
                                 (Wf_nat.well_founded_ltof _ String.length)).
  intros ps r H. destruct s as [|c s']; [discriminate|].
  cbn [scan_string] in H.
  destruct (Ascii.eqb c dquote).
  { inversion H; subst; simpl; lia. }
  destruct (Ascii.eqb c backslash).
  { destruct s' as [|e r1]; [discriminate|].
    destruct (simple_escape e).
    - apply cons_piece_some in H. destruct H as (ps' & H).
      apply IH in H; [simpl in *; lia | unfold ltof; simpl; lia].
    - destruct (Ascii.eqb e "u"); [|discriminate].
      destruct r1 as [|h1 [|h2 [|h3 [|h4 r2]]]]; try discriminate.
      destruct (hex4 h1 h2 h3 h4); [|discriminate].
      apply cons_piece_some in H. destruct H as (ps' & H).
      apply IH in H; [simpl in *; lia | unfold ltof; simpl; lia]. }
  destruct (nat_of_ascii c <? 32)%nat; [discriminate|].
  apply cons_piece_some in H. destruct H as (ps' & H).
  apply IH in H; [simpl in *; lia | unfold ltof; simpl; lia].
Qed.

Lemma parse_string_lt (s : string) x r :
  parse_string s = Some (x, r) -> String.length r < String.length s.
Proof.
  unfold parse_string. destruct (scan_string s) as [[ps r']|] eqn:E; [|discriminate].
  intros H; inversion H; subst. eapply scan_string_lt; eassumption.
Qed.

Lemma take_digits_le (s : string) :
  String.length (snd (take_digits s)) <= String.length s.
Proof.
  induction s as [|c s IH]; simpl; [lia|].
  destruct (digit_val c); simpl; [|lia].
  destruct (take_digits s); simpl in *; lia.
Qed.

Lemma strip_prefix_length (p s r : string) :
  strip_prefix p s = Some r -> String.length s = String.length p + String.length r.
Proof.
  revert s. induction p as [|a p IH]; intros s H; simpl in *.
  - inversion H; reflexivity.
  - destruct s as [|b s]; [discriminate|].
    destruct (Ascii.eqb a b); [|discriminate].
    apply IH in H. simpl; lia.
Qed.

Lemma literal_lt (s : string) v r :
  literal s = Some (v, r) -> String.length r < String.length s.
Proof.
  unfold literal.
  repeat match goal with
         | |- context [strip_prefix ?p s] =>
             let E := fresh "E" in
             destruct (strip_prefix p s) eqn:E;
             [apply strip_prefix_length in E; intros H; inversion H; subst; simpl in E; lia|]
         end.
  discriminate.
Qed.

Lemma parse_number_lt (max_digits : nat) (s : string) v r :
  parse_number max_digits s = Ok (v, r) -> String.length r < String.length s.
Proof.
  unfold parse_number.
  set (neg_s1 := match s with
                 | String c r0 => if Ascii.eqb c "-" then (true, r0) else (false, s)
                 | EmptyString => (false, s) end).
  assert (Hs1 : String.length (snd neg_s1) <= String.length s).
  { subst neg_s1. destruct s as [|c r0]; simpl; [lia|].
    destruct (Ascii.eqb c "-"); simpl; lia. }
  destruct neg_s1 as [neg s1]. cbn [snd] in Hs1.
  destruct (int_part s1) as [[ids s2]|] eqn:Hint; [|discriminate].
  assert (Hs2 : String.length s2 < String.length s1).
  { unfold int_part in Hint. destruct s1 as [|c r0]; [discriminate|].
    destruct (digit_val c) as [d|]; [|discriminate].
    pose proof (take_digits_le r0) as Hle.
    destruct d; destruct (take_digits r0); inversion Hint; subst; simpl in *; lia. }
  set (f := match frac_part s2 with Some (fds, s3) => (Some fds, s3) | None => (None, s2) end).
  assert (Hs3 : String.length (snd f) <= String.length s2).
  { subst f. destruct (frac_part s2) as [[fds s3]|] eqn:Hf; simpl; [|lia].
    unfold frac_part in Hf. destruct s2 as [|c r0]; [discriminate|].
    destruct (Ascii.eqb c "."); [|discriminate].
    pose proof (take_digits_le r0) as Hle.
    destruct (take_digits r0) as [[|d ds] rest]; inversion Hf; subst; simpl in *; lia. }
  destruct f as [fds s3]. cbn [snd] in Hs3.
  set (x := match exp_part s3 with Some (ex, s4) => (Some ex, s4) | None => (None, s3) end).
  assert (Hs4 : String.length (snd x) <= String.length s3).
  { subst x. destruct (exp_part s3) as [[ex s4]|] eqn:Hx; simpl; [|lia].
    unfold exp_part in Hx. destruct s3 as [|c r0]; [discriminate|].
    destruct (Ascii.eqb c "e" || Ascii.eqb c "E"); [|discriminate].
    set (sg := match r0 with
               | String sg r' => if Ascii.eqb sg "-" then (true, r')
                                 else if Ascii.eqb sg "+" then (false, r') else (false, r0)
               | EmptyString => (false, r0) end) in Hx.
    assert (Hsg : String.length (snd sg) <= String.length r0).
    { subst sg. destruct r0 as [|a r']; simpl; [lia|].
      destruct (Ascii.eqb a "-"); simpl; [lia|].
      destruct (Ascii.eqb a "+"); simpl; lia. }
    destruct sg as [ng r1]. cbn [snd] in Hsg.
    pose proof (take_digits_le r1) as Hle.
    destruct (take_digits r1) as [[|d ds] rest]; inversion Hx; subst; simpl in *; lia. }
  destruct x as [ex s4]. cbn [snd] in Hs4.
  destruct fds, ex; try (intros H; inversion H; subst; lia).
  destruct (max_digits <? List.length ids)%nat; intros H; inversion H; subst; lia.
Qed.

Section FuelFacts.

Variable max_digits : nat.

Lemma parse_value_S (f d : nat) (s : string) :
  parse_value max_digits (S f) d s =
    match s with
    | EmptyString => Raise JSONDecodeError
    | String c r =>
        if Ascii.eqb c dquote then
          match parse_string r with
          | Some (str, rest) => Ok (JStr str, rest)
          | None => Raise JSONDecodeError
          end
        else if Ascii.eqb c "{"%char then
          match d with
          | O => Raise RecursionError
          | S d' =>
              match skip_ws r with
              | String c1 r1 =>
                  if Ascii.eqb c1 "}"%char then Ok (JObj [], r1)
                  else parse_members max_digits f d' (skip_ws r) []
              | EmptyString => Raise JSONDecodeError
              end
          end
        else if Ascii.eqb c "["%char then
          match d with
          | O => Raise RecursionError
          | S d' =>
              match skip_ws r with
              | String c1 r1 =>
                  if Ascii.eqb c1 "]"%char then Ok (JArr [], r1)
                  else parse_elements max_digits f d' (skip_ws r) []
              | EmptyString => Raise JSONDecodeError
              end
          end
        else
          match literal s with
          | Some res => Ok res
          | None => parse_number max_digits s
          end
    end.
Proof. reflexivity. Qed.

Lemma parse_elements_S (f d : nat) (s : string) (acc : list json) :
  parse_elements max_digits (S f) d s acc =
    match parse_value max_digits f d s with
    | Raise e => Raise e
    | Ok (v, rest) =>
        match skip_ws rest with
        | String c r =>
            if Ascii.eqb c ","%char then parse_elements max_digits f d (skip_ws r) (v :: acc)
            else if Ascii.eqb c "]"%char then Ok (JArr (rev (v :: acc)), r)
            else Raise JSONDecodeError
        | EmptyString => Raise JSONDecodeError
        end
    end.
Proof. reflexivity. Qed.

Lemma parse_members_S (f d : nat) (s : string) (acc : dict json) :
  parse_members max_digits (S f) d s acc =
    match s with
    | String q r0 =>
        if Ascii.eqb q dquote then
          match parse_string r0 with
          | None => Raise JSONDecodeError
          | Some (key, r1) =>
              match skip_ws r1 with
              | String colon r2 =>
                  if Ascii.eqb colon ":"%char then
                    match parse_value max_digits f d (skip_ws r2) with
                    | Raise e => Raise e
                    | Ok (v, rest) =>
                        match skip_ws rest with
                        | String c r =>
                            if Ascii.eqb c ","%char
                            then parse_members max_digits f d (skip_ws r) (dict_set key v acc)
                            else if Ascii.eqb c "}"%char
                            then Ok (JObj (dict_set key v acc), r)
                            else Raise JSONDecodeError
                        | EmptyString => Raise JSONDecodeError
                        end
                    end
                  else Raise JSONDecodeError
              | EmptyString => Raise JSONDecodeError
              end
          end
        else Raise JSONDecodeError
    | EmptyString => Raise JSONDecodeError
    end.
Proof. reflexivity. Qed.

Lemma skip_ws_cons_le (s : string) (c : ascii) (r : string) :
  skip_ws s = String c r -> S (String.length r) <= String.length s.
Proof.
  intros H. pose proof (skip_ws_le s) as L. rewrite H in L. simpl in L. exact L.
Qed.

(** Whatever the fuel and the depth, a decoded value has consumed text. *)
Lemma parse_consumes (f : nat) :
  (forall d s v r, parse_value max_digits f d s = Ok (v, r) ->
                   String.length r < String.length s) /\
  (forall d s acc v r, parse_elements max_digits f d s acc = Ok (v, r) ->
                       String.length r < String.length s) /\
  (forall d s acc v r, parse_members max_digits f d s acc = Ok (v, r) ->
                       String.length r < String.length s).
Proof.
  induction f as [|f (IHv & IHe & IHm)]; [repeat split; intros; discriminate|].
  repeat split.
  - intros d s v r H. rewrite parse_value_S in H.
    destruct s as [|c s']; [discriminate|].
    destruct (Ascii.eqb c dquote).
    { destruct (parse_string s') as [[str rest]|] eqn:E; [|discriminate].
      inversion H; subst. apply parse_string_lt in E. simpl; lia. }
    destruct (Ascii.eqb c "{").
    { destruct d as [|d']; [discriminate|].
      destruct (skip_ws s') as [|c1 r1] eqn:E; [discriminate|].
      pose proof (skip_ws_cons_le _ _ _ E) as L.
      destruct (Ascii.eqb c1 "}").
      - inversion H; subst. simpl; lia.
      - apply IHm in H. simpl in *; lia. }
    destruct (Ascii.eqb c "[").
    { destruct d as [|d']; [discriminate|].
      destruct (skip_ws s') as [|c1 r1] eqn:E; [discriminate|].
      pose proof (skip_ws_cons_le _ _ _ E) as L.
      destruct (Ascii.eqb c1 "]").
      - inversion H; subst. simpl; lia.
      - apply IHe in H. simpl in *; lia. }
    destruct (literal (String c s')) as [[v' r']|] eqn:E.
    + inversion H; subst. apply literal_lt in E. exact E.
    + apply parse_number_lt in H. exact H.
  - intros d s acc v r H. rewrite parse_elements_S in H.
    destruct (parse_value max_digits f d s) as [[v' rest]|] eqn:E; [|discriminate].
    apply IHv in E.
    destruct (skip_ws rest) as [|c r'] eqn:Er; [discriminate|].
    pose proof (skip_ws_cons_le _ _ _ Er) as L.
    destruct (Ascii.eqb c ",").
    + apply IHe in H. pose proof (skip_ws_le r'). lia.
    + destruct (Ascii.eqb c "]"); [|discriminate]. inversion H; subst. lia.
  - intros d s acc v r H. rewrite parse_members_S in H.
    destruct s as [|q r0]; [discriminate|].
    destruct (Ascii.eqb q dquote); [|discriminate].
    destruct (parse_string r0) as [[key r1]|] eqn:Ek; [|discriminate].
    apply parse_string_lt in Ek.
    destruct (skip_ws r1) as [|colon r2] eqn:Ec; [discriminate|].
    pose proof (skip_ws_cons_le _ _ _ Ec) as Lc.
    destruct (Ascii.eqb colon ":"); [|discriminate].
    destruct (parse_value max_digits f d (skip_ws r2)) as [[v' rest]|] eqn:Ev; [|discriminate].
    apply IHv in Ev. pose proof (skip_ws_le r2) as L2.
    destruct (skip_ws rest) as [|c r'] eqn:Er; [discriminate|].
    pose proof (skip_ws_cons_le _ _ _ Er) as L.
    destruct (Ascii.eqb c ",").
    + apply IHm in H. pose proof (skip_ws_le r'). simpl; lia.
    + destruct (Ascii.eqb c "}"); [|discriminate]. inversion H; subst. simpl; lia.
Qed.

(** Above [2 * length] the fuel does not matter. *)
Lemma parse_stable (n : nat) :
  (forall s, String.length s <= n ->
     forall d f1 f2, 2 * String.length s <= f1 -> 2 * String.length s <= f2 ->
       parse_value max_digits f1 d s = parse_value max_digits f2 d s) /\
  (forall s, String.length s <= n ->
     forall d acc f1 f2, 2 * String.length s + 1 <= f1 -> 2 * String.length s + 1 <= f2 ->
       parse_elements max_digits f1 d s acc = parse_elements max_digits f2 d s acc) /\
  (forall s, String.length s <= n ->
     forall d acc f1 f2, 2 * String.length s + 1 <= f1 -> 2 * String.length s + 1 <= f2 ->
       parse_members max_digits f1 d s acc = parse_members max_digits f2 d s acc).
Proof.
  induction n as [|n (IHv & IHe & IHm)].
  - repeat split; intros s Hs; destruct s; try (simpl in Hs; lia); intros.
    + destruct f1, f2; reflexivity.
    + destruct f1 as [|f1], f2 as [|f2]; try lia.
      rewrite !parse_elements_S. destruct f1, f2; reflexivity.
    + destruct f1 as [|f1], f2 as [|f2]; try lia. reflexivity.
  - assert (Hv : forall s, String.length s <= S n ->
              forall d f1 f2, 2 * String.length s <= f1 -> 2 * String.length s <= f2 ->
                parse_value max_digits f1 d s = parse_value max_digits f2 d s).
    { intros s Hs d f1 f2 H1 H2.
      destruct s as [|c s']; [destruct f1, f2; reflexivity|].
      simpl in Hs, H1, H2.
      destruct f1 as [|f1]; [lia|]. destruct f2 as [|f2]; [lia|].
      rewrite !parse_value_S.
      destruct (Ascii.eqb c dquote); [reflexivity|].
      destruct (Ascii.eqb c "{").
      { destruct d as [|d']; [reflexivity|].
        destruct (skip_ws s') as [|c1 r1] eqn:E; [reflexivity|].
        destruct (Ascii.eqb c1 "}"); [reflexivity|].
        pose proof (skip_ws_le s') as L. rewrite E in *.
        apply IHm; lia. }
      destruct (Ascii.eqb c "[").
      { destruct d as [|d']; [reflexivity|].
        destruct (skip_ws s') as [|c1 r1] eqn:E; [reflexivity|].
        destruct (Ascii.eqb c1 "]"); [reflexivity|].
        pose proof (skip_ws_le s') as L. rewrite E in *.
        apply IHe; lia. }
      reflexivity. }
    split; [exact Hv|]. split.
    + intros s Hs d acc f1 f2 H1 H2.
      destruct f1 as [|f1]; [lia|]. destruct f2 as [|f2]; [lia|].
      rewrite !parse_elements_S.
      rewrite (Hv s Hs d f1 f2) by lia.
      destruct (parse_value max_digits f2 d s) as [[v rest]|] eqn:E; [|reflexivity].
      apply (proj1 (parse_consumes f2)) in E.
      destruct (skip_ws rest) as [|c r] eqn:Er; [reflexivity|].
      pose proof (skip_ws_cons_le _ _ _ Er) as L.
      destruct (Ascii.eqb c ","); [|reflexivity].
      pose proof (skip_ws_le r) as Lr.
      apply IHe; lia.
    + intros s Hs d acc f1 f2 H1 H2.
      destruct f1 as [|f1]; [lia|]. destruct f2 as [|f2]; [lia|].
      rewrite !parse_members_S.
      destruct s as [|q r0]; [reflexivity|]. simpl in Hs, H1, H2.
      destruct (Ascii.eqb q dquote); [|reflexivity].
      destruct (parse_string r0) as [[key r1]|] eqn:Ek; [|reflexivity].
      apply parse_string_lt in Ek.
      destruct (skip_ws r1) as [|colon r2] eqn:Ec; [reflexivity|].
      pose proof (skip_ws_cons_le _ _ _ Ec) as Lc.
      destruct (Ascii.eqb colon ":"); [|reflexivity].
      pose proof (skip_ws_le r2) as L2.
      rewrite (IHv (skip_ws r2) ltac:(lia) d f1 f2) by lia.
      destruct (parse_value max_digits f2 d (skip_ws r2)) as [[v rest]|] eqn:Ev; [|reflexivity].
      apply (proj1 (parse_consumes f2)) in Ev.
      destruct (skip_ws rest) as [|c r] eqn:Er; [reflexivity|].
      pose proof (skip_ws_cons_le _ _ _ Er) as L.
      destruct (Ascii.eqb c ","); [|reflexivity].
      pose proof (skip_ws_le r) as Lr.
      apply IHm; lia.
Qed.

(** The fuel [json_loads] gives the decoder is enough: more changes
    nothing, whatever the depth that is left. *)
Lemma json_loads_fuel (s : string) (depth fuel : nat) :
  2 * String.length s + 2 <= fuel ->
  parse_value max_digits fuel depth (skip_ws s)
    = parse_value max_digits (2 * String.length s + 2) depth (skip_ws s).
Proof.
  intros H. pose proof (skip_ws_le s) as L.
  apply (proj1 (parse_stable (String.length (skip_ws s))) (skip_ws s) (le_n _)); lia.
Qed.

End FuelFacts.

(** ** Dictionaries *)

Section DictFacts.

Context {V : Type}.
Implicit Types (d : dict V) (k : string) (v : V).

Lemma dict_get_del_same k d : dict_get k (dict_del k d) = None.
Proof.
  induction d as [|[k' v'] d IH]; simpl; auto.
  destruct (String.eqb k k') eqn:E; simpl; auto.
  rewrite E; exact IH.
Qed.

Lemma dict_get_del_other k k' d :
  k' <> k -> dict_get k' (dict_del k d) = dict_get k' d.
Proof.
  intros Hne.
  induction d as [|[k0 v0] d IH]; simpl; auto.
  destruct (String.eqb k k0) eqn:E; simpl.
  - apply String.eqb_eq in E; subst k0.
    destruct (String.eqb k' k) eqn:E'; auto.
    apply String.eqb_eq in E'; contradiction.
  - rewrite IH; reflexivity.
Qed.

(** Deleting keeps every other entry, in order. *)
Lemma dict_del_filter k d :
  dict_del k d = filter (fun kv => negb (String.eqb k (fst kv))) d.
Proof.
  induction d as [|[k' v'] d IH]; simpl; auto.
  destruct (String.eqb k k'); simpl; rewrite IH; reflexivity.
Qed.

Lemma dict_mem_del_same k d : dict_mem k (dict_del k d) = false.
Proof. unfold dict_mem; rewrite dict_get_del_same; reflexivity. Qed.

Lemma dict_get_set_same k v d : dict_get k (dict_set k v d) = Some v.
Proof.
  induction d as [|[k' v'] d IH]; simpl.
  - rewrite String.eqb_refl; reflexivity.
  - destruct (String.eqb k k') eqn:E; simpl; rewrite E; auto.
Qed.

Lemma dict_get_set_other k k' v d :
  k' <> k -> dict_get k' (dict_set k v d) = dict_get k' d.
Proof.
  intros Hne.
  assert (Hkk : String.eqb k' k = false) by (apply String.eqb_neq; exact Hne).
  induction d as [|[k0 v0] d IH]; simpl.
  - rewrite Hkk; reflexivity.
  - destruct (String.eqb k k0) eqn:E; simpl.
    + apply String.eqb_eq in E; subst k0; rewrite Hkk; reflexivity.
    + rewrite IH; reflexivity.
Qed.

(** An entry of an updated dict is the new binding or an old entry. *)
Lemma in_dict_set k v d k' v' :
  In (k', v') (dict_set k v d) -> (k' = k /\ v' = v) \/ In (k', v') d.
Proof.
  induction d as [|[k0 v0] d IH]; simpl.
  - intros [H|[]]; inversion H; auto.
  - destruct (String.eqb k k0) eqn:E; simpl.
    + apply String.eqb_eq in E; subst k0.
      intros [H|H]; [inversion H; auto | auto].
    + intros [H|H]; [auto | destruct (IH H); auto].
Qed.

End DictFacts.

(** ** Credential store *)

(** C10.  [remove_token n] on an absent name returns [False] and leaves the
    whole world as it was; on a present name it returns [True], the token
    collection is the old one without the entries named [n] (every other
    entry kept, in order) and is persisted, and the configuration is not
    touched.  So when [n] was the active token the reference still holds
    [n], and [get_active_token] then gives the first value in iteration
    order, or [None] when no token is left. *)
Theorem remove_token_then_active_token (w : World) (n : string) :
  (dict_mem n (tokens w) = false -> remove_token n w = Returns false w) /\
  (dict_mem n (tokens w) = true ->
     exists w',
       remove_token n w = Returns true w' /\
       tokens w' = filter (fun kv => negb (String.eqb n (fst kv))) (tokens w) /\
       dict_get n (tokens w') = None /\
       (forall m, m <> n -> dict_get m (tokens w') = dict_get m (tokens w)) /\
       tokens_json w' = Some (tokens w') /\
       config w' = config w /\
       (dict_get "active_token" (config w) = Some (JStr n) ->
          dict_get "active_token" (config w') = Some (JStr n) /\
          (tokens w' = [] -> get_active_token w' = Returns None w') /\
          (forall k v rest, tokens w' = (k, v) :: rest ->
             get_active_token w' = Returns (Some v) w'))).
Proof.
  split.
  - intros Habs. unfold remove_token, bind, gets. rewrite Habs. reflexivity.
  - intros Hpres.
    eexists. split.
    + unfold remove_token, bind, gets, modify, save_tokens, ret.
      rewrite Hpres. reflexivity.
    + cbn [tokens config tokens_json set_tokens set_tokens_json log_event].
      split; [apply dict_del_filter|].
      split; [apply dict_get_del_same|].
      split; [intros m Hm; apply dict_get_del_other; exact Hm|].
      split; [reflexivity|]. split; [reflexivity|].
      intros Hactive. split; [exact Hactive|].
      assert (Hfallback :
                get_active_token
                  (log_event (FileWrite TOKENS_FILE)
                     (set_tokens_json (Some (dict_del n (tokens w)))
                        (set_tokens (dict_del n (tokens w)) w)))
                = Returns (hd_error (dict_values (dict_del n (tokens w))))
                    (log_event (FileWrite TOKENS_FILE)
                       (set_tokens_json (Some (dict_del n (tokens w)))
                          (set_tokens (dict_del n (tokens w)) w)))).
      { unfold get_active_token, bind, gets, lift, ret.
        cbn [tokens config set_tokens set_tokens_json log_event].
        unfold dict_get_default. rewrite Hactive. cbn [truthy value_in_dict].
        rewrite dict_mem_del_same.
        destruct (negb (String.eqb n "")); destruct (dict_values (dict_del n (tokens w)));
          reflexivity. }
      split.
      * intros Hnil. rewrite Hfallback, Hnil. reflexivity.
      * intros k v rest Hcons. rewrite Hfallback, Hcons. reflexivity.
Qed.

Lemma remove_token_then_active_token_witness :
  dict_mem "work" (tokens two_tokens) = true /\
  dict_get "active_token" (config two_tokens) = Some (JStr "work") /\
  exists w',
    remove_token "work" two_tokens = Returns true w' /\
    tokens w' = [("home", "eyJ-home-token")] /\
    dict_get "active_token" (config w') = Some (JStr "work") /\
    get_active_token w' = Returns (Some "eyJ-home-token") w'.
Proof.
  split; [reflexivity|]. split; [reflexivity|].
  destruct (remove_token_then_active_token two_tokens "work") as [_ Hpresent].
  destruct (Hpresent eq_refl) as (w' & Hrun & Htoks & _ & _ & _ & _ & Hactive).
  destruct (Hactive eq_refl) as (Href & _ & Hfirst).
  exists w'. split; [exact Hrun|].
  split; [exact Htoks|]. split; [exact Href|].
  exact (Hfirst "home" "eyJ-home-token" [] Htoks).
Defined.

(** ** Endpoint switch *)

(** C9.  [switch_endpoint] returns [True] exactly when the scheme is
    accepted and the probe outcome confirms the gateway.  A candidate
    without [http://] or [https://] leaves the world as it was: no request
    is issued and nothing is written.  Whenever the result is [False] the
    configuration and its file are unchanged and no file is written; when
    it is [True] the normalised endpoint is stored and persisted. *)
Theorem switch_endpoint_persists_only_confirmed
        (http_get : url -> reply) (new_endpoint : string) (w : World) :
  exists w' new_events,
    switch_endpoint http_get new_endpoint w
      = Returns (scheme_ok new_endpoint && confirmed_reachable http_get new_endpoint) w' /\
    trace w' = trace w ++ new_events /\
    (scheme_ok new_endpoint = false -> w' = w /\ new_events = []) /\
    (scheme_ok new_endpoint && confirmed_reachable http_get new_endpoint = false ->
       config w' = config w /\ config_json w' = config_json w /\
       existsb is_write new_events = false) /\
    (scheme_ok new_endpoint && confirmed_reachable http_get new_endpoint = true ->
       config w' = dict_set "api_endpoint" (JStr (normalize_endpoint new_endpoint)) (config w) /\
       config_json w' = Some (config w') /\
       existsb is_write new_events = true).
Proof.
  unfold switch_endpoint, confirmed_reachable.
  fold (scheme_ok new_endpoint).
  destruct (scheme_ok new_endpoint) eqn:Hscheme; cbn [negb andb].
  2:{ exists w, []. rewrite app_nil_r.
      repeat split; auto; discriminate. }
  assert (Hne : String.eqb new_endpoint "" = false).
  { destruct new_endpoint; [discriminate Hscheme | reflexivity]. }
  unfold set. rewrite Hne. cbn [String.eqb Ascii.eqb Bool.eqb andb negb].
  cbv beta iota delta [catch bind requests_get modify raise ret save_config].
  destruct (http_get (Url (JStr new_endpoint) "/health")) as [| | |status text] eqn:Hhealth;
    cbn [fst snd].
  1-3: (eexists; exists [HttpGet (Url (JStr new_endpoint) "/health")];
        repeat split; solve [reflexivity | discriminate]).
  destruct (Z.eqb status 200) eqn:H200.
  { eexists; exists [HttpGet (Url (JStr new_endpoint) "/health"); FileWrite CONFIG_FILE].
    repeat split;
      solve [reflexivity | discriminate | cbn; repeat rewrite <- app_assoc; reflexivity]. }
  destruct (Z.eqb status 403) eqn:H403.
  2:{ eexists; exists [HttpGet (Url (JStr new_endpoint) "/health")];
      repeat split; solve [reflexivity | discriminate]. }
  destruct (http_get (Url (JStr new_endpoint) "/v1/models")) as [| | |status' text'] eqn:Hmodels;
    cbn [fst snd].
  1-3: (eexists; exists [HttpGet (Url (JStr new_endpoint) "/health");
                         HttpGet (Url (JStr new_endpoint) "/v1/models")];
        repeat split;
        solve [reflexivity | discriminate | cbn; repeat rewrite <- app_assoc; reflexivity]).
  destruct (Z.eqb status' 403 && contains "RBAC" text') eqn:Hrbac.
  - eexists; exists [HttpGet (Url (JStr new_endpoint) "/health");
                     HttpGet (Url (JStr new_endpoint) "/v1/models");
                     FileWrite CONFIG_FILE].
    repeat split;
      solve [reflexivity | discriminate | cbn; repeat rewrite <- app_assoc; reflexivity].
  - eexists; exists [HttpGet (Url (JStr new_endpoint) "/health");
                     HttpGet (Url (JStr new_endpoint) "/v1/models")].
    repeat split;
      solve [reflexivity | discriminate | cbn; repeat rewrite <- app_assoc; reflexivity].
Qed.

(** ** API keys and the active token *)

(** C3.  On the configuration [load_config] builds when there is no config
    file, [active_token] is present with value [None]; [generate_apikey]
    then stores [None] as [token_name], not the string [auto], because the
    default of [dict.get] only applies to a missing key. *)
Theorem generate_apikey_stores_null_for_unset_active_token :
  load_config None = Ok (config first_run) /\
  get_active_token first_run = Returns (Some "eyJ-work-token") first_run /\
  exists w',
    generate_apikey (fun _ => Failed) "q7Rk" "2025-01-01T10:00:00" "my-app" true first_run
      = Returns "sk-q7Rk" w' /\
    dict_get "my-app" (apikeys w')
      = Some (JObj [("key", JStr "sk-q7Rk");
                    ("created", JStr "2025-01-01T10:00:00");
                    ("token_name", JNull)]) /\
    apikeys_json w' = Some (apikeys w').
Proof.
  split; [reflexivity|]. split; [reflexivity|].
  eexists. split; [reflexivity|]. split; reflexivity.
Qed.

(** What [generate_apikey] records in the other two cases: the active
    token's name when one is set, and [auto] when the configuration has no
    [active_token] key at all. *)
Lemma generate_apikey_token_name (http_post : url -> reply)
      (random_part now name : string) (sync : bool) (w : World) :
  exists w',
    generate_apikey http_post random_part now name sync w
      = Returns ("sk-" ++ random_part)%string w' /\
    apikeys w' =
      dict_set name
        (JObj [("key", JStr ("sk-" ++ random_part));
               ("created", JStr now);
               ("token_name",
                match dict_get "active_token" (config w) with
                | Some v => v
                | None => JStr "auto"
                end)])
        (apikeys w) /\
    apikeys_json w' = Some (apikeys w') /\
    config w' = config w /\ tokens w' = tokens w.
Proof.
  unfold generate_apikey.
  cbv beta iota delta [bind modify save_apikeys ret sync_apikeys_to_server
                       sync_collection get gets].
  cbn [config set_apikeys set_apikeys_json log_event].
  destruct sync.
  - destruct (json_eqb _ _).
    + eexists; repeat split.
    + destruct (http_post _); eexists; repeat split.
  - eexists; repeat split.
Qed.

(** ** The token log *)

(** C8.  [add_token] does not guard the append to [token.txt]: when the
    file cannot be opened the call raises [OSError].  The token is by then
    in the collection and in [tokens.json], and the sync that follows the
    append is not reached. *)
Theorem add_token_raises_when_log_write_fails :
  exists w',
    add_token (fun _ => Response 200 "ok") "work" "eyJ-work-token" true log_unwritable
      = Raises OSError w' /\
    dict_get "work" (tokens w') = Some "eyJ-work-token" /\
    tokens_json w' = Some (tokens w') /\
    token_txt w' = [] /\
    trace w' = [FileWrite TOKENS_FILE].
Proof.
  eexists. split; [reflexivity|]. repeat split.
Qed.

(** With a writable log the same call returns: the token is upserted,
    persisted and appended to the log. *)
Lemma add_token_writable (http_post : url -> reply) (name token : string)
      (sync : bool) (w : World) :
  token_txt_writable w = true ->
  exists w',
    add_token http_post name token sync w = Returns tt w' /\
    tokens w' = dict_set name token (tokens w) /\
    tokens_json w' = Some (tokens w') /\
    token_txt w' = token_txt w ++ [token].
Proof.
  intros Hw. unfold add_token.
  cbv beta iota delta [bind modify save_tokens ret sync_tokens_to_server
                       sync_collection get gets append_token_txt].
  cbn [token_txt_writable set_tokens set_tokens_json log_event tokens token_txt].
  rewrite Hw.
  destruct sync.
  - cbn [config set_token_txt log_event].
    destruct (json_eqb _ _).
    + eexists; repeat split.
    + destruct (http_post _); eexists; repeat split.
  - eexists; repeat split.
Qed.

(** ** Middleware: the search *)

(** [json_eqb] against a string decides equality with that string. *)
Lemma json_eqb_str (x : json) (s : string) :
  json_eqb x (JStr s) = true <-> x = JStr s.
Proof.
  destruct x; simpl; split; intros H; try discriminate.
  - apply String.eqb_eq in H; subst; reflexivity.
  - inversion H; apply String.eqb_refl.
Qed.

Lemma carries_eqb (k : string) (fields : dict json) :
  json_eqb (dict_get_default "key" JNull fields) (JStr k) = true <-> carries k fields.
Proof.
  unfold carries, dict_get_default. rewrite json_eqb_str.
  destruct (dict_get "key" fields); split; intros H; try discriminate; congruence.
Qed.

(** Entries that do not carry the key are stepped over. *)
Lemma search_skips (k : string) (toks : dict string) (pre rest : dict json) :
  (forall n f, In (n, JObj f) pre -> ~ carries k f) ->
  search k toks (pre ++ rest) = search k toks rest.
Proof.
  induction pre as [|[n d] pre IH]; intros Hpre; [reflexivity|].
  simpl. destruct d; try (apply IH; intros; eapply Hpre; right; eassumption).
  destruct (json_eqb (dict_get_default "key" JNull fields) (JStr k)) eqn:E.
  - apply carries_eqb in E. exfalso. eapply Hpre; [left; reflexivity | exact E].
  - apply IH; intros; eapply Hpre; right; eassumption.
Qed.

Lemma search_no_entry (k : string) (toks : dict string) (entries : dict json) :
  (forall n f, In (n, JObj f) entries -> ~ carries k f) ->
  search k toks entries = Ok k.
Proof.
  intros H. rewrite <- (app_nil_r entries). rewrite search_skips; auto.
Qed.

(** When every entry that carries the key has the token name [None], no
    branch of the loop returns. *)
Lemma search_null_token_name (k : string) (toks : dict string) (entries : dict json) :
  (forall n f, In (n, JObj f) entries -> carries k f ->
               dict_get "token_name" f = Some JNull) ->
  search k toks entries = Ok k.
Proof.
  induction entries as [|[n d] entries IH]; intros H; [reflexivity|].
  simpl. destruct d; try (apply IH; intros; eapply H; [right|]; eassumption).
  destruct (json_eqb (dict_get_default "key" JNull fields) (JStr k)) eqn:E.
  - apply carries_eqb in E.
    unfold dict_get_default. rewrite (H n fields (or_introl eq_refl) E).
    simpl. apply IH; intros; eapply H; [right|]; eassumption.
  - apply IH; intros; eapply H; [right|]; eassumption.
Qed.

Lemma startswith_sk_nonempty (k : string) :
  startswith "sk-" k = true -> String.eqb k "" = false.
Proof. destruct k; [discriminate | reflexivity]. Qed.

Lemma startswith_sk_app (r : string) : startswith "sk-" ("sk-" ++ r) = true.
Proof. simpl. destruct r; reflexivity. Qed.

(** C4.  When [active_token] is present and holds [None], the entry that
    [generate_apikey] creates and persists has the token name [None].  For
    every token collection, the middleware reading the persisted API keys
    returns the new key unchanged, as long as the generated secret is fresh
    (no older entry carries the same key): the membership test fails on
    [None] and [None] is not the string [auto]. *)
Theorem null_token_name_key_is_never_mapped
        (http_post : url -> reply) (random_part now name : string) (sync : bool)
        (w : World) :
  dict_get "active_token" (config w) = Some JNull ->
  exists w',
    generate_apikey http_post random_part now name sync w
      = Returns ("sk-" ++ random_part)%string w' /\
    dict_get name (apikeys w')
      = Some (JObj [("key", JStr ("sk-" ++ random_part));
                    ("created", JStr now);
                    ("token_name", JNull)]) /\
    apikeys_json w' = Some (apikeys w') /\
    (forall (toks : dict string) (rest : dict json),
       search ("sk-" ++ random_part) toks
              ((name, JObj [("key", JStr ("sk-" ++ random_part));
                            ("created", JStr now);
                            ("token_name", JNull)]) :: rest)
         = search ("sk-" ++ random_part) toks rest) /\
    forall toks : dict string,
      (forall n f, In (n, JObj f) (apikeys w) -> ~ carries ("sk-" ++ random_part) f) ->
      fst (map_apikey_to_token (mkFiles (Holds (JObj (apikeys w'))) (Holds toks))
                               ("sk-" ++ random_part))
        = ("sk-" ++ random_part)%string.
Proof.
  intros Hnull.
  destruct (generate_apikey_token_name http_post random_part now name sync w)
    as (w' & Hrun & Hkeys & Hfile & _ & _).
  rewrite Hnull in Hkeys.
  exists w'. split; [exact Hrun|]. split; [|split; [exact Hfile|split]].
  - rewrite Hkeys. apply dict_get_set_same.
  - intros toks rest. cbn [search dict_get_default dict_get String.eqb Ascii.eqb Bool.eqb].
    cbn [json_eqb]. rewrite String.eqb_refl. reflexivity.
  - intros toks Hfresh.
    unfold map_apikey_to_token.
    rewrite startswith_sk_app.
    rewrite (startswith_sk_nonempty _ (startswith_sk_app random_part)).
    cbn [orb negb load_mappings load_mappings_try load_file apikeys_file tokens_file
         map_try len items rbind fst snd app].
    rewrite search_null_token_name; [reflexivity|].
    intros n f Hin Hcar. rewrite Hkeys in Hin.
    apply in_dict_set in Hin. destruct Hin as [[_ Heq]|Hold].
    + inversion Heq; reflexivity.
    + exfalso; exact (Hfresh n f Hold Hcar).
Qed.

Lemma null_token_name_key_is_never_mapped_witness :
  dict_get "active_token" (config first_run) = Some JNull /\
  exists w',
    generate_apikey (fun _ => Failed) "q7Rk" "2025-01-01T10:00:00" "my-app" true first_run
      = Returns "sk-q7Rk" w' /\
    dict_get "my-app" (apikeys w')
      = Some (JObj [("key", JStr "sk-q7Rk");
                    ("created", JStr "2025-01-01T10:00:00");
                    ("token_name", JNull)]) /\
    fst (map_apikey_to_token
           (mkFiles (Holds (JObj (apikeys w'))) (Holds [("work", "eyJ-work-token")]))
           "sk-q7Rk") = "sk-q7Rk".
Proof.
  split; [reflexivity|].
  destruct (null_token_name_key_is_never_mapped
              (fun _ => Failed) "q7Rk" "2025-01-01T10:00:00" "my-app" true first_run eq_refl)
    as (w' & Hrun & Hentry & _ & _ & Hmap).
  exists w'. split; [exact Hrun|]. split; [exact Hentry|].
  apply Hmap. intros n f [].
Defined.

(** ** Middleware: dispatch *)

Section DispatchFacts.

Variable Reply : Type.
Variable call_next : headers -> Reply.



(** A request whose Authorization header reads [Bearer v] with an
    [sk-] value goes through the mapping. *)
Lemma dispatch_bearer_sk (fs : Files) (hs : headers) (v : string) :
  request_header "authorization" "" hs = ("Bearer " ++ v)%string ->
  startswith "sk-" v = true ->
  dispatch Reply call_next fs hs =
    let hs' :=
      if negb (String.eqb (fst (map_apikey_to_token fs v)) v)
      then replace_authorization (fst (map_apikey_to_token fs v)) hs
      else hs in
    mkDispatched Reply hs' (call_next hs') (snd (map_apikey_to_token fs v)).
Proof.
  intros Hauth Hsk. unfold dispatch. rewrite Hauth.
  change (startswith "Bearer " ("Bearer " ++ v)) with (String.prefix "" v).
  change (drop 7 ("Bearer " ++ v)) with v.
  assert (Hp : String.prefix "" v = true) by (destruct v; reflexivity).
  rewrite Hp, Hsk.
  destruct (map_apikey_to_token fs v) as [m t]. cbn [fst snd].
  destruct (negb (String.eqb m v)); reflexivity.
Qed.


(** A mapping result equal to the key leaves the request as it came. *)
Lemma dispatch_unmapped (fs : Files) (hs : headers) (v : string) :
  request_header "authorization" "" hs = ("Bearer " ++ v)%string ->
  startswith "sk-" v = true ->
  fst (map_apikey_to_token fs v) = v ->
  forwarded Reply (dispatch Reply call_next fs hs) = hs /\
  response Reply (dispatch Reply call_next fs hs) = call_next hs.
Proof.
  intros Hauth Hsk Hsame.
  rewrite (dispatch_bearer_sk fs hs v Hauth Hsk).
  cbv zeta. rewrite Hsame, String.eqb_refl. split; reflexivity.
Qed.

Lemma map_unfold (fs : Files) (v : string) :
  startswith "sk-" v = true ->
  fst (map_apikey_to_token fs v) =
    match map_try v (fst (fst (load_mappings fs))) (snd (fst (load_mappings fs))) with
    | Ok token => token
    | Raise _ => v
    end.
Proof.
  intros Hsk. unfold map_apikey_to_token.
  rewrite Hsk, (startswith_sk_nonempty v Hsk). cbn [orb negb].
  destruct (load_mappings fs) as [[apikeys toks] t]. cbn [fst snd].
  destruct (map_try v apikeys toks); reflexivity.
Qed.

(** C6.  For a request whose header reads [Bearer sk-...]: if the body of
    [load_mappings] raises, or the search over the loaded collections
    raises, [map_apikey_to_token] gives back the key, the headers handed
    on are the ones received, and the response is the application's
    response to that request. *)
Theorem mapping_errors_fail_open (fs : Files) (hs : headers) (v : string) (e : exn) :
  request_header "authorization" "" hs = ("Bearer " ++ v)%string ->
  startswith "sk-" v = true ->
  fst (load_mappings_try fs) = Raise e \/
  map_try v (fst (fst (load_mappings fs))) (snd (fst (load_mappings fs))) = Raise e ->
  fst (map_apikey_to_token fs v) = v /\
  forwarded Reply (dispatch Reply call_next fs hs) = hs /\
  response Reply (dispatch Reply call_next fs hs) = call_next hs.
Proof.
  intros Hauth Hsk Hraise.
  assert (Hsame : fst (map_apikey_to_token fs v) = v).
  { rewrite (map_unfold fs v Hsk).
    destruct Hraise as [Hload|Hsearch].
    - unfold load_mappings.
      destruct (load_mappings_try fs) as [r t]. cbn [fst] in Hload. subst r.
      reflexivity.
    - rewrite Hsearch; reflexivity. }
  split; [exact Hsame|].
  apply (dispatch_unmapped fs hs v Hauth Hsk Hsame).
Qed.

End DispatchFacts.

Lemma mapping_errors_fail_open_witness :
  (fst (load_mappings_try unreadable_files) = Raise OSError /\
   forwarded _ (dispatch _ (fun hs => hs) unreadable_files
                         [("host", "gateway"); ("authorization", "Bearer sk-q7Rk")])
     = [("host", "gateway"); ("authorization", "Bearer sk-q7Rk")]) /\
  (map_try "sk-q7Rk" (fst (fst (load_mappings list_files))) (snd (fst (load_mappings list_files)))
     = Raise AttributeError /\
   response _ (dispatch _ (fun hs => hs) list_files
                        [("host", "gateway"); ("authorization", "Bearer sk-q7Rk")])
     = [("host", "gateway"); ("authorization", "Bearer sk-q7Rk")]).
Proof.
  split; (split; [reflexivity|]).
  - apply (mapping_errors_fail_open _ (fun hs => hs) unreadable_files
             [("host", "gateway"); ("authorization", "Bearer sk-q7Rk")] "sk-q7Rk" OSError
             eq_refl eq_refl (or_introl eq_refl)).
  - apply (mapping_errors_fail_open _ (fun hs => hs) list_files
             [("host", "gateway"); ("authorization", "Bearer sk-q7Rk")] "sk-q7Rk" AttributeError
             eq_refl eq_refl (or_intror eq_refl)).
Defined.


Lemma map_first_entry (fs : Files) (v : string)
      (entries pre post : dict json) (toks : dict string)
      (name : string) (fields : dict json) (tn tv : string) :
  startswith "sk-" v = true ->
  apikeys_file fs = Holds (JObj entries) ->
  tokens_file fs = Holds toks ->
  entries = pre ++ (name, JObj fields) :: post ->
  (forall n f, In (n, JObj f) pre -> ~ carries v f) ->
  carries v fields ->
  dict_get_default "token_name" (JStr "auto") fields = JStr tn ->
  dict_get tn toks = Some tv ->
  fst (map_apikey_to_token fs v) = tv.
Proof.
  intros Hsk Hkeys Htoks Hsplit Hpre Hcar Hname Htok.
  rewrite (map_unfold fs v Hsk).
  destruct fs as [kf tf]; cbn [apikeys_file tokens_file] in Hkeys, Htoks; subst kf tf.
  cbn [load_mappings load_mappings_try load_file apikeys_file tokens_file
       fst snd map_try len items rbind].
  rewrite Hsplit, (search_skips v toks pre _ Hpre).
  cbn [search].
  apply carries_eqb in Hcar. rewrite Hcar, Hname.
  cbn [value_in_dict rbind]. unfold dict_mem. rewrite Htok. reflexivity.
Qed.




(** ** The streaming reader *)

Lemma get_active_token_pure (w w' : World) (r : option string) :
  get_active_token w = Returns r w' -> w' = w.
Proof.
  unfold get_active_token.
  cbv beta iota delta [bind gets lift ret].
  destruct (truthy _).
  - destruct (value_in_dict _ _) as [[|]|]; try discriminate.
    + destruct (dict_get_default _ _ _); intros H; inversion H; reflexivity.
    + destruct (dict_values _); intros H; inversion H; reflexivity.
  - destruct (dict_values _); intros H; inversion H; reflexivity.
Qed.

Section ReaderFacts.

Variable renders : printed -> bool.
Variable loads : string -> result json.
Variable model : json.

Lemma startswith_data (p : string) : startswith "data: " ("data: " ++ p) = true.
Proof. simpl. destruct p; reflexivity. Qed.

Lemma startswith_split (p s : string) :
  startswith p s = true -> s = (p ++ drop (String.length p) s)%string.
Proof.
  revert s. induction p as [|a p IH]; intros s H; [reflexivity|].
  destruct s as [|b s]; [discriminate|].
  simpl in H. destruct (Ascii.ascii_dec a b) as [->|]; [|discriminate].
  simpl. f_equal. apply IH. exact H.
Qed.

(** What a [data:] line other than the sentinel does, by what the decoder
    makes of its payload. *)
Lemma process_chunk_data (p : string) (st : reader_state) (w : World) :
  p <> "[DONE]" ->
  process_chunk renders loads model ("data: " ++ p) st w =
    match loads p with
    | Ok j =>
        match process_json renders model j st w with
        | Returns st' w' => Returns (Next st') w'
        | Raises JSONDecodeError w' => Returns (Next st) w'
        | Raises e w' => Raises e w'
        end
    | Raise JSONDecodeError => Returns (Next st) w
    | Raise e => Raises e w
    end.
Proof.
  intros Hp. unfold process_chunk.
  rewrite startswith_data.
  change (drop 6 ("data: " ++ p)) with p.
  apply String.eqb_neq in Hp. rewrite Hp.
  unfold except_decode_error, bind, lift, ret.
  destruct (loads p) as [j|e].
  - destruct (process_json renders model j st w) as [st' w'|e w']; [reflexivity|].
    destruct e; reflexivity.
  - destruct e; reflexivity.
Qed.



Lemma read_lines_cons (chunk : string) (rest : list string) (cut : bool)
      (st : reader_state) (w : World) :
  read_lines renders loads model (chunk :: rest) cut st w =
    match process_chunk renders loads model chunk st w with
    | Returns (Next st') w' => read_lines renders loads model rest cut st' w'
    | Returns Stop w' => Returns st w'
    | Raises e w' => Raises e w'
    end.
Proof.
  cbn [read_lines]. unfold bind.
  destruct (process_chunk renders loads model chunk st w) as [[st'|] w'|e w']; reflexivity.
Qed.


(** Only the sentinel line stops the reader. *)
Lemma process_chunk_stop (chunk : string) (st : reader_state) (w w' : World) :
  process_chunk renders loads model chunk st w = Returns Stop w' -> chunk = "data: [DONE]".
Proof.
  unfold process_chunk.
  destruct (startswith "data: " chunk) eqn:Hs; [|discriminate].
  destruct (String.eqb (drop 6 chunk) "[DONE]") eqn:Hd.
  - intros _. apply String.eqb_eq in Hd.
    rewrite (startswith_split _ _ Hs). cbn [String.length]. rewrite Hd. reflexivity.
  - unfold except_decode_error, bind, lift, ret.
    destruct (loads (drop 6 chunk)) as [j|e].
    + destruct (process_json renders model j st w) as [st' w1|e w1]; [discriminate|].
      destruct e; discriminate.
    + destruct e; discriminate.
Qed.

(** Lines without the sentinel are read to their end before the next
    one is looked at. *)
Lemma read_lines_app (l1 l2 : list string) (cut : bool) (st : reader_state) (w : World) :
  ~ In "data: [DONE]" l1 ->
  read_lines renders loads model (l1 ++ l2) cut st w =
    match read_lines renders loads model l1 false st w with
    | Returns st1 w1 => read_lines renders loads model l2 cut st1 w1
    | Raises e w1 => Raises e w1
    end.
Proof.
  revert st w. induction l1 as [|chunk l1 IH]; intros st w Hno; [reflexivity|].
  cbn [app]. rewrite !read_lines_cons.
  destruct (process_chunk renders loads model chunk st w) as [[st'|] w'|e w'] eqn:E.
  - apply IH. intros Hin. apply Hno. right. exact Hin.
  - apply process_chunk_stop in E. destruct Hno. left. exact E.
  - reflexivity.
Qed.

End ReaderFacts.




Lemma example_reader (renders : printed -> bool) (model : json) (rest : list string)
      (cut : bool) (w : World) :
  renders (Increment "Hi") = true ->
  renders (Increment " there") = true ->
  read_lines renders json_loads model ([hi_line; there_line; done_line] ++ rest) cut
             (mkReader "" model) w
    = Returns (mkReader "Hi there" model)
              (log_event (Emit (JStr " there")) (log_event (Emit (JStr "Hi")) w)).
Proof.
  intros Hhi Hthere.
  cbn [app].
  assert (H1 : forall st w0,
             process_chunk renders json_loads model hi_line st w0
             = Returns (Next (mkReader (full_response st ++ "Hi") (actual_model st)))
                       (log_event (Emit (JStr "Hi")) w0)).
  { intros st w0.
    vm_compute. rewrite Hhi. reflexivity. }
  assert (H2 : forall st w0,
             process_chunk renders json_loads model there_line st w0
             = Returns (Next (mkReader (full_response st ++ " there") (actual_model st)))
                       (log_event (Emit (JStr " there")) w0)).
  { intros st w0.
    vm_compute. rewrite Hthere. reflexivity. }
  rewrite read_lines_cons, H1, read_lines_cons, H2, read_lines_cons. reflexivity.
Qed.

(** How a streamed exchange can return: with the model it was asked for
    and no text, or with what the reader made of the lines of a 200
    response. *)
Lemma send_message_stream_returns
      (renders : printed -> bool)
      (chat_post : chat_request -> reply) (chat_stream : chat_request -> stream_reply)
      (loads : string -> result json)
      (message : string) (model : json) (history : list chat_message)
      (w w' : World) (text : option json) (actual : json) :
  send_message renders chat_post chat_stream loads message model history true w
    = Returns (text, actual) w' ->
  (text = None /\ actual = model) \/
  (exists req lines cut st,
     chat_stream req = StreamResponse 200 lines cut /\
     read_lines renders loads model lines cut (mkReader "" model)
                (log_event (HttpPost (Url (req_endpoint req) "/v1/chat/completions")) w)
       = Returns st w' /\
     text = Some (JStr (full_response st)) /\ actual = actual_model st).
Proof.
  intros Hrun. unfold send_message in Hrun.
  cbv beta iota delta [bind get gets] in Hrun.
  destruct (get_active_token w) as [[auth|] w1|e w1] eqn:Htok;
    [ | inversion Hrun; left; split; reflexivity | discriminate Hrun].
  pose proof (get_active_token_pure _ _ _ Htok) as ->.
  destruct (String.eqb auth "") eqn:Hempty;
    [inversion Hrun; left; split; reflexivity|].
  cbv beta iota zeta delta [catch bind modify ret raise lift console_print] in Hrun.
  destruct (chat_stream _) as [| |status lines cut] eqn:Hreply.
  - destruct (renders _); [|discriminate Hrun].
    inversion Hrun; left; split; reflexivity.
  - destruct (renders _); [|discriminate Hrun].
    inversion Hrun; left; split; reflexivity.
  - destruct (Z.eqb status 200) eqn:Hstatus; cbn [negb] in Hrun.
    + apply Z.eqb_eq in Hstatus. subst status.
      destruct (read_lines renders loads model lines cut _ _) as [st w2|e w2] eqn:Hread.
      * inversion Hrun; subst. right.
        eexists _, lines, cut, st. split; [exact Hreply|].
        split; [exact Hread|]. split; reflexivity.
      * destruct e; (destruct (renders _); [|discriminate Hrun]);
          inversion Hrun; left; split; reflexivity.
    + destruct cut.
      * destruct (renders _); [|discriminate Hrun].
        inversion Hrun; left; split; reflexivity.
      * destruct (renders _).
        -- inversion Hrun; left; split; reflexivity.
        -- destruct (renders _); [|discriminate Hrun].
           inversion Hrun; left; split; reflexivity.
Qed.



(** ** The actual model *)

Lemma extract_actual_model_truthy (response_model requested_model : json) :
  extract_actual_model response_model requested_model
    = if truthy response_model then response_model else requested_model.
Proof.
  unfold extract_actual_model.
  destruct (truthy response_model); cbn [negb]; [|reflexivity].
  destruct (json_eqb response_model requested_model); reflexivity.
Qed.

Section ModelFacts.

Variable renders : printed -> bool.
Variable loads : string -> result json.
Variable model : json.

Lemma process_json_actual (j : json) (st st' : reader_state) (w w' : World) :
  process_json renders model j st w = Returns st' w' ->
  actual_model st' =
    match declared model j with Some a => a | None => actual_model st end.
Proof.
  unfold process_json, declared, declaration.
  cbv beta iota delta [bind lift ret raise modify console_print str_in getitem dict_mem].
  intros H.
  destruct j as [| b | z | nz | s | l | fields]; try discriminate H.
  - destruct (contains "choices" s); [discriminate H|]. inversion H; reflexivity.
  - destruct (existsb (json_eqb (JStr "choices")) l); [discriminate H|].
    inversion H; reflexivity.
  - destruct (dict_get "choices" fields) as [c|]; [|inversion H; reflexivity].
    destruct (len c) as [n|]; [|discriminate H].
    destruct (0 <? n)%nat; [|inversion H; reflexivity].
    destruct (dict_get "model" fields) as [m|].
    + destruct (getitem0 c) as [first|]; [|discriminate H].
      destruct (get_method first "delta" (JObj [])) as [delta|]; [|discriminate H].
      destruct (get_method delta "content" (JStr "")) as [content|]; [|discriminate H].
      destruct (truthy content); [|inversion H; reflexivity].
      destruct content; try discriminate H.
      destruct (renders _); [|discriminate H]. inversion H; reflexivity.
    + destruct (getitem0 c) as [first|]; [|discriminate H].
      destruct (get_method first "delta" (JObj [])) as [delta|]; [|discriminate H].
      destruct (get_method delta "content" (JStr "")) as [content|]; [|discriminate H].
      destruct (truthy content); [|inversion H; reflexivity].
      destruct content; try discriminate H.
      destruct (renders _); [|discriminate H]. inversion H; reflexivity.
Qed.

(** What a [data:] line does to the actual model when the loop goes on
    to the next line: the model its payload declares, if it declares one. *)
Lemma process_chunk_actual (p : string) (st st' : reader_state) (w w' : World) :
  p <> "[DONE]" ->
  process_chunk renders loads model ("data: " ++ p) st w = Returns (Next st') w' ->
  actual_model st' =
    match loads p with
    | Ok j =>
        match process_json renders model j st w with
        | Returns _ _ => match declared model j with Some a => a | None => actual_model st end
        | Raises _ _ => actual_model st
        end
    | Raise _ => actual_model st
    end.
Proof.
  intros Hp. rewrite (process_chunk_data renders loads model p st w Hp).
  destruct (loads p) as [j|e].
  - destruct (process_json renders model j st w) as [st1 w1|e w1] eqn:Hj.
    + intros H. inversion H; subst st1 w1. apply (process_json_actual _ _ _ _ _ Hj).
    + destruct e; intros H; try discriminate H; inversion H; reflexivity.
  - destruct e; intros H; try discriminate H; inversion H; reflexivity.
Qed.

(** A line that does not declare a model leaves the actual model alone:
    so does a line with a [model] member and no [choices]. *)
Lemma process_chunk_keeps_model (chunk : string) (st st' : reader_state) (w w' : World) :
  declares loads chunk = false ->
  process_chunk renders loads model chunk st w = Returns (Next st') w' ->
  actual_model st' = actual_model st.
Proof.
  intros Hno H.
  destruct (startswith "data: " chunk) eqn:Hs.
  - destruct (String.eqb (drop 6 chunk) "[DONE]") eqn:Hd.
    + unfold process_chunk in H. rewrite Hs, Hd in H. discriminate H.
    + unfold declares in Hno. rewrite Hs, Hd in Hno.
      apply String.eqb_neq in Hd.
      rewrite (startswith_split _ _ Hs) in H. cbn [String.length] in H.
      rewrite (process_chunk_actual _ _ _ _ _ Hd H).
      destruct (loads (drop 6 chunk)) as [j|e]; [|reflexivity].
      destruct (process_json renders model j st w); [|reflexivity].
      unfold declared. destruct (declaration j); [discriminate Hno | reflexivity].
  - unfold process_chunk in H. rewrite Hs in H. inversion H; reflexivity.
Qed.

Lemma read_lines_keeps_model (lines : list string) (cut : bool)
      (st st' : reader_state) (w w' : World) :
  existsb (declares loads) lines = false ->
  read_lines renders loads model lines cut st w = Returns st' w' ->
  actual_model st' = actual_model st.
Proof.
  revert st w. induction lines as [|chunk lines IH]; intros st w Hno H.
  - cbn [read_lines] in H. destruct cut; [discriminate H|].
    inversion H; reflexivity.
  - cbn [existsb] in Hno. apply orb_false_iff in Hno. destruct Hno as [Hc Hrest].
    rewrite read_lines_cons in H.
    destruct (process_chunk renders loads model chunk st w) as [[st1|] w1|] eqn:Hp;
      [ | inversion H; reflexivity | discriminate H].
    rewrite (IH _ _ Hrest H).
    apply (process_chunk_keeps_model _ _ _ _ _ Hc Hp).
Qed.

(** The errors of the code under [try:] are not the decoder's. *)
Lemma process_json_raises (j : json) (st : reader_state) (w w' : World) (e : exn) :
  process_json renders model j st w = Raises e w' -> e <> JSONDecodeError.
Proof.
  unfold process_json.
  cbv beta iota delta [bind lift ret raise modify console_print str_in getitem dict_mem].
  intros H He. subst e.
  destruct j as [| b | z | nz | s | l | fields]; try discriminate H.
  - destruct (contains "choices" s); discriminate H.
  - destruct (existsb (json_eqb (JStr "choices")) l); discriminate H.
  - destruct (dict_get "choices" fields) as [c|]; [|discriminate H].
    destruct (len c) as [n|e] eqn:El;
      [|inversion H; subst e; destruct c; discriminate El].
    destruct (0 <? n)%nat; [|discriminate H].
    destruct (dict_get "model" fields) as [m|];
      (destruct (getitem0 c) as [first|e] eqn:E0;
       [|inversion H; subst e;
         destruct c as [| ? | ? | ? | [|? ?] | [|? ?] | ?]; discriminate E0];
       destruct first as [| ? | ? | ? | ? | ? | f]; try discriminate H;
       cbn [get_method] in H;
       destruct (dict_get_default "delta" (JObj []) f) as [| ? | ? | ? | ? | ? | g];
       try discriminate H;
       cbn [get_method] in H;
       destruct (truthy _); [|discriminate H];
       destruct (dict_get_default "content" (JStr "") g); try discriminate H;
       destruct (renders _); discriminate H).
Qed.

(** A line that declares a model sets the actual model. *)
Lemma process_chunk_sets_model (p : string) (f : dict json) (c m : json) (n : nat)
      (st st' : reader_state) (w w' : World) :
  p <> "[DONE]" -> loads p = Ok (JObj f) ->
  dict_get "choices" f = Some c -> len c = Ok n -> (0 < n)%nat ->
  dict_get "model" f = Some m ->
  process_chunk renders loads model ("data: " ++ p) st w = Returns (Next st') w' ->
  actual_model st' = extract_actual_model m model.
Proof.
  intros Hp Hload Hc Hlen Hn Hm H.
  pose proof (process_chunk_actual p st st' w w' Hp H) as Hact.
  rewrite (process_chunk_data renders loads model p st w Hp) in H.
  rewrite Hload in Hact, H.
  destruct (process_json renders model (JObj f) st w) as [st1 w1|e w1] eqn:Hj.
  - rewrite Hact. unfold declared, declaration. rewrite Hc, Hlen, Hm.
    apply Nat.ltb_lt in Hn. rewrite Hn. reflexivity.
  - pose proof (process_json_raises _ _ _ _ _ Hj) as He.
    destruct e; try discriminate H. destruct (He eq_refl).
Qed.

Lemma read_lines_last_declared (l1 l2 : list string)
      (p : string) (f : dict json) (c m : json) (n : nat) (cut : bool)
      (st st' : reader_state) (w w' : World) :
  ~ In "data: [DONE]" l1 ->
  p <> "[DONE]" -> loads p = Ok (JObj f) ->
  dict_get "choices" f = Some c -> len c = Ok n -> (0 < n)%nat ->
  dict_get "model" f = Some m ->
  existsb (declares loads) l2 = false ->
  read_lines renders loads model (l1 ++ ("data: " ++ p)%string :: l2) cut st w
    = Returns st' w' ->
  actual_model st' = extract_actual_model m model.
Proof.
  intros Hreach Hp Hload Hc Hlen Hn Hm Hafter H.
  rewrite (read_lines_app renders loads model l1 _ cut st w Hreach) in H.
  destruct (read_lines renders loads model l1 false st w) as [st0 w0|e w0];
    [|discriminate H].
  rewrite read_lines_cons in H.
  destruct (process_chunk renders loads model ("data: " ++ p) st0 w0)
    as [[st1|] w1|] eqn:Hline; [ | | discriminate H].
  - rewrite (read_lines_keeps_model _ _ _ _ _ _ Hafter H).
    apply (process_chunk_sets_model p f c m n st0 st1 w0 w1); assumption.
  - apply process_chunk_stop in Hline. inversion Hline. contradiction.
Qed.

End ModelFacts.

(** C7 (as amended).  In streaming mode:
    - a [data:] line that is reached before the sentinel, decodes to an
      object with a non-empty [choices] and carries a [model] member [m]
      sets the actual model to [m] when [m] is truthy and to the requested
      model when it is not; when no later line declares a model in that
      way, that is the actual model the reader ends with (last seen wins),
      whatever else the later lines carry;
    - a line that does not declare a model, as a line with a [model]
      member and no [choices] or an empty one, leaves the actual model as
      it was;
    - when no line of the stream declares a model, the model
      [send_message] returns is the requested one. *)
Theorem stream_actual_model_last_declared
        (renders : printed -> bool) (loads : string -> result json) (model : json) :
  (forall (l1 l2 : list string) (p : string) (f : dict json) (c m : json) (n : nat)
          (cut : bool) (st st' : reader_state) (w w' : World),
     ~ In "data: [DONE]" l1 ->
     p <> "[DONE]" -> loads p = Ok (JObj f) ->
     dict_get "choices" f = Some c -> len c = Ok n -> (0 < n)%nat ->
     dict_get "model" f = Some m ->
     existsb (declares loads) l2 = false ->
     read_lines renders loads model (l1 ++ ("data: " ++ p)%string :: l2) cut st w
       = Returns st' w' ->
     actual_model st' = if truthy m then m else model) /\
  (forall (chunk : string) (st st' : reader_state) (w w' : World),
     declares loads chunk = false ->
     process_chunk renders loads model chunk st w = Returns (Next st') w' ->
     actual_model st' = actual_model st) /\
  (forall (chat_post : chat_request -> reply) (chat_stream : chat_request -> stream_reply)
          (message : string) (history : list chat_message)
          (w w' : World) (text : option json) (actual : json),
     (forall req status lines cut,
        chat_stream req = StreamResponse status lines cut ->
        existsb (declares loads) lines = false) ->
     send_message renders chat_post chat_stream loads message model history true w
       = Returns (text, actual) w' ->
     actual = model).
Proof.
  split; [|split].
  - intros l1 l2 p f c m n cut st st' w w' Hreach Hp Hload Hc Hlen Hn Hm Hafter Hrun.
    rewrite <- extract_actual_model_truthy.
    apply (read_lines_last_declared renders loads model l1 l2 p f c m n cut st st' w w');
      assumption.
  - apply process_chunk_keeps_model.
  - intros chat_post chat_stream message history w w' text actual Hnone Hrun.
    destruct (send_message_stream_returns _ _ _ _ _ _ _ _ _ _ _ Hrun)
      as [[_ Hactual]|(req & lines & cut & st & Hreply & Hread & _ & Hactual)];
      [exact Hactual|].
    rewrite Hactual.
    apply (read_lines_keeps_model renders loads model lines cut _ _ _ _
             (Hnone _ _ _ _ Hreply) Hread).
Qed.

Lemma stream_actual_model_last_declared_witness :
  (exists st' w',
     read_lines strict_console json_loads (JStr "gpt-4")
                [mini_line; full_line; bare_turbo_line; no_choice_line; there_line; done_line]
                false (mkReader "" (JStr "gpt-4")) one_token = Returns st' w' /\
     actual_model st' = JStr "gpt-4o") /\
  declares json_loads bare_turbo_line = false /\
  (exists st' w',
     process_chunk strict_console json_loads (JStr "gpt-4") bare_turbo_line
                   (mkReader "Hi" (JStr "gpt-4o")) one_token = Returns (Next st') w' /\
     actual_model st' = JStr "gpt-4o") /\
  (exists text w',
     send_message strict_console (fun _ => Failed)
                  (fun _ => StreamResponse 200 [hi_line; bare_turbo_line; there_line; done_line]
                                           false)
                  json_loads "hello" (JStr "gpt-4") [mkMessage "user" (JStr "hello")] true
                  one_token
       = Returns (text, JStr "gpt-4") w').
Proof.
  destruct (stream_actual_model_last_declared strict_console json_loads (JStr "gpt-4"))
    as (Hlast & Hkeep & Hdefault).
  split; [|split; [reflexivity|split]].
  - destruct (read_lines strict_console json_loads (JStr "gpt-4")
                [mini_line; full_line; bare_turbo_line; no_choice_line; there_line; done_line]
                false (mkReader "" (JStr "gpt-4")) one_token) as [st' w'|e w'] eqn:Hrun.
    + exists st', w'. split; [reflexivity|].
      apply (Hlast [mini_line] [bare_turbo_line; no_choice_line; there_line; done_line]
                   (qq "{'model':'gpt-4o','choices':[{'delta':{'content':' there'}}]}")
                   [("model", JStr "gpt-4o");
                    ("choices", JArr [JObj [("delta", JObj [("content", JStr " there")])]])]
                   (JArr [JObj [("delta", JObj [("content", JStr " there")])]])
                   (JStr "gpt-4o") 1%nat false
                   (mkReader "" (JStr "gpt-4")) st' one_token w').
      * intros [H|[]]; discriminate H.
      * discriminate.
      * reflexivity.
      * reflexivity.
      * reflexivity.
      * lia.
      * reflexivity.
      * reflexivity.
      * exact Hrun.
    + vm_compute in Hrun. discriminate Hrun.
  - destruct (process_chunk strict_console json_loads (JStr "gpt-4") bare_turbo_line
                (mkReader "Hi" (JStr "gpt-4o")) one_token) as [[st'|] w'|e w'] eqn:Hrun.
    + exists st', w'. split; [reflexivity|].
      apply (Hkeep bare_turbo_line (mkReader "Hi" (JStr "gpt-4o")) st' one_token w');
        [reflexivity | exact Hrun].
    + vm_compute in Hrun. discriminate Hrun.
    + vm_compute in Hrun. discriminate Hrun.
  - destruct (send_message strict_console (fun _ => Failed)
                (fun _ => StreamResponse 200 [hi_line; bare_turbo_line; there_line; done_line]
                                         false)
                json_loads "hello" (JStr "gpt-4") [mkMessage "user" (JStr "hello")] true
                one_token) as [[text actual] w'|e w'] eqn:Hrun.
    + exists text, w'.
      assert (Hactual : actual = JStr "gpt-4").
      { eapply Hdefault; [|exact Hrun].
        intros req status lines cut H. inversion H. reflexivity. }
      rewrite Hactual. reflexivity.
    + vm_compute in Hrun. discriminate Hrun.
Defined.

(** C7, as first stated, fails for a decoded line that carries a [model]
    member and no [choices]: the reader ends with the requested model, not
    with the line's.  It also fails for an empty [model] member, after
    which the actual model is the requested one again. *)
Lemma model_line_without_choices_counterexample :
  json_loads (qq "{'model':'gpt-4o'}") = Ok (JObj [("model", JStr "gpt-4o")]) /\
  read_lines strict_console json_loads (JStr "gpt-4") [bare_model_line; done_line] false
             (mkReader "" (JStr "gpt-4")) one_token
    = Returns (mkReader "" (JStr "gpt-4")) one_token /\
  read_lines strict_console json_loads (JStr "gpt-4")
             [mini_line; empty_model_line; done_line] false
             (mkReader "" (JStr "gpt-4")) one_token
    = Returns (mkReader "HiHi" (JStr "gpt-4"))
              (log_event (Emit (JStr "Hi")) (log_event (Emit (JStr "Hi")) one_token)).
Proof. repeat split. Qed.
(** ** The chat turn *)

Section TurnFacts.

Variable renders : printed -> bool.
Variable chat_post : chat_request -> reply.
Variable chat_stream : chat_request -> stream_reply.
Variable loads : string -> result json.

(** When the exchange gives no text, the turn keeps the user entry and
    nothing else. *)
Lemma chat_turn_no_text (user_input : string) (s : Session) (w w' : World) (m : json) :
  send_message renders chat_post chat_stream loads user_input (current_model s)
               (conversation_history s ++ [mkMessage "user" (JStr user_input)])
               (current_stream s) w = Returns (None, m) w' ->
  chat_turn renders chat_post chat_stream loads user_input s w
    = Returns (mkSession (current_model s) (current_stream s)
                         (conversation_history s ++ [mkMessage "user" (JStr user_input)])) w'.
Proof.
  intros H. unfold chat_turn. cbv beta iota zeta delta [catch bind ret].
  rewrite H. reflexivity.
Qed.

(** A failing request gives no text: the exchange returns none, or an
    exception leaves it. *)
Lemma send_message_fails (message : string) (model : json) (history : list chat_message)
      (stream : bool) (w : World) :
  (forall req, request_fails chat_post chat_stream req = true) ->
  (exists w', send_message renders chat_post chat_stream loads message model history stream w
                = Returns (None, model) w') \/
  (exists e w', send_message renders chat_post chat_stream loads message model history stream w
                  = Raises e w').
Proof.
  intros Hfail.
  destruct (get_active_token w) as [[auth|] w1|e w1] eqn:Htok.
  - pose proof (get_active_token_pure _ _ _ Htok) as ->.
    destruct (String.eqb auth "") eqn:Hempty.
    + left. exists w. unfold send_message.
      cbv beta iota delta [bind get gets]. rewrite Htok, Hempty. reflexivity.
    + send_message_start Htok Hempty.
      destruct stream.
      * match goal with |- context [chat_stream ?r] =>
          specialize (Hfail r); unfold request_fails in Hfail; cbn [req_stream] in Hfail;
          destruct (chat_stream r) as [| |status lines cut] end;
          try settle renders.
        cbn [stream_fails] in Hfail. rewrite Hfail.
        destruct cut; settle renders.
      * match goal with |- context [chat_post ?r] =>
          specialize (Hfail r); unfold request_fails in Hfail; cbn [req_stream] in Hfail;
          destruct (chat_post r) as [| | |status text] end;
          try settle renders.
        cbn [post_fails] in Hfail. rewrite Hfail.
        settle renders.
  - pose proof (get_active_token_pure _ _ _ Htok) as ->.
    left. exists w. unfold send_message.
    cbv beta iota delta [bind get gets]. rewrite Htok. reflexivity.
  - right. exists e, w1. unfold send_message.
    cbv beta iota delta [bind get gets]. rewrite Htok. reflexivity.
Qed.

(** C5 (as amended).  A chat turn whose request fails (no connection, a
    client error, or a status other than 200) ends with the history it
    started from extended by the turn's user entry: the user entry stays,
    no assistant entry is added, and the selected model and streaming flag
    are unchanged.  More generally, that is the outcome whenever
    [send_message] returns no text. *)
Theorem failed_turn_keeps_only_user_entry (user_input : string) (s : Session) (w : World) :
  ((forall req, request_fails chat_post chat_stream req = true) ->
   exists w',
     chat_turn renders chat_post chat_stream loads user_input s w
       = Returns (mkSession (current_model s) (current_stream s)
                            (conversation_history s ++ [mkMessage "user" (JStr user_input)]))
                 w') /\
  (forall (m : json) (w' : World),
     send_message renders chat_post chat_stream loads user_input (current_model s)
                  (conversation_history s ++ [mkMessage "user" (JStr user_input)])
                  (current_stream s) w = Returns (None, m) w' ->
     chat_turn renders chat_post chat_stream loads user_input s w
       = Returns (mkSession (current_model s) (current_stream s)
                            (conversation_history s ++ [mkMessage "user" (JStr user_input)]))
                 w').
Proof.
  split.
  - intros Hfail.
    destruct (send_message_fails user_input (current_model s)
                (conversation_history s ++ [mkMessage "user" (JStr user_input)])
                (current_stream s) w Hfail) as [(w' & H)|(e & H)].
    + exists w'. apply (chat_turn_no_text _ _ _ _ _ H).
    + destruct H as (w' & H).
      exists w'. unfold chat_turn. cbv beta iota zeta delta [catch bind ret].
      rewrite H. reflexivity.
  - intros m w' H. apply (chat_turn_no_text _ _ _ _ _ H).
Qed.

End TurnFacts.

Lemma failed_turn_keeps_only_user_entry_witness :
  exists w',
    chat_turn strict_console
              (fun _ => ConnectionFailed) (fun _ => StreamResponse 503 [] false) json_loads
              "are you there?" greeted one_token
      = Returns (mkSession (JStr "gpt-4") true
                   [mkMessage "user" (JStr "hello"); mkMessage "assistant" (JStr "Hi there");
                    mkMessage "user" (JStr "are you there?")]) w'.
Proof.
  destruct (failed_turn_keeps_only_user_entry strict_console
              (fun _ => ConnectionFailed) (fun _ => StreamResponse 503 [] false) json_loads
              "are you there?" greeted one_token) as (Hfail & _).
  assert (Hdown : forall req,
             request_fails (fun _ => ConnectionFailed) (fun _ => StreamResponse 503 [] false) req
               = true)
    by (intros req; unfold request_fails; destruct (req_stream req); reflexivity).
  destruct (Hfail Hdown) as (w' & Hrun).
  exists w'. exact Hrun.
Defined.

(** C5, as first stated, fails: after a turn that cannot connect the
    history is one entry longer than before the turn. *)
Lemma failed_turn_counterexample :
  stream_fails StreamConnectError = true /\
  (exists w',
     chat_turn strict_console (fun _ => ConnectionFailed) (fun _ => StreamConnectError)
               json_loads "are you there?" greeted one_token
       = Returns (mkSession (JStr "gpt-4") true
                    (conversation_history greeted
                       ++ [mkMessage "user" (JStr "are you there?")])) w') /\
  conversation_history greeted ++ [mkMessage "user" (JStr "are you there?")]
    <> conversation_history greeted.
Proof.
  split; [reflexivity|]. split; [eexists; reflexivity|]. discriminate.
Qed.

(** * Further properties *)

(** ** normalize_endpoint, Config.set and Config.get *)

Lemma rstrip_slash_split (s : string) :
  exists k, s = (rstrip_slash s ++ slashes k)%string /\
            ends_with_slash (rstrip_slash s) = false.
Proof.
  induction s as [|c r (k & Hr & He)].
  - exists 0. split; reflexivity.
  - cbn [rstrip_slash].
    destruct (Ascii.eqb c "/") eqn:Ec; cbn [andb].
    + destruct (String.eqb (rstrip_slash r) "") eqn:Er.
      * apply String.eqb_eq in Er. rewrite Er in Hr. cbn in Hr.
        apply Ascii.eqb_eq in Ec. subst c.
        exists (S k). cbn. rewrite <- Hr. split; reflexivity.
      * exists k. cbn [String.append]. rewrite <- Hr. split; [reflexivity|].
        cbn [ends_with_slash]. destruct (rstrip_slash r); [discriminate Er|exact He].
    + exists k. cbn [String.append]. rewrite <- Hr. split; [reflexivity|].
      cbn [ends_with_slash]. destruct (rstrip_slash r); [exact Ec|exact He].
Qed.

Lemma rstrip_slash_fixed (s : string) :
  ends_with_slash s = false -> rstrip_slash s = s.
Proof.
  induction s as [|c r IH]; [reflexivity|].
  cbn [ends_with_slash rstrip_slash]. intros H.
  destruct r as [|c' r'].
  - cbn. rewrite H. reflexivity.
  - rewrite (IH H). destruct (Ascii.eqb c "/"); reflexivity.
Qed.

(** X1.  [normalize_endpoint] removes the run of slashes an endpoint ends
    with and nothing else: the endpoint is the result followed by
    slashes only, the result does not end with a slash, and normalising
    twice is normalising once. *)
Theorem normalize_endpoint_strips_trailing_slashes (endpoint : string) :
  (exists k, endpoint = (normalize_endpoint endpoint ++ slashes k)%string) /\
  ends_with_slash (normalize_endpoint endpoint) = false /\
  normalize_endpoint (normalize_endpoint endpoint) = normalize_endpoint endpoint.
Proof.
  unfold normalize_endpoint.
  destruct (String.eqb endpoint "") eqn:E; cbn [negb].
  - apply String.eqb_eq in E; subst. repeat split. exists 0; reflexivity.
  - destruct (rstrip_slash_split endpoint) as (k & Hsplit & Hend).
    split; [exists k; exact Hsplit|]. split; [exact Hend|].
    destruct (String.eqb (rstrip_slash endpoint) ""); cbn [negb]; [reflexivity|].
    apply rstrip_slash_fixed; exact Hend.
Qed.

(** X2.  [Config.set] followed by [Config.get]: the key reads back the
    value it was given, the endpoint key the normalised value; every
    other key reads as before; the configuration file holds the
    configuration in memory, and tokens and API keys are untouched. *)
Theorem set_then_get (key value : string) (w : World) :
  exists w',
    Cli.set key value w = Returns tt w' /\
    (forall default,
       Cli.get key default w'
         = Returns (JStr (if String.eqb key "api_endpoint"
                          then normalize_endpoint value else value)) w') /\
    (forall other default, other <> key ->
       Cli.get other default w' = Returns (dict_get_default other default (config w)) w') /\
    config_json w' = Some (config w') /\
    tokens w' = tokens w /\ apikeys w' = apikeys w /\
    tokens_json w' = tokens_json w /\ apikeys_json w' = apikeys_json w.
Proof.
  eexists. split; [reflexivity|].
  cbn [config tokens apikeys config_json tokens_json apikeys_json
       set_config set_config_json log_event].
  assert (Hval : (if String.eqb key "api_endpoint" && negb (String.eqb value "")
                  then normalize_endpoint value else value)
                 = (if String.eqb key "api_endpoint"
                    then normalize_endpoint value else value)).
  { destruct (String.eqb key "api_endpoint"); [|reflexivity].
    destruct (String.eqb value "") eqn:E; [|reflexivity].
    apply String.eqb_eq in E; subst; reflexivity. }
  split; [|split; [|repeat split]].
  - intros default. unfold Cli.get, gets, dict_get_default.
    cbn [config set_config set_config_json log_event].
    rewrite dict_get_set_same, Hval. reflexivity.
  - intros other default Hne. unfold Cli.get, gets, dict_get_default.
    cbn [config set_config set_config_json log_event].
    rewrite dict_get_set_other by exact Hne. reflexivity.
Qed.

(** ** Tokens *)

Lemma get_active_token_named (w : World) (n v : string) :
  n <> "" ->
  dict_get "active_token" (config w) = Some (JStr n) ->
  dict_get n (tokens w) = Some v ->
  get_active_token w = Returns (Some v) w.
Proof.
  intros Hn Hact Htok. unfold get_active_token.
  cbv beta iota delta [bind gets lift ret]. unfold dict_get_default. rewrite Hact.
  cbn [truthy value_in_dict]. apply String.eqb_neq in Hn. rewrite Hn. cbn [negb].
  unfold dict_mem. rewrite Htok. reflexivity.
Qed.

Lemma get_active_token_fallback (w : World) :
  match active_value w with
  | JStr n => dict_mem n (tokens w) = false
  | v => hashable v = true
  end ->
  get_active_token w = Returns (hd_error (dict_values (tokens w))) w.
Proof.
  unfold get_active_token, active_value.
  cbv beta iota delta [bind gets lift ret].
  destruct (dict_get_default "active_token" JNull (config w)) as [|b|z|nz|s|l|f];
    cbn [truthy value_in_dict hashable]; intros H; try discriminate H.
  - destruct (dict_values (tokens w)); reflexivity.
  - destruct b; destruct (dict_values (tokens w)); reflexivity.
  - destruct (negb (z =? 0)%Z); destruct (dict_values (tokens w)); reflexivity.
  - destruct nz; destruct (dict_values (tokens w)); reflexivity.
  - rewrite H. destruct (negb (String.eqb s "")); destruct (dict_values (tokens w)); reflexivity.
Qed.

(** X3.  [use_token n] on a name that is not stored returns [False] and
    changes nothing.  On a stored name it returns [True], records [n] as
    the active token and persists the configuration; [get_active_token]
    then gives that token's value, except for the empty name, which reads
    as no selection: the first token in iteration order is given. *)
Theorem use_token_then_active_token (w : World) (n : string) :
  (dict_mem n (tokens w) = false -> use_token n w = Returns false w) /\
  (forall v, dict_get n (tokens w) = Some v ->
     exists w',
       use_token n w = Returns true w' /\
       tokens w' = tokens w /\
       dict_get "active_token" (config w') = Some (JStr n) /\
       config_json w' = Some (config w') /\
       (n <> "" -> get_active_token w' = Returns (Some v) w') /\
       (n = "" -> get_active_token w' = Returns (hd_error (dict_values (tokens w))) w')).
Proof.
  split.
  - intros Habs. unfold use_token, bind, gets. rewrite Habs. reflexivity.
  - intros v Hv.
    assert (Hmem : dict_mem n (tokens w) = true) by (unfold dict_mem; rewrite Hv; reflexivity).
    eexists. split.
    { unfold use_token, bind, gets, modify, save_config, ret. rewrite Hmem. reflexivity. }
    cbn [tokens config config_json set_config set_config_json log_event].
    split; [reflexivity|]. split; [apply dict_get_set_same|]. split; [reflexivity|]. split.
    + intros Hn. apply (get_active_token_named _ n v Hn).
      * cbn [config set_config set_config_json log_event]. apply dict_get_set_same.
      * exact Hv.
    + intros Hn. subst n. unfold get_active_token.
      cbv beta iota delta [bind gets lift ret]. unfold dict_get_default.
      cbn [config tokens set_config set_config_json log_event].
      rewrite dict_get_set_same. cbn [truthy String.eqb negb].
      destruct (dict_values (tokens w)); reflexivity.
Qed.

Lemma use_token_then_active_token_witness :
  dict_get "home" (tokens two_tokens) = Some "eyJ-home-token" /\
  use_token "guest" two_tokens = Returns false two_tokens /\
  exists w',
    use_token "home" two_tokens = Returns true w' /\
    get_active_token w' = Returns (Some "eyJ-home-token") w'.
Proof.
  destruct (use_token_then_active_token two_tokens "guest") as (Habsent & _).
  destruct (use_token_then_active_token two_tokens "home") as (_ & Hpresent).
  destruct (Hpresent "eyJ-home-token" eq_refl) as (w' & Hrun & _ & _ & _ & Hnamed & _).
  split; [reflexivity|]. split; [exact (Habsent eq_refl)|].
  exists w'. split; [exact Hrun|]. apply Hnamed. discriminate.
Defined.

Section TokenFacts.

Variable http_post : url -> reply.

Lemma add_token_runs (name token : string) (sync : bool) (w : World) :
  token_txt_writable w = true ->
  add_token http_post name token sync w
    = Returns tt
        (log_events
           (FileWrite TOKENS_FILE :: FileWrite TOKEN_TXT
              :: (if sync then sync_request "/admin/sync/tokens" w else []))
           (set_token_txt (token_txt w ++ [token])
              (set_tokens_json (Some (dict_set name token (tokens w)))
                 (set_tokens (dict_set name token (tokens w)) w)))).
Proof.
  intros Hw. unfold add_token.
  cbv beta iota delta [bind modify save_tokens ret sync_tokens_to_server
                       sync_collection Cli.get gets append_token_txt].
  cbn [token_txt_writable set_tokens set_tokens_json log_event tokens token_txt config].
  rewrite Hw.
  unfold sync_request, endpoint_of, log_events, log_event, set_token_txt, set_tokens_json,
    set_tokens.
  cbn.
  destruct sync.
  - destruct (json_eqb _ _).
    + rewrite <- !app_assoc. reflexivity.
    + destruct (http_post _); cbn; rewrite <- !app_assoc; reflexivity.
  - rewrite <- !app_assoc. reflexivity.
Qed.

(** X4.  On a store without tokens, [add_token] followed by
    [get_active_token] gives the value just added, whatever name the
    active token reference holds (as long as Python can hash it). *)
Theorem add_first_token_is_active (name token : string) (sync : bool) (w : World) :
  tokens w = [] ->
  token_txt_writable w = true ->
  hashable (active_value w) = true ->
  exists w',
    add_token http_post name token sync w = Returns tt w' /\
    get_active_token w' = Returns (Some token) w'.
Proof.
  intros Hempty Hw Hhash.
  eexists. split; [apply (add_token_runs name token sync w Hw)|].
  unfold get_active_token, active_value in *.
  cbv beta iota delta [bind gets lift ret].
  cbn [log_events config tokens set_token_txt set_tokens_json set_tokens].
  rewrite Hempty. cbn [dict_set dict_values map snd].
  destruct (dict_get_default "active_token" JNull (config w)) as [|b|z|nz|s|l|f];
    cbn [truthy value_in_dict hashable] in *; try discriminate Hhash.
  - reflexivity.
  - destruct b; reflexivity.
  - destruct (negb (z =? 0)%Z); reflexivity.
  - destruct nz; reflexivity.
  - destruct (negb (String.eqb s "")); [|reflexivity].
    unfold dict_mem. cbn [dict_get].
    destruct (String.eqb s name); reflexivity.
Qed.

Lemma dict_set_keys_present {V} (k : string) (v : V) (d : dict V) :
  dict_mem k d = true -> map fst (dict_set k v d) = map fst d.
Proof.
  unfold dict_mem. induction d as [|[k' v'] d IH]; cbn; [discriminate|].
  destruct (String.eqb k k'); [reflexivity|].
  intros H. cbn. f_equal. apply IH. exact H.
Qed.

Lemma dict_set_keys_absent {V} (k : string) (v : V) (d : dict V) :
  dict_mem k d = false -> dict_set k v d = d ++ [(k, v)].
Proof.
  unfold dict_mem. induction d as [|[k' v'] d IH]; cbn; [reflexivity|].
  destruct (String.eqb k k'); [discriminate|].
  intros H. f_equal. apply IH. exact H.
Qed.

(** X5.  When the token log can be opened for appending, [add_token] is
    an upsert that keeps the iteration order: a new name goes last, a
    stored name keeps its place and takes the new value, and every other
    token reads as before.  The collection is persisted and the value is
    appended to the token log. *)
Theorem add_token_upserts_in_place (name token : string) (sync : bool) (w : World) :
  token_txt_writable w = true ->
  exists w',
    add_token http_post name token sync w = Returns tt w' /\
    dict_get name (tokens w') = Some token /\
    (forall other, other <> name -> dict_get other (tokens w') = dict_get other (tokens w)) /\
    (dict_mem name (tokens w) = true -> map fst (tokens w') = map fst (tokens w)) /\
    (dict_mem name (tokens w) = false -> tokens w' = tokens w ++ [(name, token)]) /\
    tokens_json w' = Some (tokens w') /\
    token_txt w' = token_txt w ++ [token] /\
    config w' = config w /\ apikeys w' = apikeys w.
Proof.
  intros Hw.
  eexists. split; [apply (add_token_runs name token sync w Hw)|].
  cbn [log_events config tokens apikeys tokens_json token_txt
       set_token_txt set_tokens_json set_tokens].
  split; [apply dict_get_set_same|].
  split; [intros other Hne; apply dict_get_set_other; exact Hne|].
  split; [apply dict_set_keys_present|].
  split; [apply dict_set_keys_absent|].
  repeat split.
Qed.

End TokenFacts.

Lemma add_first_token_is_active_witness :
  exists w',
    add_token (fun _ => Failed) "work" "eyJ-work-token" true
              (mkWorld default_config [] [] None None None [] true [])
      = Returns tt w' /\
    get_active_token w' = Returns (Some "eyJ-work-token") w'.
Proof.
  apply (add_first_token_is_active (fun _ => Failed) "work" "eyJ-work-token" true
           (mkWorld default_config [] [] None None None [] true [])
           eq_refl eq_refl eq_refl).
Defined.

Lemma add_token_upserts_in_place_witness :
  exists w',
    add_token (fun _ => Failed) "work" "eyJ-new-work-token" false two_tokens = Returns tt w' /\
    dict_get "work" (tokens w') = Some "eyJ-new-work-token" /\
    dict_get "home" (tokens w') = Some "eyJ-home-token" /\
    map fst (tokens w') = ["work"; "home"].
Proof.
  destruct (add_token_upserts_in_place (fun _ => Failed) "work" "eyJ-new-work-token" false
              two_tokens eq_refl)
    as (w' & Hrun & Hnew & Hother & Hkeys & _).
  exists w'. split; [exact Hrun|]. split; [exact Hnew|]. split.
  - rewrite (Hother "home"); [reflexivity | discriminate].
  - exact (Hkeys eq_refl).
Defined.

(** ** API keys through the middleware *)


Lemma in_dict_del {V : Type} (k : string) (d : dict V) (x : string * V) :
  In x (dict_del k d) -> In x d /\ fst x <> k.
Proof.
  rewrite dict_del_filter. intros H. apply filter_In in H. destruct H as [Hin Hk].
  split; [exact Hin|]. intros Heq. rewrite Heq, String.eqb_refl in Hk. discriminate Hk.
Qed.

(** The mapping when both files hold a collection. *)
Lemma map_holds (entries : dict json) (toks : dict string) (v : string) :
  startswith "sk-" v = true ->
  fst (map_apikey_to_token (mkFiles (Holds (JObj entries)) (Holds toks)) v)
    = match search v toks entries with Ok t => t | Raise _ => v end.
Proof. intros Hsk. rewrite (map_unfold _ v Hsk). reflexivity. Qed.

(** Entries that carry the key and name a token that does not exist are
    stepped over, unless the name is [auto]. *)
Lemma search_dangling (k tn : string) (toks : dict string) (entries : dict json) :
  tn <> "auto" ->
  dict_get tn toks = None ->
  (forall n f, In (n, JObj f) entries -> carries k f ->
               dict_get "token_name" f = Some (JStr tn)) ->
  search k toks entries = Ok k.
Proof.
  intros Hauto Hnone.
  induction entries as [|[n d] entries IH]; intros H; [reflexivity|].
  cbn [search].
  destruct d as [| b | z | nz | s | l | fields];
    try (apply IH; intros; eapply H; [right|]; eassumption).
  destruct (json_eqb (dict_get_default "key" JNull fields) (JStr k)) eqn:E.
  - apply carries_eqb in E.
    unfold dict_get_default. rewrite (H n fields (or_introl eq_refl) E).
    cbn [value_in_dict rbind]. unfold dict_mem. rewrite Hnone.
    cbn [json_eqb]. apply String.eqb_neq in Hauto. rewrite Hauto. cbn [andb].
    apply IH; intros; eapply H; [right|]; eassumption.
  - apply IH; intros; eapply H; [right|]; eassumption.
Qed.

(** When every entry that carries the key names the same existing token,
    the search gives that token as soon as one entry carries the key. *)
Lemma search_bound (k tn tv : string) (toks : dict string) (entries : dict json) :
  dict_get tn toks = Some tv ->
  (forall n f, In (n, JObj f) entries -> carries k f ->
               dict_get "token_name" f = Some (JStr tn)) ->
  (exists n f, In (n, JObj f) entries /\ carries k f) ->
  search k toks entries = Ok tv.
Proof.
  intros Htok.
  induction entries as [|[n d] entries IH]; intros H (n0 & f0 & Hin & Hcar); [destruct Hin|].
  cbn [search].
  assert (Hrest : forall n f, In (n, JObj f) entries -> carries k f ->
                              dict_get "token_name" f = Some (JStr tn))
    by (intros; eapply H; [right|]; eassumption).
  destruct d as [| b | z | nz | s | l | fields];
    try (apply IH; [exact Hrest|]; destruct Hin as [Hin|Hin];
         [discriminate Hin | exists n0, f0; split; assumption]).
  destruct (json_eqb (dict_get_default "key" JNull fields) (JStr k)) eqn:E.
  - apply carries_eqb in E.
    unfold dict_get_default. rewrite (H n fields (or_introl eq_refl) E).
    cbn [value_in_dict rbind]. unfold dict_mem. rewrite Htok. reflexivity.
  - apply IH; [exact Hrest|]. destruct Hin as [Hin|Hin].
    + inversion Hin; subst. apply carries_eqb in Hcar. rewrite Hcar in E. discriminate E.
    + exists n0, f0; split; assumption.
Qed.

(** Without tokens no key is mapped. *)
Lemma search_no_tokens (k : string) (entries : dict json) :
  match search k [] entries with Ok t => t | Raise _ => k end = k.
Proof.
  induction entries as [|[n d] entries IH]; [reflexivity|].
  cbn [search].
  destruct d as [| b | z | nz | s | l | fields]; try exact IH.
  destruct (json_eqb (dict_get_default "key" JNull fields) (JStr k)); [|exact IH].
  destruct (dict_get_default "token_name" (JStr "auto") fields) as [| b | z | nz | s | l | f];
    cbn [value_in_dict rbind dict_mem dict_get]; try reflexivity;
    try (rewrite andb_false_r; exact IH).
Qed.

Section KeyFacts.

Variable http_post : url -> reply.


End KeyFacts.


(** X7.  [remove_apikey] on a name that is not stored returns [False] and
    changes nothing.  On a stored name it returns [True], the entry is
    gone, every other entry is kept and the collection is persisted; a
    key that only that entry carried is no longer mapped by the
    middleware, whatever the tokens are, and a request whose header reads
    it is handed on as it came. *)
Theorem removed_apikey_is_no_longer_mapped (name key : string) (w : World) :
  startswith "sk-" key = true ->
  (forall n f, In (n, JObj f) (apikeys w) -> carries key f -> n = name) ->
  (dict_mem name (apikeys w) = false -> remove_apikey name w = Returns false w) /\
  (dict_mem name (apikeys w) = true ->
   exists w',
     remove_apikey name w = Returns true w' /\
     dict_get name (apikeys w') = None /\
     (forall other, other <> name ->
        dict_get other (apikeys w') = dict_get other (apikeys w)) /\
     apikeys_json w' = Some (apikeys w') /\
     tokens w' = tokens w /\ config w' = config w /\
     forall (toks : dict string),
       fst (map_apikey_to_token (mkFiles (Holds (JObj (apikeys w'))) (Holds toks)) key)
         = key /\
       forall (Reply : Type) (call_next : headers -> Reply) (hs : headers),
         request_header "authorization" "" hs = ("Bearer " ++ key)%string ->
         forwarded Reply
           (dispatch Reply call_next (mkFiles (Holds (JObj (apikeys w'))) (Holds toks)) hs)
           = hs).
Proof.
  intros Hsk Honly. split.
  - intros Habs. unfold remove_apikey, bind, gets. rewrite Habs. reflexivity.
  - intros Hpres. eexists. split.
    { unfold remove_apikey, bind, gets, modify, save_apikeys, ret.
      rewrite Hpres. reflexivity. }
    cbn [tokens config apikeys apikeys_json set_apikeys set_apikeys_json log_event].
    split; [apply dict_get_del_same|].
    split; [intros other Hne; apply dict_get_del_other; exact Hne|].
    split; [reflexivity|]. split; [reflexivity|]. split; [reflexivity|].
    intros toks.
    assert (Hmap : fst (map_apikey_to_token
                          (mkFiles (Holds (JObj (dict_del name (apikeys w)))) (Holds toks))
                          key) = key).
    { rewrite (map_holds _ _ _ Hsk). rewrite search_no_entry; [reflexivity|].
      intros n f Hin Hcar. apply in_dict_del in Hin. destruct Hin as [Hin Hne].
      apply Hne. exact (Honly n f Hin Hcar). }
    split; [exact Hmap|].
    intros Reply call_next hs Hauth.
    apply (dispatch_unmapped Reply call_next _ hs key Hauth Hsk Hmap).
Qed.

Lemma removed_apikey_is_no_longer_mapped_witness :
  fst (map_apikey_to_token
         (mkFiles (Holds (JObj [("phone", JObj [("key", JStr "sk-q7Rk");
                                                ("token_name", JStr "home")])]))
                  (Holds (tokens two_tokens))) "sk-q7Rk") = "eyJ-home-token" /\
  exists w',
    remove_apikey "phone"
      (set_apikeys [("phone", JObj [("key", JStr "sk-q7Rk"); ("token_name", JStr "home")])]
                   two_tokens) = Returns true w' /\
    apikeys w' = [] /\
    fst (map_apikey_to_token (mkFiles (Holds (JObj (apikeys w'))) (Holds (tokens w')))
                             "sk-q7Rk") = "sk-q7Rk".
Proof.
  split.
  2:{ destruct (removed_apikey_is_no_longer_mapped "phone" "sk-q7Rk"
                  (set_apikeys
                     [("phone", JObj [("key", JStr "sk-q7Rk"); ("token_name", JStr "home")])]
                     two_tokens) eq_refl) as (_ & Hpresent).
      - intros n f [Hin|[]] _. inversion Hin. reflexivity.
      - destruct (Hpresent eq_refl) as (w' & Hrun & _ & _ & _ & _ & _ & Hmap).
        exists w'. split; [exact Hrun|]. split.
        + inversion Hrun. reflexivity.
        + apply (Hmap (tokens w')). }
  reflexivity.
Defined.

(** X8.  Removing a token unbinds the API keys generated for it: the
    entries stay in the collection, but a key whose entries all name the
    removed token is no longer mapped, where it was mapped to the token's
    value before.  (A token named [auto] is the exception the middleware
    makes: such keys fall back to the first token.) *)
Theorem removed_token_unbinds_its_keys (tn tv key : string) (w : World) :
  startswith "sk-" key = true ->
  tn <> "auto" ->
  dict_get tn (tokens w) = Some tv ->
  (forall n f, In (n, JObj f) (apikeys w) -> carries key f ->
               dict_get "token_name" f = Some (JStr tn)) ->
  (exists n f, In (n, JObj f) (apikeys w) /\ carries key f) ->
  fst (map_apikey_to_token (mkFiles (Holds (JObj (apikeys w))) (Holds (tokens w))) key) = tv /\
  exists w',
    remove_token tn w = Returns true w' /\
    apikeys w' = apikeys w /\
    fst (map_apikey_to_token (mkFiles (Holds (JObj (apikeys w'))) (Holds (tokens w'))) key)
      = key.
Proof.
  intros Hsk Hauto Htok Hall Hsome. split.
  - rewrite (map_holds _ _ _ Hsk), (search_bound key tn tv _ _ Htok Hall Hsome). reflexivity.
  - assert (Hmem : dict_mem tn (tokens w) = true) by (unfold dict_mem; rewrite Htok; reflexivity).
    eexists. split.
    { unfold remove_token, bind, gets, modify, save_tokens, ret. rewrite Hmem. reflexivity. }
    cbn [tokens apikeys set_tokens set_tokens_json log_event].
    split; [reflexivity|].
    rewrite (map_holds _ _ _ Hsk).
    rewrite (search_dangling key tn _ _ Hauto (dict_get_del_same tn (tokens w)) Hall).
    reflexivity.
Qed.

Lemma removed_token_unbinds_its_keys_witness :
  fst (map_apikey_to_token
         (mkFiles (Holds (JObj (apikeys (set_apikeys (file_entries shared_secret) one_token))))
                  (Holds (tokens (set_apikeys (file_entries shared_secret) one_token))))
         "sk-q7Rk") = "eyJ-work-token" /\
  exists w',
    remove_token "work"
      (set_apikeys [("laptop", JObj [("key", JStr "sk-q7Rk"); ("token_name", JStr "work")])]
                   two_tokens) = Returns true w' /\
    tokens w' = [("home", "eyJ-home-token")] /\
    fst (map_apikey_to_token (mkFiles (Holds (JObj (apikeys w'))) (Holds (tokens w')))
                             "sk-q7Rk") = "sk-q7Rk".
Proof.
  split; [reflexivity|].
  destruct (removed_token_unbinds_its_keys "work" "eyJ-work-token" "sk-q7Rk"
              (set_apikeys
                 [("laptop", JObj [("key", JStr "sk-q7Rk"); ("token_name", JStr "work")])]
                 two_tokens) eq_refl) as (_ & w' & Hrun & _ & Hmap).
  - discriminate.
  - reflexivity.
  - intros n f [Hin|[]] _. inversion Hin. reflexivity.
  - exists "laptop", [("key", JStr "sk-q7Rk"); ("token_name", JStr "work")].
    split; [left; reflexivity | reflexivity].
  - exists w'. split; [exact Hrun|]. split; [inversion Hrun; reflexivity | exact Hmap].
Defined.

(** X9.  The token name [auto].  When the first entry that carries the
    key has the token name [auto], or no [token_name] member at all, the
    key is mapped to the token named [auto] when there is one and to the
    first token in iteration order otherwise.  And when the token file is
    missing or holds no token, no key is mapped at all. *)
Theorem auto_key_takes_first_token (fs : Files) (v : string) :
  (forall (entries pre post : dict json) (toks : dict string)
          (name : string) (fields : dict json),
     startswith "sk-" v = true ->
     apikeys_file fs = Holds (JObj entries) ->
     tokens_file fs = Holds toks ->
     entries = pre ++ (name, JObj fields) :: post ->
     (forall n f, In (n, JObj f) pre -> ~ carries v f) ->
     carries v fields ->
     dict_get_default "token_name" (JStr "auto") fields = JStr "auto" ->
     (forall tv, dict_get "auto" toks = Some tv -> fst (map_apikey_to_token fs v) = tv) /\
     (forall n1 v1 rest, dict_get "auto" toks = None -> toks = (n1, v1) :: rest ->
        fst (map_apikey_to_token fs v) = v1)) /\
  (tokens_file fs = Absent \/ tokens_file fs = Holds [] ->
   fst (map_apikey_to_token fs v) = v).
Proof.
  split.
  - intros entries pre post toks name fields Hsk Hkeys Htoks Hsplit Hpre Hcar Hname.
    split.
    + intros tv Htok.
      apply (map_first_entry fs v entries pre post toks name fields "auto" tv); assumption.
    + intros n1 v1 rest Hnone Hfirst.
      rewrite (map_unfold fs v Hsk).
      destruct fs as [kf tf]; cbn [apikeys_file tokens_file] in Hkeys, Htoks; subst kf tf.
      cbn [load_mappings load_mappings_try load_file apikeys_file tokens_file
           fst snd map_try len items rbind].
      rewrite Hsplit, (search_skips v toks pre _ Hpre).
      cbn [search]. apply carries_eqb in Hcar. rewrite Hcar, Hname.
      cbn [value_in_dict rbind]. unfold dict_mem. rewrite Hnone.
      subst toks. reflexivity.
  - intros Hnone.
    unfold map_apikey_to_token.
    destruct (String.eqb v "" || negb (startswith "sk-" v)); [reflexivity|].
    destruct fs as [kf tf]; cbn [tokens_file] in Hnone.
    assert (Hload : snd (fst (load_mappings (mkFiles kf tf))) = []).
    { destruct Hnone as [-> | ->]; destruct kf; reflexivity. }
    destruct (load_mappings (mkFiles kf tf)) as [[apikeys toks] t].
    cbn [fst snd] in Hload. subst toks.
    unfold map_try.
    destruct (len apikeys) as [n|]; [|reflexivity]. cbn [rbind].
    destruct (items apikeys) as [entries|]; [|reflexivity]. cbn [rbind].
    pose proof (search_no_tokens v entries) as H.
    destruct (search v [] entries); cbn [fst]; [exact H | reflexivity].
Qed.

Lemma auto_key_takes_first_token_witness :
  fst (map_apikey_to_token
         (mkFiles (Holds (JObj [("ci", JObj [("key", JStr "sk-q7Rk")])]))
                  (Holds [("work", "eyJ-work-token"); ("auto", "eyJ-auto-token")]))
         "sk-q7Rk") = "eyJ-auto-token" /\
  fst (map_apikey_to_token
         (mkFiles (Holds (JObj [("ci", JObj [("key", JStr "sk-q7Rk");
                                             ("token_name", JStr "auto")])]))
                  (Holds [("work", "eyJ-work-token"); ("home", "eyJ-home-token")]))
         "sk-q7Rk") = "eyJ-work-token" /\
  fst (map_apikey_to_token
         (mkFiles (Holds (JObj [("ci", JObj [("key", JStr "sk-q7Rk");
                                             ("token_name", JStr "auto")])]))
                  Absent)
         "sk-q7Rk") = "sk-q7Rk".
Proof.
  split; [|split].
  - destruct (auto_key_takes_first_token
                (mkFiles (Holds (JObj [("ci", JObj [("key", JStr "sk-q7Rk")])]))
                         (Holds [("work", "eyJ-work-token"); ("auto", "eyJ-auto-token")]))
                "sk-q7Rk") as (Hauto & _).
    destruct (Hauto _ [] [] _ "ci" [("key", JStr "sk-q7Rk")]
                    eq_refl eq_refl eq_refl eq_refl) as (Hnamed & _).
    + intros n f [].
    + reflexivity.
    + reflexivity.
    + apply Hnamed. reflexivity.
  - destruct (auto_key_takes_first_token
                (mkFiles (Holds (JObj [("ci", JObj [("key", JStr "sk-q7Rk");
                                                    ("token_name", JStr "auto")])]))
                         (Holds [("work", "eyJ-work-token"); ("home", "eyJ-home-token")]))
                "sk-q7Rk") as (Hauto & _).
    destruct (Hauto _ [] [] _ "ci" [("key", JStr "sk-q7Rk"); ("token_name", JStr "auto")]
                    eq_refl eq_refl eq_refl eq_refl) as (_ & Hfirst).
    + intros n f [].
    + reflexivity.
    + reflexivity.
    + apply (Hfirst "work" "eyJ-work-token" [("home", "eyJ-home-token")]); reflexivity.
  - destruct (auto_key_takes_first_token
                (mkFiles (Holds (JObj [("ci", JObj [("key", JStr "sk-q7Rk");
                                                    ("token_name", JStr "auto")])]))
                         Absent)
                "sk-q7Rk") as (_ & Hnone).
    apply Hnone. left. reflexivity.
Defined.

(** ** The request the middleware hands on *)






(** ** Sync, configuration file and active token *)

Lemma log_events_nil (w : World) : log_events [] w = w.
Proof. destruct w. unfold log_events. cbn. rewrite app_nil_r. reflexivity. Qed.

Lemma log_events_app (a b : list event) (w : World) :
  log_events b (log_events a w) = log_events (a ++ b) w.
Proof. unfold log_events. cbn. rewrite app_assoc. reflexivity. Qed.

Lemma sync_collection_runs (http_post : url -> reply) (path : string) (w : World) :
  exists b, sync_collection http_post path w = Returns b (log_events (sync_request path w) w).
Proof.
  unfold sync_collection, sync_request, endpoint_of.
  cbv beta iota delta [bind get gets modify ret].
  destruct (json_eqb _ _).
  - exists false. rewrite log_events_nil. reflexivity.
  - destruct (http_post _); eexists; reflexivity.
Qed.

Lemma generate_apikey_runs (http_post : url -> reply)
      (random_part now name : string) (sync : bool) (w : World) :
  generate_apikey http_post random_part now name sync w
    = Returns ("sk-" ++ random_part)%string
        (log_events
           (FileWrite APIKEYS_FILE
              :: (if sync then sync_request "/admin/sync/apikeys" w else []))
           (set_apikeys_json
              (Some (dict_set name
                       (JObj [("key", JStr ("sk-" ++ random_part)); ("created", JStr now);
                              ("token_name",
                               dict_get_default "active_token" (JStr "auto") (config w))])
                       (apikeys w)))
              (set_apikeys
                 (dict_set name
                    (JObj [("key", JStr ("sk-" ++ random_part)); ("created", JStr now);
                           ("token_name",
                            dict_get_default "active_token" (JStr "auto") (config w))])
                    (apikeys w)) w))).
Proof.
  unfold generate_apikey, sync_apikeys_to_server.
  cbv beta iota delta [bind modify save_apikeys ret].
  destruct sync.
  - match goal with |- context [sync_collection http_post ?p ?x] =>
      destruct (sync_collection_runs http_post p x) as (b & Hb); rewrite Hb end.
    unfold sync_request, endpoint_of, log_events, log_event, set_apikeys_json, set_apikeys.
    cbn. destruct (json_eqb _ _); cbn; rewrite <- ?app_assoc, ?app_nil_r; reflexivity.
  - reflexivity.
Qed.

Section SyncFacts.

Variable http_post : url -> reply.

(** X11.  The sync follows the write and its outcome is dropped.  When
    the token log can be opened for appending, [add_token] writes
    [tokens.json], appends to the token log, and then, when asked to sync
    and the endpoint is not the default one, posts once to
    [/admin/sync/tokens] of the endpoint; [generate_apikey] writes
    [apikeys.json] and posts to [/admin/sync/apikeys] in the same way.
    On the default endpoint no request is issued.  Whatever the server
    answers (an error status, no connection), the call returns the same
    result and leaves the same store. *)
Theorem sync_follows_the_write
        (name token random_part now key_name : string) (sync : bool) (w : World) :
  (token_txt_writable w = true ->
   exists w',
     add_token http_post name token sync w = Returns tt w' /\
     trace w' = trace w ++ FileWrite TOKENS_FILE :: FileWrite TOKEN_TXT
                             :: (if sync then sync_request "/admin/sync/tokens" w else []) /\
     forall http_post' : url -> reply,
       add_token http_post' name token sync w = Returns tt w') /\
  (exists w',
     generate_apikey http_post random_part now key_name sync w
       = Returns ("sk-" ++ random_part)%string w' /\
     trace w' = trace w ++ FileWrite APIKEYS_FILE
                             :: (if sync then sync_request "/admin/sync/apikeys" w else []) /\
     forall http_post' : url -> reply,
       generate_apikey http_post' random_part now key_name sync w
         = Returns ("sk-" ++ random_part)%string w') /\
  (endpoint_of w = JStr "http://localhost:5005" ->
   forall path, sync_request path w = []) /\
  (endpoint_of w <> JStr "http://localhost:5005" ->
   forall path, sync_request path w = [HttpPost (Url (endpoint_of w) path)]).
Proof.
  split; [|split; [|split]].
  - intros Hw. eexists. split; [apply (add_token_runs http_post name token sync w Hw)|].
    split; [reflexivity|].
    intros http_post'. apply (add_token_runs http_post' name token sync w Hw).
  - eexists. split; [apply (generate_apikey_runs http_post)|]. split; [reflexivity|].
    intros http_post'. apply (generate_apikey_runs http_post').
  - intros Hdefault path. unfold sync_request. rewrite Hdefault. reflexivity.
  - intros Hother path. unfold sync_request.
    destruct (json_eqb (endpoint_of w) (JStr "http://localhost:5005")) eqn:E; [|reflexivity].
    apply json_eqb_str in E. contradiction.
Qed.

End SyncFacts.

Lemma sync_follows_the_write_witness :
  (exists w',
     add_token (fun _ => Response 500 "down") "home" "eyJ-home-token" true one_token
       = Returns tt w' /\
     trace w' = [FileWrite TOKENS_FILE; FileWrite TOKEN_TXT;
                 HttpPost (Url (JStr "https://gateway.example") "/admin/sync/tokens")] /\
     add_token (fun _ => ConnectionFailed) "home" "eyJ-home-token" true one_token
       = Returns tt w') /\
  (exists w',
     generate_apikey (fun _ => Response 200 "ok") "q7Rk" "2025-01-01T10:00:00" "laptop" true
                     two_tokens = Returns "sk-q7Rk" w' /\
     trace w' = [FileWrite APIKEYS_FILE]).
Proof.
  split.
  - destruct (sync_follows_the_write (fun _ => Response 500 "down")
                "home" "eyJ-home-token" "q7Rk" "2025-01-01T10:00:00" "laptop" true
                one_token) as (Hadd & _).
    destruct (Hadd eq_refl) as (w' & Hrun & Htrace & Hany).
    exists w'. split; [exact Hrun|]. split; [exact Htrace|]. apply Hany.
  - destruct (sync_follows_the_write (fun _ => Response 200 "ok")
                "home" "eyJ-home-token" "q7Rk" "2025-01-01T10:00:00" "laptop" true
                two_tokens) as (_ & (w' & Hrun & Htrace & _) & _).
    exists w'. split; [exact Hrun | exact Htrace].
Defined.

Lemma dict_set_same_value {V : Type} (k : string) (v : V) (d : dict V) :
  dict_get k d = Some v -> dict_set k v d = d.
Proof.
  induction d as [|[k' v'] d IH]; cbn; [discriminate|].
  destruct (String.eqb k k').
  - intros H. inversion H. reflexivity.
  - intros H. f_equal. apply IH. exact H.
Qed.

(** X12.  [load_config].  Without a config file the defaults are used:
    the local endpoint and no active token.  A file without an
    [api_endpoint] is taken as it is.  A string endpoint is stored
    without its trailing slashes, every other key and the order of the
    keys being kept.  A falsy endpoint that is not a string ([null], 0,
    an empty list) is kept as it is, and a truthy one (a number, a
    non-empty list or object) makes the load raise [AttributeError]. *)
Theorem load_config_normalizes_endpoint :
  load_config None = Ok default_config /\
  dict_get "api_endpoint" default_config = Some (JStr "http://localhost:5005") /\
  dict_get "active_token" default_config = Some JNull /\
  (forall d, dict_get "api_endpoint" d = None -> load_config (Some d) = Ok d) /\
  (forall d s, dict_get "api_endpoint" d = Some (JStr s) ->
     exists d',
       load_config (Some d) = Ok d' /\
       dict_get "api_endpoint" d' = Some (JStr (normalize_endpoint s)) /\
       (forall k, k <> "api_endpoint" -> dict_get k d' = dict_get k d) /\
       map fst d' = map fst d) /\
  (forall d e, dict_get "api_endpoint" d = Some e -> (forall s, e <> JStr s) ->
     load_config (Some d) = if truthy e then Raise AttributeError else Ok d).
Proof.
  split; [reflexivity|]. split; [reflexivity|]. split; [reflexivity|].
  split; [|split].
  - intros d Hnone. unfold load_config. rewrite Hnone. reflexivity.
  - intros d s Hs. unfold load_config, normalize_endpoint_value, normalize_endpoint.
    rewrite Hs. cbn [truthy].
    assert (Hstrip : (if negb (String.eqb s "") then rstrip_slash s else s) = rstrip_slash s).
    { destruct (String.eqb s "") eqn:E; [|reflexivity].
      apply String.eqb_eq in E; subst; reflexivity. }
    rewrite Hstrip.
    exists (dict_set "api_endpoint" (JStr (rstrip_slash s)) d).
    split.
    { destruct (negb (String.eqb s "")) eqn:E; [reflexivity|].
      apply negb_false_iff, String.eqb_eq in E; subst. reflexivity. }
    split; [apply dict_get_set_same|].
    split; [intros k Hk; apply dict_get_set_other; exact Hk|].
    apply dict_set_keys_present. unfold dict_mem. rewrite Hs. reflexivity.
  - intros d e He Hnot. unfold load_config, normalize_endpoint_value. rewrite He.
    destruct (truthy e) eqn:Ht.
    + destruct e; try reflexivity. exfalso. apply (Hnot s). reflexivity.
    + cbn [rbind]. rewrite (dict_set_same_value _ _ _ He). reflexivity.
Qed.

Lemma dict_values_in {V : Type} (k : string) (v : V) (d : dict V) :
  dict_get k d = Some v -> In v (dict_values d).
Proof.
  induction d as [|[k' v'] d IH]; cbn; [discriminate|].
  destruct (String.eqb k k').
  - intros H. inversion H. left. reflexivity.
  - intros H. right. apply IH. exact H.
Qed.

(** What [get_active_token] computes, as a function of the store. *)
Lemma get_active_token_unfold (w : World) :
  get_active_token w =
    match active_value w with
    | JStr s =>
        match dict_get s (tokens w) with
        | Some v => if negb (String.eqb s "") then Returns (Some v) w
                    else Returns (hd_error (dict_values (tokens w))) w
        | None => Returns (hd_error (dict_values (tokens w))) w
        end
    | JArr (_ :: _) | JObj (_ :: _) => Raises TypeError w
    | _ => Returns (hd_error (dict_values (tokens w))) w
    end.
Proof.
  unfold get_active_token, active_value.
  cbv beta iota delta [bind gets lift ret].
  destruct (dict_get_default "active_token" JNull (config w)) as [| b | z | nz | s | l | f];
    cbn [truthy value_in_dict].
  - destruct (dict_values (tokens w)); reflexivity.
  - destruct b; destruct (dict_values (tokens w)); reflexivity.
  - destruct (negb (z =? 0)%Z); destruct (dict_values (tokens w)); reflexivity.
  - destruct nz; destruct (dict_values (tokens w)); reflexivity.
  - unfold dict_mem.
    destruct (negb (String.eqb s "")); destruct (dict_get s (tokens w));
      destruct (dict_values (tokens w)); reflexivity.
  - destruct l; [destruct (dict_values (tokens w))|]; reflexivity.
  - destruct f; [destruct (dict_values (tokens w))|]; reflexivity.
Qed.

Lemma hd_error_values {V : Type} (d : dict V) :
  match hd_error (dict_values d) with
  | Some v => In v (dict_values d)
  | None => d = []
  end.
Proof. destruct d as [|[k v] d]; cbn; [reflexivity | left; reflexivity]. Qed.

(** X13.  [get_active_token] reads and never writes.  What it returns is
    the value of a stored token, and it returns [None] only when no token
    is stored: a missing, empty or dangling reference falls back to the
    first token.  It raises only [TypeError], and only when the active
    token reference holds a list or an object. *)
Theorem get_active_token_gives_stored_token (w : World) :
  (forall r w', get_active_token w = Returns r w' ->
     w' = w /\
     match r with
     | Some v => In v (dict_values (tokens w))
     | None => tokens w = []
     end) /\
  (forall e w', get_active_token w = Raises e w' ->
     e = TypeError /\ w' = w /\ hashable (active_value w) = false) /\
  (hashable (active_value w) = true -> exists r, get_active_token w = Returns r w).
Proof.
  rewrite get_active_token_unfold.
  pose proof (hd_error_values (tokens w)) as Hhd.
  assert (Hfirst : forall r w',
            Returns (hd_error (dict_values (tokens w))) w = Returns r w' ->
            w' = w /\
            match r with
            | Some v => In v (dict_values (tokens w))
            | None => tokens w = []
            end).
  { intros r w' H. inversion H; subst. split; [reflexivity | exact Hhd]. }
  destruct (active_value w) as [| b | z | nz | s | l | f]; cbn [hashable].
  1-4: (split; [exact Hfirst|]; split; [intros e w' H; discriminate H|];
        intros _; eexists; reflexivity).
  - destruct (dict_get s (tokens w)) as [v|] eqn:Hs.
    + destruct (negb (String.eqb s "")).
      * split; [|split; [intros e w' H; discriminate H | intros _; eexists; reflexivity]].
        intros r w' H. inversion H; subst. split; [reflexivity|].
        apply (dict_values_in s). exact Hs.
      * split; [exact Hfirst|]. split; [intros e w' H; discriminate H|].
        intros _; eexists; reflexivity.
    + split; [exact Hfirst|]. split; [intros e w' H; discriminate H|].
      intros _; eexists; reflexivity.
  - destruct l as [|x l].
    + split; [exact Hfirst|]. split; [intros e w' H; discriminate H|].
      intros H; discriminate H.
    + split; [intros r w' H; discriminate H|].
      split; [intros e w' H; inversion H; repeat split | intros H; discriminate H].
  - destruct f as [|x f].
    + split; [exact Hfirst|]. split; [intros e w' H; discriminate H|].
      intros H; discriminate H.
    + split; [intros r w' H; discriminate H|].
      split; [intros e w' H; inversion H; repeat split | intros H; discriminate H].
Qed.

(** ** verify_model and the commands of the loop *)

Lemma any_mapped_str (model rm : string) (names : list string) :
  any_mapped model (JStr rm) names
    = Ok (existsb (String.eqb model) mapped_requests
          && existsb (fun mapped => contains mapped rm) names).
Proof.
  induction names as [|mapped names IH].
  - cbn [any_mapped existsb]. rewrite andb_false_r. reflexivity.
  - cbn [any_mapped existsb str_in rbind].
    destruct (existsb (String.eqb model) mapped_requests) eqn:E.
    + destruct (contains mapped rm); [reflexivity|].
      rewrite IH. reflexivity.
    + rewrite IH. reflexivity.
Qed.

Lemma model_matches_str (model rm : string) :
  model_matches model (JStr rm) = Ok (accepts model rm).
Proof.
  unfold model_matches, accepts. cbn [str_in in_str rbind].
  destruct (contains model rm); [reflexivity|].
  destruct (contains rm model); [reflexivity|].
  rewrite any_mapped_str. reflexivity.
Qed.

Section VerifyFacts.

Variable renders : printed -> bool.
Variable chat_post : chat_request -> reply.
Variable loads : string -> result json.

(** [verify_model] once the active token is known. *)
Lemma verify_model_authorised (model auth : string) (w : World) :
  get_active_token w = Returns (Some auth) w ->
  auth <> "" ->
  verify_model chat_post loads model w =
    Returns
      match chat_post (probe_request w auth model) with
      | Response status text =>
          if Z.eqb status 200 then
            match loads text with
            | Ok body =>
                match get_method body "model" (JStr "") with
                | Ok response_model =>
                    if truthy response_model then
                      match model_matches model response_model with
                      | Ok b => b
                      | Raise _ => false
                      end
                    else false
                | Raise _ => false
                end
            | Raise _ => false
            end
          else false
      | _ => false
      end
      (log_event (completion_post w) w).
Proof.
  intros Hauth Hne. apply String.eqb_neq in Hne.
  unfold verify_model, probe_request, completion_post, endpoint_of.
  cbv beta iota delta [bind get gets]. rewrite Hauth, Hne.
  cbv beta iota zeta delta [catch bind modify ret raise lift].
  destruct (chat_post _) as [| | |status text]; try reflexivity.
  destruct (Z.eqb status 200); [|reflexivity].
  destruct (loads text) as [body|]; [|reflexivity].
  destruct (get_method body "model" (JStr "")) as [rm|]; [|reflexivity].
  destruct (truthy rm); [|reflexivity].
  destruct (model_matches model rm) as [[|]|]; reflexivity.
Qed.

(** Whatever happens, [verify_model] leaves the store alone and issues at
    most the one request. *)
Lemma verify_model_frame (model : string) (w : World) :
  (exists b, verify_model chat_post loads model w = Returns b w) \/
  (exists b, verify_model chat_post loads model w
               = Returns b (log_event (completion_post w) w)) \/
  verify_model chat_post loads model w = Raises TypeError w.
Proof.
  destruct (get_active_token w) as [[auth|] w1|e w1] eqn:Htok.
  - pose proof (get_active_token_pure _ _ _ Htok) as ->.
    destruct (String.eqb auth "") eqn:Hempty.
    + left. exists false. unfold verify_model.
      cbv beta iota delta [bind get gets]. rewrite Htok, Hempty. reflexivity.
    + right. left. apply String.eqb_neq in Hempty.
      rewrite (verify_model_authorised model auth w Htok Hempty). eexists. reflexivity.
  - pose proof (get_active_token_pure _ _ _ Htok) as ->.
    left. exists false. unfold verify_model.
    cbv beta iota delta [bind get gets]. rewrite Htok. reflexivity.
  - right. right.
    rewrite get_active_token_unfold in Htok.
    assert (He : e = TypeError /\ w1 = w).
    { destruct (active_value w) as [| b | z | nz | s | l | f]; try discriminate Htok.
      - destruct (dict_get s (tokens w)); [destruct (negb (String.eqb s ""))|];
          discriminate Htok.
      - destruct l; [discriminate Htok|]. inversion Htok. split; reflexivity.
      - destruct f; [discriminate Htok|]. inversion Htok. split; reflexivity. }
    destruct He as [-> ->].
    unfold verify_model. cbv beta iota delta [bind get gets].
    rewrite get_active_token_unfold, Htok. reflexivity.
Qed.

(** X14.  [verify_model] with a usable token sends one probe and reads
    the answer as follows: a status other than 200, a transport failure
    or a body on which the decoder raises give [False]; a decoded object whose
    [model] member is the string [rm] gives [True] exactly when [rm] is
    not empty and the acceptance test holds for it.  The store is not
    changed.  Without a usable token (none, or an empty one) the result is
    [False] and nothing is sent. *)
Theorem verify_model_reads_the_response_model (model auth : string) (w : World) :
  get_active_token w = Returns (Some auth) w ->
  (auth = "" -> verify_model chat_post loads model w = Returns false w) /\
  (auth <> "" ->
   exists b,
     verify_model chat_post loads model w = Returns b (log_event (completion_post w) w) /\
     (post_fails (chat_post (probe_request w auth model)) = true -> b = false) /\
     (forall text e, chat_post (probe_request w auth model) = Response 200 text ->
        loads text = Raise e -> b = false) /\
     (forall text body rm,
        chat_post (probe_request w auth model) = Response 200 text ->
        loads text = Ok (JObj body) ->
        dict_get_default "model" (JStr "") body = JStr rm ->
        b = negb (String.eqb rm "") && accepts model rm)).
Proof.
  intros Hauth. split.
  - intros ->. unfold verify_model. cbv beta iota delta [bind get gets].
    rewrite Hauth. reflexivity.
  - intros Hne. eexists. split; [apply (verify_model_authorised model auth w Hauth Hne)|].
    split; [|split].
    + destruct (chat_post _) as [| | |status text]; try reflexivity.
      cbn [post_fails]. intros H. apply negb_true_iff in H. rewrite H. reflexivity.
    + intros text e Hreply Hnone. rewrite Hreply, Hnone. reflexivity.
    + intros text body rm Hreply Hbody Hrm. rewrite Hreply, Hbody.
      cbn [Z.eqb Pos.eqb get_method]. rewrite Hrm. cbn [truthy].
      rewrite model_matches_str.
      destruct (negb (String.eqb rm "")); reflexivity.
Qed.

(** X15.  The acceptance test does not pair a request with its own
    family: for every requested model of the mapped list, a response
    model in which any of the mapped names occurs is accepted.  So with a
    usable token and a 200 answer naming such a model, [verify_model]
    returns [True], whichever of the mapped models was asked for. *)
Theorem verify_model_accepts_any_mapped_name
        (model auth mapped text rm : string) (body : dict json) (w : World) :
  In model mapped_requests ->
  In mapped mapped_names ->
  contains mapped rm = true ->
  get_active_token w = Returns (Some auth) w ->
  auth <> "" ->
  chat_post (probe_request w auth model) = Response 200 text ->
  loads text = Ok (JObj body) ->
  dict_get_default "model" (JStr "") body = JStr rm ->
  rm <> "" ->
  accepts model rm = true /\
  verify_model chat_post loads model w = Returns true (log_event (completion_post w) w).
Proof.
  intros Hmodel Hmapped Hin Hauth Hne Hreply Hbody Hrm Hnonempty.
  assert (Hacc : accepts model rm = true).
  { unfold accepts.
    assert (H1 : existsb (String.eqb model) mapped_requests = true).
    { apply existsb_exists. exists model. split; [exact Hmodel | apply String.eqb_refl]. }
    assert (H2 : existsb (fun m => contains m rm) mapped_names = true).
    { apply existsb_exists. exists mapped. split; [exact Hmapped | exact Hin]. }
    rewrite H1, H2. cbn [andb]. apply orb_true_r. }
  split; [exact Hacc|].
  rewrite (verify_model_authorised model auth w Hauth Hne).
  rewrite Hreply, Hbody. cbn [Z.eqb Pos.eqb get_method]. rewrite Hrm. cbn [truthy].
  apply String.eqb_neq in Hnonempty. rewrite Hnonempty. cbn [negb].
  rewrite model_matches_str, Hacc. reflexivity.
Qed.

(** X16.  [/use <model>] selects the model before it verifies it, and
    keeps it whatever the verification gives: the model of the session is
    the argument even when the probe fails, answers with another model or
    [verify_model] raises, and whatever the console makes of the model's
    name.  The streaming flag, the history and the store are untouched,
    and at most the one probe is sent.  Without an argument nothing
    changes. *)
Theorem use_command_keeps_unverified_model (a : string) (s : Session) (w : World) :
  a <> "" ->
  use_command renders chat_post loads None s w = Returns s w /\
  exists w',
    use_command renders chat_post loads (Some a) s w
      = Returns (mkSession (JStr a) (current_stream s) (conversation_history s)) w' /\
    (w' = w \/ w' = log_event (completion_post w) w).
Proof.
  intros Hne. split; [reflexivity|].
  apply String.eqb_neq in Hne.
  unfold use_command. rewrite Hne. cbn [negb].
  cbv beta iota zeta delta [catch bind ret console_print].
  destruct (renders (Verifying a));
    [|exists w; split; [reflexivity | left; reflexivity]].
  destruct (verify_model_frame a w) as [(b & H)|[(b & H)|H]]; rewrite H.
  - exists w. destruct (renders _); split; try reflexivity; left; reflexivity.
  - eexists. destruct (renders _); split; try reflexivity; right; reflexivity.
  - exists w. split; [reflexivity | left; reflexivity].
Qed.

End VerifyFacts.

Lemma verify_model_reads_the_response_model_witness :
  (exists b,
     verify_model (fun _ => Response 200 (qq "{'model':'gpt-4-0613'}")) json_loads
                  "gpt-4" one_token
       = Returns b (log_event (completion_post one_token) one_token) /\
     b = true) /\
  verify_model (fun _ => Response 503 "down") json_loads "gpt-4" one_token
    = Returns false (log_event (completion_post one_token) one_token).
Proof.
  destruct (verify_model_reads_the_response_model
              (fun _ => Response 200 (qq "{'model':'gpt-4-0613'}")) json_loads
              "gpt-4" "eyJ-work-token" one_token eq_refl) as (_ & Hok).
  destruct (verify_model_reads_the_response_model
              (fun _ => Response 503 "down") json_loads
              "gpt-4" "eyJ-work-token" one_token eq_refl) as (_ & Hdown).
  split.
  - destruct Hok as (b & Hrun & _ & _ & Hmodel); [discriminate|].
    exists b. split; [exact Hrun|].
    apply (Hmodel (qq "{'model':'gpt-4-0613'}") [("model", JStr "gpt-4-0613")] "gpt-4-0613");
      reflexivity.
  - destruct Hdown as (b & Hrun & Hfail & _); [discriminate|].
    rewrite Hrun, (Hfail eq_refl). reflexivity.
Defined.

Lemma verify_model_accepts_any_mapped_name_witness :
  accepts "claude-3-opus" "gpt-4o-2024-08-06" = true /\
  verify_model (fun _ => Response 200 (qq "{'model':'gpt-4o-2024-08-06'}")) json_loads
               "claude-3-opus" one_token
    = Returns true (log_event (completion_post one_token) one_token).
Proof.
  apply (verify_model_accepts_any_mapped_name
           (fun _ => Response 200 (qq "{'model':'gpt-4o-2024-08-06'}")) json_loads
           "claude-3-opus" "eyJ-work-token" "gpt-4o"
           (qq "{'model':'gpt-4o-2024-08-06'}") "gpt-4o-2024-08-06"
           [("model", JStr "gpt-4o-2024-08-06")] one_token).
  - cbn. tauto.
  - cbn. tauto.
  - reflexivity.
  - reflexivity.
  - discriminate.
  - reflexivity.
  - reflexivity.
  - reflexivity.
  - discriminate.
Defined.

Lemma use_command_keeps_unverified_model_witness :
  (exists w',
     use_command strict_console (fun _ => ConnectionFailed) json_loads (Some "gpt-4o") greeted one_token
       = Returns (mkSession (JStr "gpt-4o") true (conversation_history greeted)) w') /\
  (exists w',
     use_command strict_console (fun _ => ConnectionFailed) json_loads (Some "gpt-4o") greeted list_reference
       = Returns (mkSession (JStr "gpt-4o") true (conversation_history greeted)) w').
Proof.
  split.
  - destruct (use_command_keeps_unverified_model strict_console (fun _ => ConnectionFailed)
                json_loads
                "gpt-4o" greeted one_token) as (_ & w' & Hrun & _); [discriminate|].
    exists w'. exact Hrun.
  - destruct (use_command_keeps_unverified_model strict_console (fun _ => ConnectionFailed)
                json_loads
                "gpt-4o" greeted list_reference) as (_ & w' & Hrun & _); [discriminate|].
    exists w'. exact Hrun.
Defined.

(** ** The streaming reader, for every stream *)

Section StreamFacts.

Variable renders : printed -> bool.
Variable loads : string -> result json.
Variable model : json.

Lemma log_events_same_store (ev : list event) (w : World) : same_store w (log_events ev w).
Proof. repeat split. Qed.

(** One decoded payload: the store is not touched, at most one increment
    is handed to the console, and it is the text that is accumulated. *)
Lemma process_json_emits (j : json) (st : reader_state) (w : World) :
  match process_json renders model j st w with
  | Returns st' w' =>
      exists ev, w' = log_events ev w /\ forallb is_emit ev = true /\
                 full_response st' = (full_response st ++ emitted_text ev)%string
  | Raises _ w' =>
      exists ev, w' = log_events ev w /\ forallb is_emit ev = true
  end.
Proof.
  assert (Hnil_r : forall s : string, s = (s ++ "")%string).
  { induction s as [|c s IH]; cbn; [reflexivity | f_equal; exact IH]. }
  assert (Hstay : forall st', full_response st' = full_response st ->
            exists ev, w = log_events ev w /\ forallb is_emit ev = true /\
                       full_response st' = (full_response st ++ emitted_text ev)%string).
  { intros st' H. exists []. rewrite log_events_nil. split; [reflexivity|].
    split; [reflexivity|]. cbn [emitted_text]. rewrite H. apply Hnil_r. }
  assert (Hfail : exists ev, w = log_events ev w /\ forallb is_emit ev = true).
  { exists []. rewrite log_events_nil. split; reflexivity. }
  assert (Hshown : forall c, exists ev,
            log_event (Emit c) w = log_events ev w /\ forallb is_emit ev = true).
  { intros c. exists [Emit c]. split; reflexivity. }
  assert (Htext : forall text actual, exists ev,
            log_event (Emit (JStr text)) w = log_events ev w /\
            forallb is_emit ev = true /\
            full_response (mkReader (full_response st ++ text) actual)
              = (full_response st ++ emitted_text ev)%string).
  { intros text actual. exists [Emit (JStr text)].
    split; [reflexivity|]. split; [reflexivity|].
    cbn [emitted_text full_response]. rewrite <- Hnil_r. reflexivity. }
  unfold process_json.
  cbv beta iota delta [bind lift ret raise modify console_print].
  destruct (str_in "choices" j) as [[|]|]; [| apply Hstay; reflexivity | exact Hfail].
  destruct (getitem j "choices") as [choices|]; [|exact Hfail].
  destruct (len choices) as [n|]; [|exact Hfail].
  destruct (0 <? n)%nat; [|apply Hstay; reflexivity].
  destruct (str_in "model" j) as [[|]|]; [| | exact Hfail].
  - destruct (getitem j "model") as [rm|]; [|exact Hfail].
    destruct (getitem0 choices) as [first|]; [|exact Hfail].
    destruct (get_method first "delta" (JObj [])) as [delta|]; [|exact Hfail].
    destruct (get_method delta "content" (JStr "")) as [content|]; [|exact Hfail].
    destruct (truthy content); [|apply Hstay; reflexivity].
    destruct content as [| b | z | nz | text | l | f]; try apply Hshown.
    destruct (renders (Increment text)); [apply Htext | exact Hfail].
  - destruct (getitem0 choices) as [first|]; [|exact Hfail].
    destruct (get_method first "delta" (JObj [])) as [delta|]; [|exact Hfail].
    destruct (get_method delta "content" (JStr "")) as [content|]; [|exact Hfail].
    destruct (truthy content); [|apply Hstay; reflexivity].
    destruct content as [| b | z | nz | text | l | f]; try apply Hshown.
    destruct (renders (Increment text)); [apply Htext | exact Hfail].
Qed.

Lemma process_chunk_emits (chunk : string) (st : reader_state) (w : World) :
  match process_chunk renders loads model chunk st w with
  | Returns (Next st') w' =>
      exists ev, w' = log_events ev w /\ forallb is_emit ev = true /\
                 full_response st' = (full_response st ++ emitted_text ev)%string
  | Returns Stop w' => w' = w
  | Raises _ w' =>
      exists ev, w' = log_events ev w /\ forallb is_emit ev = true
  end.
Proof.
  assert (Hnil_r : forall s : string, s = (s ++ "")%string).
  { induction s as [|c s IH]; cbn; [reflexivity | f_equal; exact IH]. }
  assert (Hstay : exists ev, w = log_events ev w /\ forallb is_emit ev = true /\
                             full_response st = (full_response st ++ emitted_text ev)%string).
  { exists []. rewrite log_events_nil. split; [reflexivity|]. split; [reflexivity|].
    apply Hnil_r. }
  unfold process_chunk.
  destruct (startswith "data: " chunk); [|exact Hstay].
  destruct (String.eqb (drop 6 chunk) "[DONE]"); [reflexivity|].
  assert (Hfail : exists ev, w = log_events ev w /\ forallb is_emit ev = true).
  { exists []. rewrite log_events_nil. split; reflexivity. }
  unfold except_decode_error, bind, lift, ret.
  destruct (loads (drop 6 chunk)) as [j|e].
  - pose proof (process_json_emits j st w) as H.
    destruct (process_json renders model j st w) as [st' w'|e w'] eqn:Hj; [exact H|].
    pose proof (process_json_raises renders model j st w w' e Hj) as He.
    destruct e; try exact H. destruct (He eq_refl).
  - destruct e; solve [exact Hstay | exact Hfail].
Qed.

Lemma emitted_text_app (a b : list event) :
  emitted_text (a ++ b) = (emitted_text a ++ emitted_text b)%string.
Proof.
  induction a as [|e a IH]; [reflexivity|].
  cbn [app emitted_text].
  destruct e as [u | u | f | c]; try exact IH.
  destruct c as [| x | z | nz | text | l | f]; try exact IH.
  rewrite IH. clear IH.
  induction text as [|ch text IHt]; cbn; [reflexivity | f_equal; exact IHt].
Qed.

Lemma string_app_assoc (a b c : string) : ((a ++ b) ++ c)%string = (a ++ (b ++ c))%string.
Proof. induction a as [|ch a IH]; cbn; [reflexivity | f_equal; exact IH]. Qed.

Lemma read_lines_emits (lines : list string) (cut : bool) (st : reader_state) (w : World) :
  match read_lines renders loads model lines cut st w with
  | Returns st' w' =>
      exists ev, w' = log_events ev w /\ forallb is_emit ev = true /\
                 full_response st' = (full_response st ++ emitted_text ev)%string
  | Raises _ w' =>
      exists ev, w' = log_events ev w /\ forallb is_emit ev = true
  end.
Proof.
  assert (Hnil_r : forall s : string, s = (s ++ "")%string).
  { induction s as [|c s IH]; cbn; [reflexivity | f_equal; exact IH]. }
  revert st w. induction lines as [|chunk lines IH]; intros st w.
  - cbn [read_lines]. destruct cut; cbv [raise ret];
      exists []; rewrite log_events_nil; repeat split. apply Hnil_r.
  - rewrite read_lines_cons.
    pose proof (process_chunk_emits chunk st w) as Hc.
    destruct (process_chunk renders loads model chunk st w) as [[st1|] w1|e w1].
    + destruct Hc as (ev1 & -> & Hemit1 & Htext1).
      specialize (IH st1 (log_events ev1 w)).
      destruct (read_lines renders loads model lines cut st1 (log_events ev1 w)) as [st2 w2|e w2].
      * destruct IH as (ev2 & -> & Hemit2 & Htext2).
        exists (ev1 ++ ev2). rewrite log_events_app. split; [reflexivity|].
        split; [rewrite forallb_app, Hemit1, Hemit2; reflexivity|].
        rewrite Htext2, Htext1, emitted_text_app. apply string_app_assoc.
      * destruct IH as (ev2 & -> & Hemit2).
        exists (ev1 ++ ev2). rewrite log_events_app. split; [reflexivity|].
        rewrite forallb_app, Hemit1, Hemit2; reflexivity.
    + subst w1. exists []. rewrite log_events_nil. repeat split. apply Hnil_r.
    + exact Hc.
Qed.

(** X17.  What the reader accumulates is what it showed.  For every
    stream, the reader only adds console output to the trace (the store
    is untouched and nothing is requested or written), and when it
    returns, the text it accumulated since it started is the
    concatenation, in order, of the increments it handed to the console. *)
Theorem streamed_text_is_what_was_shown
        (lines : list string) (cut : bool) (st st' : reader_state) (w w' : World) :
  read_lines renders loads model lines cut st w = Returns st' w' ->
  exists ev,
    w' = log_events ev w /\
    same_store w w' /\
    forallb is_emit ev = true /\
    full_response st' = (full_response st ++ emitted_text ev)%string.
Proof.
  intros Hrun. pose proof (read_lines_emits lines cut st w) as H.
  rewrite Hrun in H. destruct H as (ev & -> & Hemit & Htext).
  exists ev. split; [reflexivity|]. split; [apply log_events_same_store|].
  split; assumption.
Qed.

(** A line the reader has nothing to do with leaves the state alone. *)
Lemma process_chunk_inert (chunk : string) (st : reader_state) (w : World) :
  inert loads chunk = true ->
  process_chunk renders loads model chunk st w = Returns (Next st) w.
Proof.
  unfold inert, process_chunk.
  destruct (startswith "data: " chunk); [|reflexivity].
  destruct (String.eqb (drop 6 chunk) "[DONE]"); [discriminate|].
  destruct (loads (drop 6 chunk)) as [j|]; [|discriminate].
  destruct j as [| b | z | nz | s | l | f]; try discriminate.
  unfold except_decode_error, process_json.
  cbv beta iota delta [bind lift ret str_in getitem dict_mem].
  destruct (dict_get "choices" f) as [c|]; [|reflexivity].
  destruct (len c) as [[|n]|]; try discriminate. reflexivity.
Qed.

(** X18.  Lines the reader has nothing to do with can be dropped from any
    stream without changing anything: a line that does not start with
    [data: ] (a blank line, a comment, an [event:] line) and a payload
    that decodes to an object without [choices], or with an empty one,
    leave the output, the accumulated text and the actual model as they
    were, whatever comes before and after. *)
Theorem reader_skips_inert_lines
        (l1 l2 : list string) (chunk : string) (cut : bool) (st : reader_state) (w : World) :
  inert loads chunk = true ->
  read_lines renders loads model (l1 ++ chunk :: l2) cut st w
    = read_lines renders loads model (l1 ++ l2) cut st w.
Proof.
  intros Hinert. revert st w.
  induction l1 as [|c l1 IH]; intros st w.
  - cbn [app]. rewrite read_lines_cons, (process_chunk_inert chunk st w Hinert).
    reflexivity.
  - cbn [app]. rewrite !read_lines_cons.
    destruct (process_chunk renders loads model c st w) as [[st'|] w'|e w'];
      [apply IH | reflexivity | reflexivity].
Qed.

(** X19.  The sentinel ends the stream for good: whatever follows the
    first [data: [DONE]] line is not looked at, and a transport failure
    after it does not fail the exchange.  Reading a stream up to its
    sentinel is reading the lines before it from a stream that ends
    normally. *)
Theorem nothing_is_read_after_the_sentinel
        (l1 l2 : list string) (cut : bool) (st : reader_state) (w : World) :
  read_lines renders loads model (l1 ++ "data: [DONE]" :: l2) cut st w
    = read_lines renders loads model l1 false st w.
Proof.
  revert st w. induction l1 as [|c l1 IH]; intros st w.
  - reflexivity.
  - cbn [app]. rewrite !read_lines_cons.
    destruct (process_chunk renders loads model c st w) as [[st'|] w'|e w'];
      [apply IH | reflexivity | reflexivity].
Qed.

End StreamFacts.

Lemma streamed_text_is_what_was_shown_witness :
  exists ev,
    forallb is_emit ev = true /\
    emitted_text ev = "Hi there" /\
    read_lines strict_console json_loads (JStr "gpt-4") [hi_line; there_line; done_line] false
               (mkReader "" (JStr "gpt-4")) one_token
      = Returns (mkReader "Hi there" (JStr "gpt-4")) (log_events ev one_token).
Proof.
  destruct (streamed_text_is_what_was_shown strict_console json_loads (JStr "gpt-4")
              [hi_line; there_line; done_line] false
              (mkReader "" (JStr "gpt-4")) (mkReader "Hi there" (JStr "gpt-4"))
              one_token
              (log_event (Emit (JStr " there")) (log_event (Emit (JStr "Hi")) one_token))
              (example_reader strict_console (JStr "gpt-4") [] false one_token
                              eq_refl eq_refl))
    as (ev & Hw & _ & Hemit & Htext).
  exists ev. split; [exact Hemit|]. split; [symmetry; exact Htext|].
  rewrite <- Hw.
  apply (example_reader strict_console (JStr "gpt-4") [] false one_token eq_refl eq_refl).
Defined.

Lemma reader_skips_inert_lines_witness :
  inert json_loads ping_line = true /\
  inert json_loads usage_line = true /\
  read_lines strict_console json_loads (JStr "gpt-4")
             [hi_line; ping_line; there_line; usage_line; done_line]
             false (mkReader "" (JStr "gpt-4")) one_token
    = read_lines strict_console json_loads (JStr "gpt-4") [hi_line; there_line; done_line]
                 false (mkReader "" (JStr "gpt-4")) one_token.
Proof.
  split; [reflexivity|]. split; [reflexivity|].
  exact (eq_trans
           (reader_skips_inert_lines strict_console json_loads (JStr "gpt-4")
              [hi_line] [there_line; usage_line; done_line] ping_line false
              (mkReader "" (JStr "gpt-4")) one_token eq_refl)
           (reader_skips_inert_lines strict_console json_loads (JStr "gpt-4")
              [hi_line; there_line] [done_line] usage_line false
              (mkReader "" (JStr "gpt-4")) one_token eq_refl)).
Defined.

(** ** send_message and the chat turn *)


Section ExchangeFacts.

Variable renders : printed -> bool.
Variable chat_post : chat_request -> reply.
Variable chat_stream : chat_request -> stream_reply.
Variable loads : string -> result json.



End ExchangeFacts.


(** [json_eqb] only holds between equal values. *)
Lemma json_eqb_eq : forall a b : json, json_eqb a b = true -> a = b.
Proof.
  fix IH 1. intros a b.
  destruct a as [| x | x | x | x | l1 | m1]; destruct b as [| y | y | y | y | l2 | m2];
    cbn [json_eqb]; try discriminate.
  - reflexivity.
  - intros H. apply Bool.eqb_prop in H. subst. reflexivity.
  - intros H. apply Z.eqb_eq in H. subst. reflexivity.
  - intros H. apply Bool.eqb_prop in H. subst. reflexivity.
  - intros H. apply String.eqb_eq in H. subst. reflexivity.
  - intros H. f_equal. revert l2 H.
    induction l1 as [|u l1 IHl]; intros [|v l2] H; try discriminate H; [reflexivity|].
    apply andb_prop in H. destruct H as [H1 H2].
    f_equal; [apply IH; exact H1 | apply IHl; exact H2].
  - intros H. f_equal. revert m2 H.
    induction m1 as [|[k1 u] m1 IHm]; intros [|[k2 v] m2] H; try discriminate H;
      [reflexivity|].
    apply andb_prop in H. destruct H as [H12 H3].
    apply andb_prop in H12. destruct H12 as [H1 H2].
    apply String.eqb_eq in H1. subst k2.
    f_equal; [f_equal; apply IH; exact H2 | apply IHm; exact H3].
Qed.

Section TurnOutcome.

Variable renders : printed -> bool.
Variable chat_post : chat_request -> reply.
Variable chat_stream : chat_request -> stream_reply.
Variable loads : string -> result json.

(** X21.  A chat turn always comes back, with a history that starts with
    the old one followed by the user entry.  When the exchange gives a
    non-empty text, the assistant entry with that text is appended after
    it and the session follows the model the server answered with.  When
    it gives an empty text the reply is dropped: the history ends with
    the user entry and the model is kept. *)
Theorem chat_turn_appends_the_exchange (user_input : string) (s : Session) (w : World) :
  (exists s' w' tail,
     chat_turn renders chat_post chat_stream loads user_input s w = Returns s' w' /\
     conversation_history s'
       = conversation_history s ++ mkMessage "user" (JStr user_input) :: tail /\
     current_stream s' = current_stream s) /\
  (forall text m w',
     send_message renders chat_post chat_stream loads user_input (current_model s)
                  (conversation_history s ++ [mkMessage "user" (JStr user_input)])
                  (current_stream s) w = Returns (Some text, m) w' ->
     chat_turn renders chat_post chat_stream loads user_input s w =
       if truthy text then
         Returns (mkSession m (current_stream s)
                    (conversation_history s
                       ++ [mkMessage "user" (JStr user_input); mkMessage "assistant" text]))
                 w'
       else
         Returns (mkSession (current_model s) (current_stream s)
                    (conversation_history s ++ [mkMessage "user" (JStr user_input)]))
                 w').
Proof.
  assert (Hsnoc : forall (l : list chat_message) x y, (l ++ [x]) ++ [y] = l ++ [x; y]).
  { intros l x y. rewrite <- app_assoc. reflexivity. }
  split.
  - unfold chat_turn. cbv beta iota zeta delta [catch bind ret].
    destruct (send_message _ _ _ _ _ _ _ _ _) as [[[text|] m] w'|e w'].
    + destruct (truthy text).
      * destruct (negb (json_eqb m (current_model s)));
          (eexists; eexists; exists [mkMessage "assistant" text];
           split; [reflexivity|]; split; [cbn [conversation_history]; apply Hsnoc|];
           reflexivity).
      * eexists; eexists; exists []. repeat split.
    + eexists; eexists; exists []. repeat split.
    + eexists; eexists; exists []. repeat split.
  - intros text m w' Hsend. unfold chat_turn.
    cbv beta iota zeta delta [catch bind ret]. rewrite Hsend.
    destruct (truthy text); [|reflexivity].
    rewrite Hsnoc.
    destruct (json_eqb m (current_model s)) eqn:E; cbn [negb]; [|reflexivity].
    apply json_eqb_eq in E. rewrite E. reflexivity.
Qed.

End TurnOutcome.

(** ** /reset, the token prompts and the token log *)

(** The world a confirmed [/reset] leaves. *)
Lemma reset_command_runs (s : Session) (w : World) :
  reset_command true s w
    = Returns (mkSession (JStr "gpt-3.5-turbo") true [])
        (mkWorld (dict_set "active_token" JNull (config w)) [] []
                 (Some (dict_set "active_token" JNull (config w))) (Some []) (Some [])
                 (if token_txt_writable w then [] else token_txt w)
                 (token_txt_writable w)
                 (trace w ++ [FileWrite TOKENS_FILE; FileWrite APIKEYS_FILE;
                              FileWrite CONFIG_FILE]
                          ++ (if token_txt_writable w then [FileWrite TOKEN_TXT] else []))).
Proof.
  destruct w as [c t k cj tj kj txt writable tr].
  destruct writable;
    lazy beta iota zeta delta [reset_command bind modify ret save_tokens save_apikeys
                               save_config truncate_token_txt log_event set_token_txt
                               set_config_json set_apikeys_json set_tokens_json set_config
                               set_apikeys set_tokens config tokens apikeys config_json
                               tokens_json apikeys_json token_txt token_txt_writable trace];
    rewrite <- ?app_assoc, ?app_nil_r; reflexivity.
Qed.

(** X22.  A confirmed [/reset] empties the tokens and the API keys,
    clears the active token reference, and writes the three files, so
    that no token is left to use; the session goes back to
    [gpt-3.5-turbo], streaming, with no history.  It does not reset the
    rest of the configuration: the endpoint and every other key are
    kept.  No request is issued.  The token log is emptied when it can be
    opened and left as it is otherwise, without an error.  A declined
    [/reset] changes nothing. *)
Theorem reset_command_clears_credentials (s : Session) (w : World) :
  reset_command false s w = Returns s w /\
  exists w',
    reset_command true s w = Returns (mkSession (JStr "gpt-3.5-turbo") true []) w' /\
    tokens w' = [] /\ apikeys w' = [] /\
    tokens_json w' = Some [] /\ apikeys_json w' = Some [] /\
    dict_get "active_token" (config w') = Some JNull /\
    (forall k, k <> "active_token" -> dict_get k (config w') = dict_get k (config w)) /\
    config_json w' = Some (config w') /\
    token_txt w' = (if token_txt_writable w then [] else token_txt w) /\
    trace w' = trace w ++ [FileWrite TOKENS_FILE; FileWrite APIKEYS_FILE; FileWrite CONFIG_FILE]
                       ++ (if token_txt_writable w then [FileWrite TOKEN_TXT] else []) /\
    get_active_token w' = Returns None w'.
Proof.
  split; [reflexivity|].
  eexists. split; [apply reset_command_runs|].
  cbn [config tokens apikeys config_json tokens_json apikeys_json token_txt trace].
  split; [reflexivity|]. split; [reflexivity|]. split; [reflexivity|].
  split; [reflexivity|]. split; [apply dict_get_set_same|].
  split; [intros k Hk; apply dict_get_set_other; exact Hk|].
  split; [reflexivity|]. split; [reflexivity|]. split; [reflexivity|].
  rewrite get_active_token_unfold. unfold active_value, dict_get_default.
  cbn [config tokens]. rewrite dict_get_set_same. reflexivity.
Qed.

Section PromptFacts.

Variable http_post : url -> reply.
Variable renders : printed -> bool.

(** X23.  [add_token_interactive] stores nothing when the answers are
    turned down: no name, an existing name the user does not want
    replaced, or a token that is empty or shorter than 20 characters; the
    collections, the files and the log are then as before however the
    call ends, and the call returns when the console renders the question
    about the existing name.  Otherwise, when the token log can be opened
    for appending and that question, if it is asked, is rendered, the
    token is stored under the name, persisted and logged, whatever the
    console makes of the lines that follow; and when it renders them the
    call returns, and a token the user asks to use now is the one
    [get_active_token] gives from then on. *)
Theorem add_token_interactive_validates (a : token_answers) (w : World) :
  (turned_down a w = true ->
   world_after (add_token_interactive http_post renders a w) = w /\
   ((dict_mem (answer_name a) (tokens w) = true ->
     renders (ReplaceToken (answer_name a)) = true) ->
    add_token_interactive http_post renders a w = Returns tt w)) /\
  (turned_down a w = false ->
   token_txt_writable w = true ->
   (dict_mem (answer_name a) (tokens w) = true ->
    renders (ReplaceToken (answer_name a)) = true) ->
   (dict_get (answer_name a)
             (tokens (world_after (add_token_interactive http_post renders a w)))
      = Some (answer_token a) /\
    tokens_json (world_after (add_token_interactive http_post renders a w))
      = Some (tokens (world_after (add_token_interactive http_post renders a w))) /\
    token_txt (world_after (add_token_interactive http_post renders a w))
      = token_txt w ++ [answer_token a]) /\
   (renders (TokenAdded (answer_name a) (answer_token a)) = true ->
    (answer_use a = true -> renders (NowUsing (answer_name a)) = true) ->
    exists w',
      add_token_interactive http_post renders a w = Returns tt w' /\
      (answer_use a = true ->
         dict_get "active_token" (config w') = Some (JStr (answer_name a)) /\
         get_active_token w' = Returns (Some (answer_token a)) w') /\
      (answer_use a = false -> config w' = config w))).
Proof.
  destruct (String.eqb (answer_name a) "") eqn:Hname.
  { unfold turned_down, add_token_interactive. cbv zeta. rewrite Hname. cbn [orb].
    split; [|discriminate]. intros _. split; [reflexivity | intros _; reflexivity]. }
  assert (Htail :
    forall asked : Prop,
      ((answer_token a =? "") || (code_points (answer_token a) <? 20)%nat = true ->
       world_after
         ((if (answer_token a =? "") || (code_points (answer_token a) <? 20)%nat
           then fun w0 : World => Returns tt w0
           else
            fun w0 : World =>
            match add_token http_post (answer_name a) (answer_token a) true w0 with
            | Returns _ w' =>
                match
                  (if renders (TokenAdded (answer_name a) (answer_token a))
                   then Returns tt w'
                   else Raises MarkupError w')
                with
                | Returns _ w'0 =>
                    (if answer_use a
                     then
                      fun w1 : World =>
                      match use_token (answer_name a) w1 with
                      | Returns _ w'1 =>
                          if renders (NowUsing (answer_name a))
                          then Returns tt w'1
                          else Raises MarkupError w'1
                      | Raises e w'1 => Raises e w'1
                      end
                     else fun w1 : World => Returns tt w1) w'0
                | Raises e w'0 => Raises e w'0
                end
            | Raises e w' => Raises e w'
            end) w) = w /\
       (asked ->
        (if (answer_token a =? "") || (code_points (answer_token a) <? 20)%nat
         then fun w0 : World => Returns tt w0
         else
          fun w0 : World =>
          match add_token http_post (answer_name a) (answer_token a) true w0 with
          | Returns _ w' =>
              match
                (if renders (TokenAdded (answer_name a) (answer_token a))
                 then Returns tt w'
                 else Raises MarkupError w')
              with
              | Returns _ w'0 =>
                  (if answer_use a
                   then
                    fun w1 : World =>
                    match use_token (answer_name a) w1 with
                    | Returns _ w'1 =>
                        if renders (NowUsing (answer_name a))
                        then Returns tt w'1
                        else Raises MarkupError w'1
                    | Raises e w'1 => Raises e w'1
                    end
                   else fun w1 : World => Returns tt w1) w'0
              | Raises e w'0 => Raises e w'0
              end
          | Raises e w' => Raises e w'
          end) w = Returns tt w)) /\
      ((answer_token a =? "") || (code_points (answer_token a) <? 20)%nat = false ->
       token_txt_writable w = true ->
       asked ->
       let o :=
         (if (answer_token a =? "") || (code_points (answer_token a) <? 20)%nat
          then fun w0 : World => Returns tt w0
          else
           fun w0 : World =>
           match add_token http_post (answer_name a) (answer_token a) true w0 with
           | Returns _ w' =>
               match
                 (if renders (TokenAdded (answer_name a) (answer_token a))
                  then Returns tt w'
                  else Raises MarkupError w')
               with
               | Returns _ w'0 =>
                   (if answer_use a
                    then
                     fun w1 : World =>
                     match use_token (answer_name a) w1 with
                     | Returns _ w'1 =>
                         if renders (NowUsing (answer_name a))
                         then Returns tt w'1
                         else Raises MarkupError w'1
                     | Raises e w'1 => Raises e w'1
                     end
                    else fun w1 : World => Returns tt w1) w'0
               | Raises e w'0 => Raises e w'0
               end
           | Raises e w' => Raises e w'
           end) w in
       (dict_get (answer_name a) (tokens (world_after o)) = Some (answer_token a) /\
        tokens_json (world_after o) = Some (tokens (world_after o)) /\
        token_txt (world_after o) = token_txt w ++ [answer_token a]) /\
       (renders (TokenAdded (answer_name a) (answer_token a)) = true ->
        (answer_use a = true -> renders (NowUsing (answer_name a)) = true) ->
        exists w',
          o = Returns tt w' /\
          (answer_use a = true ->
             dict_get "active_token" (config w') = Some (JStr (answer_name a)) /\
             get_active_token w' = Returns (Some (answer_token a)) w') /\
          (answer_use a = false -> config w' = config w)))).
  { intros asked.
    destruct ((answer_token a =? "") || (code_points (answer_token a) <? 20)%nat).
    { split; [|discriminate]. intros _. split; [reflexivity | intros _; reflexivity]. }
    split; [discriminate|]. intros _ Hw _.
    rewrite (add_token_runs http_post (answer_name a) (answer_token a) true w Hw).
    destruct (renders (TokenAdded (answer_name a) (answer_token a))) eqn:Hadded.
    - destruct (answer_use a) eqn:Huse.
      + cbv beta iota delta [bind ret use_token gets modify save_config].
        cbn [tokens log_events set_token_txt set_tokens_json set_tokens].
        unfold dict_mem. rewrite dict_get_set_same.
        destruct (renders (NowUsing (answer_name a))) eqn:Hnow; cbv zeta;
          cbn [world_after tokens config tokens_json token_txt set_config set_config_json
               log_event].
        * split; [split; [apply dict_get_set_same | split; reflexivity]|].
          intros _ _. eexists. split; [reflexivity|].
          cbn [tokens config tokens_json token_txt set_config set_config_json log_event].
          split; [|discriminate]. intros _. split; [apply dict_get_set_same|].
          apply (get_active_token_named _ (answer_name a) (answer_token a)).
          -- apply String.eqb_neq. exact Hname.
          -- cbn [config set_config set_config_json log_event]. apply dict_get_set_same.
          -- cbn [tokens set_config set_config_json log_event]. apply dict_get_set_same.
        * split; [split; [apply dict_get_set_same | split; reflexivity]|].
          intros _ H. discriminate (H eq_refl).
      + cbv zeta.
        cbn [world_after tokens config tokens_json token_txt log_events set_token_txt
             set_tokens_json set_tokens].
        split; [split; [apply dict_get_set_same | split; reflexivity]|].
        intros _ _. eexists. split; [reflexivity|].
        cbn [tokens config tokens_json token_txt log_events set_token_txt set_tokens_json
             set_tokens].
        split; [discriminate | reflexivity].
    - cbv zeta.
      cbn [world_after tokens config tokens_json token_txt log_events set_token_txt
           set_tokens_json set_tokens].
      split; [split; [apply dict_get_set_same | split; reflexivity]|].
      intros H. discriminate H. }
  unfold turned_down, add_token_interactive. cbv zeta. rewrite Hname.
  cbv beta iota zeta delta [bind gets console_print ret]. cbn [orb].
  destruct (dict_mem (answer_name a) (tokens w)) eqn:Hpresent;
    [destruct (renders (ReplaceToken (answer_name a))) eqn:Hask;
     [destruct (answer_replace a) eqn:Hreplace|]|];
    cbn [negb andb orb].
  - exact (Htail (true = true -> true = true)).
  - split; [|discriminate]. intros _. split; [reflexivity | intros _; reflexivity].
  - split.
    + intros _. split; [reflexivity | intros H; discriminate (H eq_refl)].
    + intros _ _ H. discriminate (H eq_refl).
  - exact (Htail (false = true -> renders (ReplaceToken (answer_name a)) = true)).
Qed.

(** X24.  The token log outlives the token.  When the token log can be
    opened for appending, [add_token] appends the value to it, and
    [remove_token] takes the token out of the collection and of
    [tokens.json] only: after the token is added and removed again, no
    token of that name is stored and its value is still in the log. *)
Theorem token_log_outlives_removal (name token : string) (sync : bool) (w : World) :
  token_txt_writable w = true ->
  exists w1 w2,
    add_token http_post name token sync w = Returns tt w1 /\
    remove_token name w1 = Returns true w2 /\
    dict_get name (tokens w2) = None /\
    tokens_json w2 = Some (tokens w2) /\
    token_txt w2 = token_txt w ++ [token] /\
    In token (token_txt w2).
Proof.
  intros Hw. eexists. eexists.
  split; [apply (add_token_runs http_post name token sync w Hw)|].
  split.
  { unfold remove_token. cbv beta iota delta [bind gets modify save_tokens ret].
    cbn [tokens log_events set_token_txt set_tokens_json set_tokens].
    unfold dict_mem. rewrite dict_get_set_same. reflexivity. }
  cbn [tokens tokens_json token_txt log_events log_event set_token_txt set_tokens_json
       set_tokens].
  split; [apply dict_get_del_same|]. split; [reflexivity|]. split; [reflexivity|].
  apply in_or_app. right. left. reflexivity.
Qed.

End PromptFacts.

Lemma add_token_interactive_validates_witness :
  turned_down short_answers two_tokens = true /\
  add_token_interactive (fun _ => Failed) strict_console short_answers two_tokens
    = Returns tt two_tokens /\
  turned_down long_answers two_tokens = false /\
  (exists w',
     add_token_interactive (fun _ => Failed) strict_console long_answers two_tokens
       = Returns tt w' /\
     get_active_token w' = Returns (Some "eyJ-home-token-0123456789") w') /\
  dict_get "[home]"
           (tokens (world_after (add_token_interactive (fun _ => Failed) strict_console
                                                       tagged_answers two_tokens)))
    = Some "eyJ-home-token-0123456789".
Proof.
  destruct (add_token_interactive_validates (fun _ => Failed) strict_console
              short_answers two_tokens) as (Hdown & _).
  destruct (add_token_interactive_validates (fun _ => Failed) strict_console
              long_answers two_tokens) as (_ & Hstored).
  destruct (add_token_interactive_validates (fun _ => Failed) strict_console
              tagged_answers two_tokens) as (_ & Htagged).
  split; [reflexivity|].
  split; [apply (proj2 (Hdown eq_refl)); intros _; reflexivity|].
  split; [reflexivity|]. split.
  - destruct (Hstored eq_refl eq_refl (fun _ => eq_refl)) as (_ & Hreturns).
    destruct (Hreturns eq_refl (fun _ => eq_refl)) as (w' & Hrun & Huse & _).
    exists w'. split; [exact Hrun|]. apply (Huse eq_refl).
  - assert (Hasked : dict_mem (answer_name tagged_answers) (tokens two_tokens) = true ->
                     strict_console (ReplaceToken (answer_name tagged_answers)) = true)
      by (intros H; discriminate H).
    exact (proj1 (proj1 (Htagged eq_refl eq_refl Hasked))).
Defined.

Lemma token_log_outlives_removal_witness :
  exists w1 w2,
    add_token (fun _ => Failed) "work" "eyJ-work-token" true
              (mkWorld default_config [] [] None None None [] true []) = Returns tt w1 /\
    remove_token "work" w1 = Returns true w2 /\
    dict_get "work" (tokens w2) = None /\
    token_txt w2 = ["eyJ-work-token"].
Proof.
  destruct (token_log_outlives_removal (fun _ => Failed) "work" "eyJ-work-token" true
              (mkWorld default_config [] [] None None None [] true []) eq_refl)
    as (w1 & w2 & Hadd & Hremove & Hgone & _ & Hlog & _).
  exists w1, w2. split; [exact Hadd|]. split; [exact Hremove|].
  split; [exact Hgone | exact Hlog].
Defined.

(** ** The endpoint a sync goes to *)

(** What [switch_endpoint] has done when it returns [True]. *)
Lemma switch_endpoint_true (http_get : url -> reply) (new_endpoint : string) (w w1 : World) :
  switch_endpoint http_get new_endpoint w = Returns true w1 ->
  config w1 = dict_set "api_endpoint" (JStr (normalize_endpoint new_endpoint)) (config w) /\
  tokens w1 = tokens w /\
  token_txt w1 = token_txt w /\
  token_txt_writable w1 = token_txt_writable w.
Proof.
  unfold switch_endpoint. fold (scheme_ok new_endpoint).
  destruct (scheme_ok new_endpoint) eqn:Hscheme; cbn [negb]; [|discriminate].
  assert (Hne : String.eqb new_endpoint "" = false).
  { destruct new_endpoint; [discriminate Hscheme | reflexivity]. }
  unfold set. rewrite Hne. cbn [String.eqb Ascii.eqb Bool.eqb andb negb].
  cbv beta iota delta [catch bind requests_get modify raise ret save_config].
  destruct (http_get (Url (JStr new_endpoint) "/health")) as [| | |status text];
    try discriminate.
  cbn [fst snd].
  destruct (Z.eqb status 200).
  { intros H. inversion H. repeat split. }
  destruct (Z.eqb status 403); [|discriminate].
  destruct (http_get (Url (JStr new_endpoint) "/v1/models")) as [| | |status' text'];
    try discriminate.
  cbn [fst snd].
  destruct (Z.eqb status' 403 && contains "RBAC" text'); [|discriminate].
  intros H. inversion H. repeat split.
Qed.

(** X25.  The sync goes to the endpoint the switch stored.  After a
    [switch_endpoint] that returned [True], when the token log can be
    opened for appending, [add_token] posts the tokens to
    [/admin/sync/tokens] of the normalised endpoint, after its two writes;
    and when the endpoint normalises to the default one (the local
    address written with a trailing slash) no request is issued. *)
Theorem sync_goes_to_the_switched_endpoint
        (http_get http_post : url -> reply) (new_endpoint name token : string)
        (w w1 : World) :
  switch_endpoint http_get new_endpoint w = Returns true w1 ->
  token_txt_writable w = true ->
  endpoint_of w1 = JStr (normalize_endpoint new_endpoint) /\
  exists w2,
    add_token http_post name token true w1 = Returns tt w2 /\
    trace w2 =
      trace w1 ++ FileWrite TOKENS_FILE :: FileWrite TOKEN_TXT
               :: (if String.eqb (normalize_endpoint new_endpoint) "http://localhost:5005"
                   then []
                   else [HttpPost (Url (JStr (normalize_endpoint new_endpoint))
                                       "/admin/sync/tokens")]).
Proof.
  intros Hswitch Hw.
  destruct (switch_endpoint_true http_get new_endpoint w w1 Hswitch)
    as (Hconfig & _ & _ & Hw1).
  assert (Hend : endpoint_of w1 = JStr (normalize_endpoint new_endpoint)).
  { unfold endpoint_of, dict_get_default. rewrite Hconfig, dict_get_set_same. reflexivity. }
  rewrite Hw in Hw1.
  split; [exact Hend|].
  eexists. split; [apply (add_token_runs http_post name token true w1 Hw1)|].
  cbn [trace log_events set_token_txt set_tokens_json set_tokens].
  unfold sync_request. rewrite Hend. cbn [json_eqb]. reflexivity.
Qed.

Lemma sync_goes_to_the_switched_endpoint_witness :
  (exists w1 w2,
     switch_endpoint (fun _ => Response 200 "ok") "https://gateway.example/" two_tokens
       = Returns true w1 /\
     add_token (fun _ => Failed) "ci" "eyJ-ci-token" true w1 = Returns tt w2 /\
     trace w2 = trace w1 ++ [FileWrite TOKENS_FILE; FileWrite TOKEN_TXT;
                             HttpPost (Url (JStr "https://gateway.example")
                                           "/admin/sync/tokens")]) /\
  (exists w1 w2,
     switch_endpoint (fun _ => Response 200 "ok") "http://localhost:5005/" one_token
       = Returns true w1 /\
     add_token (fun _ => Failed) "ci" "eyJ-ci-token" true w1 = Returns tt w2 /\
     trace w2 = trace w1 ++ [FileWrite TOKENS_FILE; FileWrite TOKEN_TXT]).
Proof.
  split.
  - destruct (switch_endpoint (fun _ => Response 200 "ok") "https://gateway.example/"
                              two_tokens) as [[|] w1|e w1] eqn:Hswitch;
      [|vm_compute in Hswitch; discriminate Hswitch
       |vm_compute in Hswitch; discriminate Hswitch].
    destruct (sync_goes_to_the_switched_endpoint
                (fun _ => Response 200 "ok") (fun _ => Failed)
                "https://gateway.example/" "ci" "eyJ-ci-token" two_tokens w1
                Hswitch eq_refl) as (_ & w2 & Hadd & Htrace).
    exists w1, w2. split; [reflexivity|]. split; [exact Hadd | exact Htrace].
  - destruct (switch_endpoint (fun _ => Response 200 "ok") "http://localhost:5005/"
                              one_token) as [[|] w1|e w1] eqn:Hswitch;
      [|vm_compute in Hswitch; discriminate Hswitch
       |vm_compute in Hswitch; discriminate Hswitch].
    destruct (sync_goes_to_the_switched_endpoint
                (fun _ => Response 200 "ok") (fun _ => Failed)
                "http://localhost:5005/" "ci" "eyJ-ci-token" one_token w1
                Hswitch eq_refl) as (_ & w2 & Hadd & Htrace).
    exists w1, w2. split; [reflexivity|]. split; [exact Hadd | exact Htrace].
Defined.
